(** * Verification of the build scripts of the microdragon kernel

    A shallow embedding of [scripts/pack.py], [scripts/task.py],
    [scripts/bootloader/bootloader.py] and [scripts/bootloader/limine.py],
    followed by the properties of the packaging pipeline.

    Conventions of the embedding.
    - A Python [str] is a [list ascii]; string literals are read through
      the coercion [list_ascii_of_string].  File names are taken over the
      code points below 128, where [str.upper] is exactly a-z to A-Z.
    - A Python [dict] is a [gmap]; a module-level or instance dictionary
      that the code mutates is threaded explicitly as state.
    - A function that can raise returns a [result]; a function that also
      mutates state runs in the monad [M]. *)

From Stdlib Require Import Ascii String ZArith DecimalString DecimalNat.
From stdpp Require Import gmap strings list.

Local Open Scope string_scope.
Local Open Scope list_scope.
Local Open Scope nat_scope.

Abbreviation str := (list ascii).
Coercion list_ascii_of_string : string >-> list.

(** ** Python built-ins used by the scripts *)

Module Py.

(** [str.upper] on one character. *)
Definition upper_char (c : ascii) : ascii :=
  let n := nat_of_ascii c in
  if (97 <=? n) && (n <=? 122) then ascii_of_nat (n - 32) else c.

(** [s.upper()] *)
Definition upper (s : str) : str := upper_char <$> s.

(** [chr(i) for i in range(lo, hi)] *)
Definition chr_range (lo hi : nat) : list ascii :=
  ascii_of_nat <$> seq lo (hi - lo).

(** [s.rfind(c)]: the highest index of [c] in [s], or [-1]. *)
Fixpoint rfind (c : ascii) (s : str) : Z :=
  match s with
  | [] => (-1)%Z
  | a :: s' =>
      let r := rfind c s' in
      if (0 <=? r)%Z then (r + 1)%Z
      else if Ascii.eqb a c then 0%Z else (-1)%Z
  end.

(** [s.split(sep)] for a one-character separator. *)
Fixpoint split (sep : ascii) (s : str) : list str :=
  match s with
  | [] => [[]]
  | a :: s' =>
      if Ascii.eqb a sep then [] :: split sep s'
      else match split sep s' with
           | [] => [[a]]
           | w :: ws => (a :: w) :: ws
           end
  end.

(** [sep.join(parts)] *)
Fixpoint join (sep : str) (parts : list str) : str :=
  match parts with
  | [] => []
  | [w] => w
  | w :: ws => w ++ sep ++ join sep ws
  end.

(** [str(n)] for a non-negative integer. *)
Definition decimal (n : nat) : str :=
  list_ascii_of_string (NilEmpty.string_of_uint (Nat.to_uint n)).

(** [f'{number:02d}']: decimal, padded on the left with zeros to a
    width of at least two. *)
Definition format_02d (number : nat) : str :=
  let digits := decimal number in
  replicate (2 - length digits) "0"%char ++ digits.

(** A decimal digit. *)
Definition is_digit (c : ascii) : Prop :=
  48 ≤ nat_of_ascii c ≤ 57.


End Py.

(** ** [os.path] (POSIX flavour) *)

Module OsPath.

(** The loop of [genericpath._splitext] that skips leading dots: is
    there a character other than [extsep] at an index in
    [filenameIndex, filenameIndex + steps)? *)
Fixpoint skip_leading_dots (p : str) (extsep : ascii)
    (filenameIndex steps : nat) : bool :=
  match steps with
  | 0 => false
  | S steps' =>
      match p !! filenameIndex with
      | Some c =>
          if Ascii.eqb c extsep
          then skip_leading_dots p extsep (S filenameIndex) steps'
          else true
      | None => false
      end
  end.

(** [os.path.splitext(p)]: the extension starts at the last dot of the
    last path component, unless that component has only dots before
    it. *)
Definition splitext (p : str) : str * str :=
  let sepIndex := Py.rfind "/" p in
  let dotIndex := Py.rfind "." p in
  if (sepIndex <? dotIndex)%Z then
    let filenameIndex := Z.to_nat (sepIndex + 1) in
    if skip_leading_dots p "." filenameIndex
         (Z.to_nat dotIndex - filenameIndex)
    then (take (Z.to_nat dotIndex) p, drop (Z.to_nat dotIndex) p)
    else (p, [])
  else (p, []).

(** [os.path.join(a, b)] for a relative [b]. *)
Definition join (a b : str) : str :=
  match last a with
  | None => b
  | Some c => if Ascii.eqb c "/" then a ++ b else a ++ "/" ++ b
  end.

End OsPath.

(** ** [scripts/pack.py]: file-name compliance *)

Definition VALID_ISO_CHARS : list ascii :=
  Py.chr_range 0x41 0x5B ++ Py.chr_range 0x30 0x3A ++ ["_"%char].

(** [c in VALID_ISO_CHARS] *)
Definition valid_iso_char (c : ascii) : bool :=
  bool_decide (c ∈ VALID_ISO_CHARS).

(** The module-level dictionary, as it is when the module is loaded. *)
Definition ISO_NUMBERING : gmap str nat := ∅.

(** The loop of lines 17-23: every character of the upper-cased base
    outside the valid set becomes an underscore. *)
Definition sanitize (file : str) : str :=
  (λ c, if valid_iso_char c then c else "_"%char) <$> file.

(** Line 25: [len(name) > 8 or name != file]. *)
Definition needs_numbering (name file : str) : bool :=
  (8 <? length name) || negb (bool_decide (name = file)).

(** Line 35: [len(ext) > 4 or any(c for c in ext[1:] if c not in
    VALID_ISO_CHARS)].  A one-character string is truthy, so [any] holds
    exactly when some character after the dot is invalid. *)
Definition bad_extension (ext : str) : bool :=
  (4 <? length ext) || existsb (λ c, negb (valid_iso_char c)) (drop 1 ext).

(** Lines 25-33: a name that needs it is cut to six characters and
    numbered from the dictionary. *)
Definition number_name (name file : str) (numbering : gmap str nat)
    : str * gmap str nat :=
  if needs_numbering name file then
    let name := take 6 name in
    let '(number, numbering) :=
      match numbering !! name with
      | Some number => (number, <[name := number + 1]> numbering)
      | None => (1, <[name := 2]> numbering)
      end in
    (name ++ Py.format_02d number, numbering)
  else (name, numbering).

(** Lines 35-36. *)
Definition checked_ext (ext : str) : str :=
  if bad_extension ext then "." else ext.

(** [make_iso_compliant(file)], with the dictionary [ISO_NUMBERING]
    passed in and returned. *)
Definition make_iso_compliant (file : str) (numbering : gmap str nat)
    : str * gmap str nat :=
  let '(file, ext) := OsPath.splitext file in
  let file := Py.upper file in
  let ext := Py.upper ext in
  let name := sanitize file in
  let '(name, numbering) := number_name name file numbering in
  let ext := checked_ext ext in
  (name ++ ext, numbering).

(** The parts of a file name that [make_iso_compliant] works on: the
    upper-cased base and extension, whether the base is numbered, the
    key under which it is numbered, and the number it receives. *)
Definition base_of (file : str) : str := Py.upper (OsPath.splitext file).1.

Definition ext_of (file : str) : str := Py.upper (OsPath.splitext file).2.

Definition non_compliant (file : str) : bool :=
  needs_numbering (sanitize (base_of file)) (base_of file).

Definition prefix_of (file : str) : str := take 6 (sanitize (base_of file)).

Definition next_number (m : gmap str nat) (prefix : str) : nat :=
  default 1 (m !! prefix).

(** Is [file] numbered under [prefix]?  And how many files of a list
    are? *)
Definition numbered_as (prefix file : str) : bool :=
  non_compliant file && bool_decide (prefix_of file = prefix).

Fixpoint uses (prefix : str) (files : list str) : nat :=
  match files with
  | [] => 0
  | file :: files' =>
      (if numbered_as prefix file then 1 else 0) + uses prefix files'
  end.

(** ** Exceptions and the state-and-exception monad *)

Inductive exn : Type :=
  | RuntimeError (msg : str)
  | TypeError (msg : str)
  | FileNotFoundError (path : str)
  | PyCdlibException.

Inductive result (A : Type) : Type :=
  | Return (a : A)
  | Raise (e : exn).
Arguments Return {A} a.
Arguments Raise {A} e.

(** A computation over a mutable state [S]: it ends normally with a
    value or raises, and in both cases leaves a state behind. *)
Definition M (S A : Type) : Type := S → result A * S.

Definition ret {S A} (a : A) : M S A := λ s, (Return a, s).

Definition raise {S A} (e : exn) : M S A := λ s, (Raise e, s).

Definition bind {S A B} (m : M S A) (k : A → M S B) : M S B :=
  λ s, match m s with
       | (Return a, s') => k a s'
       | (Raise e, s') => (Raise e, s')
       end.

Declare Scope py_scope.
Delimit Scope py_scope with py.
Notation "'let*' x := m 'in' k" := (bind m (λ x, k))
  (at level 10, x name, m at level 100, k at level 200) : py_scope.
Notation "m >> k" := (bind m (λ _, k))
  (at level 100, k at level 200, right associativity) : py_scope.
Local Open Scope py_scope.

(** [for x in xs: body(x)] *)
Fixpoint for_ {S A} (xs : list A) (body : A → M S unit) : M S unit :=
  match xs with
  | [] => ret tt
  | x :: xs' => body x >> for_ xs' body
  end.

Definition raised {A} (r : result A) : bool :=
  match r with Return _ => false | Raise _ => true end.

(** ** The image library, seen from the scripts

    [pycdlib] is driven through six methods.  An image under
    construction is the list of the calls it has accepted so far; what
    the library accepts, and which record a Rock Ridge path resolves to,
    is a parameter of the model. *)

Inductive IsoCall : Type :=
  | iso_new (rock_ridge : str)
  | iso_add_directory (iso_path rr_name : str)
  | iso_add_file (filename iso_path rr_name : str)
  | iso_get_record (rr_path : str)
  | iso_add_eltorito (bootfile_path media_name : str)
      (boot_load_size : nat) (boot_info_table efi : bool)
  | iso_write_fp (outfp : str)
  | iso_close.

Record PyCdlib : Type := {
  (** does the library accept this call on an image with this history? *)
  accepts : list IsoCall → IsoCall → bool;
  (** [get_record(rr_path=...).file_ident.decode('utf-8')], if found *)
  file_ident : list IsoCall → str → option str;
}.

(** The outcome of one library call on an image with history [img]. *)
Definition answer (lib : PyCdlib) (c : IsoCall) (img : list IsoCall)
    : option str :=
  match c with
  | iso_get_record rr_path => file_ident lib img rr_path
  | _ => if accepts lib img c then Some [] else None
  end.

(** A method call on the image.  The image keeps the calls made on it in
    order; when the library refuses, the call raises and is the last
    one made. *)
Definition invoke (lib : PyCdlib) (c : IsoCall) : M (list IsoCall) str :=
  λ img, match answer lib c img with
         | Some r => (Return r, img ++ [c])
         | None => (Raise PyCdlibException, img ++ [c])
         end.

(** A reference library for examples: it accepts every call and resolves
    a Rock Ridge path to the identifier under which a file of that name
    was added. *)
Definition basename (path : str) : str :=
  default [] (last (Py.split "/" path)).

Definition added_as (rr_name : str) (c : IsoCall) : option str :=
  match c with
  | iso_add_file _ iso_path rr =>
      if bool_decide (rr = rr_name) then Some (basename iso_path) else None
  | _ => None
  end.

Definition reference_lib : PyCdlib :=
  {| accepts := λ _ _, true;
     file_ident := λ img rr_path,
       head (omap (added_as (basename rr_path)) img) |}.

(** ** [scripts/bootloader]: the bootloader interface and Limine *)

Record Bootloader : Type := {
  project : str;
  make_bootable : PyCdlib → M (list IsoCall) unit;
}.

Module LimineBootloader.

Definition make_bootable (lib : PyCdlib) : M (list IsoCall) unit :=
  let* file_ident := invoke lib (iso_get_record "/limine/limine-bios-cd.bin") in
  invoke lib (iso_add_eltorito ("/LIMINE/" ++ file_ident) "noemul" 4
                true false) >>
  let* file_ident := invoke lib (iso_get_record "/limine/limine-uefi-cd.bin") in
  invoke lib (iso_add_eltorito ("/LIMINE/" ++ file_ident) "noemul" 4
                true true) >>
  ret tt.

Definition new : Bootloader :=
  Build_Bootloader "microdragon-limine" make_bootable.

End LimineBootloader.

(** ** [scripts/pack.py]: assembling the image *)

(** The state a packaging run works on: the module dictionary and the
    image being built. *)
Record PackState : Type := {
  numbering : gmap str nat;
  image : list IsoCall;
}.

(** A computation on the image, run inside a packaging run. *)
Definition on_image {A} (m : M (list IsoCall) A) : M PackState A :=
  λ s, let '(r, img) := m (image s) in
       (r, {| numbering := numbering s; image := img |}).

(** A call to [make_iso_compliant] from within a run. *)
Definition iso_compliant (file : str) : M PackState str :=
  λ s, let '(iso_file, numbering') := make_iso_compliant file (numbering s) in
       (Return iso_file, {| numbering := numbering'; image := image s |}).

#[local] Set Warnings "-register-all".

(** A staged directory: its sub-directories and its files, each in the
    order in which the operating system lists them. *)
Inductive Dir : Type :=
  | MkDir (dirs : list (str * Dir)) (files : list str).

(** [os.walk(top)], top-down. *)
Fixpoint walk (top : str) (d : Dir) : list (str * list str * list str) :=
  match d with
  | MkDir dirs files =>
      (top, fst <$> dirs, files)
      :: flat_map (λ sub, walk (OsPath.join top (fst sub)) (snd sub)) dirs
  end.

Record PackagingTask : Type := {
  target : str;
  bootloader : Bootloader;
  release : bool;
  output : str;
  force : bool;
}.

(** Line 81: the upper-cased path of [root] below [disk]. *)
Definition iso_disk_root (root : str) : str :=
  let disk_root := drop 4 root in
  Py.join "/" (Py.upper <$> Py.split "/" disk_root).

(** The body of the loop over [os.walk('disk')], lines 74-90. *)
Definition add_level (lib : PyCdlib) (entry : str * list str * list str)
    : M PackState unit :=
  let '(root, dirs, files) := entry in
  for_ dirs (λ dir,
    on_image (invoke lib (iso_add_directory
                (iso_disk_root root ++ "/" ++ Py.upper dir) dir)) >>
    ret tt) >>
  for_ files (λ file,
    let* iso_file := iso_compliant file in
    on_image (invoke lib (iso_add_file (OsPath.join root file)
                (iso_disk_root root ++ "/" ++ iso_file ++ ";1") file)) >>
    ret tt).

(** [PackagingTask._package_disk_dir], run on the staged tree [disk]. *)
Definition _package_disk_dir (self : PackagingTask) (lib : PyCdlib)
    (disk : Dir) : M PackState unit :=
  on_image (λ _, (Return tt, [])) >>
  on_image (invoke lib (iso_new "1.09")) >>
  for_ (walk "disk" disk) (add_level lib) >>
  on_image (make_bootable (bootloader self) lib) >>
  on_image (invoke lib (iso_write_fp (output self))) >>
  on_image (invoke lib iso_close) >>
  ret tt.

(** The calls a run makes when nothing fails, as a list: for every
    entry of the walk, one [add_directory] per sub-directory and then
    one [add_file] per file. *)
Definition dir_calls (root : str) (dirs : list str) : list IsoCall :=
  (λ dir, iso_add_directory (iso_disk_root root ++ "/" ++ Py.upper dir) dir)
    <$> dirs.

Fixpoint file_calls (root : str) (files : list str) (m : gmap str nat)
    : list IsoCall * gmap str nat :=
  match files with
  | [] => ([], m)
  | file :: files' =>
      let '(iso_file, m1) := make_iso_compliant file m in
      let '(cs, m2) := file_calls root files' m1 in
      (iso_add_file (OsPath.join root file)
         (iso_disk_root root ++ "/" ++ iso_file ++ ";1") file :: cs, m2)
  end.

Fixpoint tree_calls (entries : list (str * list str * list str))
    (m : gmap str nat) : list IsoCall * gmap str nat :=
  match entries with
  | [] => ([], m)
  | (root, dirs, files) :: entries' =>
      let '(fs, m1) := file_calls root files m in
      let '(cs, m2) := tree_calls entries' m1 in
      (dir_calls root dirs ++ fs ++ cs, m2)
  end.

(** The calls of Limine's [make_bootable] when both records are found. *)
Definition bios_path : str := "/limine/limine-bios-cd.bin".
Definition uefi_path : str := "/limine/limine-uefi-cd.bin".

Definition bios_entry (ident : str) : IsoCall :=
  iso_add_eltorito ("/LIMINE/" ++ ident) "noemul" 4 true false.
Definition uefi_entry (ident : str) : IsoCall :=
  iso_add_eltorito ("/LIMINE/" ++ ident) "noemul" 4 true true.

Definition boot_calls (bios_ident uefi_ident : str) : list IsoCall :=
  [ iso_get_record bios_path; bios_entry bios_ident;
    iso_get_record uefi_path; uefi_entry uefi_ident ].

(** The boot catalog entries among the calls made on an image. *)
Definition is_eltorito (c : IsoCall) : bool :=
  match c with iso_add_eltorito _ _ _ _ _ => true | _ => false end.

Definition eltorito_entries (img : list IsoCall) : list IsoCall :=
  List.filter is_eltorito img.

(** The additions of directories and files. *)
Definition is_addition (c : IsoCall) : bool :=
  match c with
  | iso_add_directory _ _ | iso_add_file _ _ _ => true
  | _ => false
  end.

(** Making the calls [cs] one after the other on the image [img], up to
    and including the first one the library refuses: was every call
    accepted, and which calls has the image seen? *)
Fixpoint attempt (lib : PyCdlib) (cs : list IsoCall) (img : list IsoCall)
    : bool * list IsoCall :=
  match cs with
  | [] => (true, img)
  | c :: cs' =>
      match answer lib c img with
      | Some _ => attempt lib cs' (img ++ [c])
      | None => (false, img ++ [c])
      end
  end.

(** The outcome of a computation that makes the calls [cs] in order and
    stops at the first refusal. *)
Definition attempted (lib : PyCdlib) (cs : list IsoCall) (img : list IsoCall)
    : result unit * list IsoCall :=
  ((if (attempt lib cs img).1 then Return tt else Raise PyCdlibException),
   (attempt lib cs img).2).

(** A computation of a packaging run follows the calls [cs]: it makes
    them in order on the image, raises at the first refusal, and
    otherwise returns with the dictionary [nb]. *)
Definition follows {A} (lib : PyCdlib) (m : M PackState A)
    (cs : list IsoCall) (nb : gmap str nat) (s : PackState) : Prop :=
  if (attempt lib cs (image s)).1
  then ∃ a, m s = (Return a, {| numbering := nb;
                                image := (attempt lib cs (image s)).2 |})
  else raised (m s).1 = true ∧ image (m s).2 = (attempt lib cs (image s)).2.

(** The identifier the library reports for a path, if any. *)
Definition found (lib : PyCdlib) (img : list IsoCall) (rr_path : str) : str :=
  default [] (file_ident lib img rr_path).

(** Every counter of [m1] is in [m2], and is at least as large. *)
Definition grows (m1 m2 : gmap str nat) : Prop :=
  ∀ prefix n, m1 !! prefix = Some n →
    ∃ n', m2 !! prefix = Some n' ∧ n ≤ n'.

(** The calls of a whole run with Limine when nothing fails: the new
    image, the additions [adds], the four calls of [make_bootable] with
    the identifiers the library reports, the write and the close. *)
Definition planned_calls (lib : PyCdlib) (out : str) (adds : list IsoCall)
    : list IsoCall :=
  let img := iso_new "1.09" :: adds in
  let bios := found lib img bios_path in
  let uefi :=
    found lib (img ++ [iso_get_record bios_path; bios_entry bios]) uefi_path in
  img ++ boot_calls bios uefi ++ [iso_write_fp out; iso_close].

(** A staging tree as Limine's [copy_files] and [_copy_kernel] leave
    it, with a note at the top level, and a task that packages it. *)
Definition staged_disk : Dir :=
  MkDir
    [ ("system" : str, MkDir [] ["kernel" : str]);
      ("limine" : str,
       MkDir [] ["limine-uefi-cd.bin" : str; "limine-bios-cd.bin" : str;
                 "limine-bios.sys" : str; "limine.cfg" : str]);
      ("EFI" : str,
       MkDir [("BOOT" : str, MkDir [] ["BOOTX64.EFI" : str])] []) ]
    ["readme.txt" : str].

Definition pack_task : PackagingTask :=
  {| target := "x86_64-unknown-none"; bootloader := LimineBootloader.new;
     release := false; output := "microdragon.iso"; force := false |}.

(** The additions of a walk, one block per entry: the sub-directories of
    the entry, then its files. *)
Fixpoint level_blocks (entries : list (str * list str * list str))
    (m : gmap str nat) : list (list IsoCall) :=
  match entries with
  | [] => []
  | (root, dirs, files) :: entries' =>
      (dir_calls root dirs ++ (file_calls root files m).1)
      :: level_blocks entries' (file_calls root files m).2
  end.

(** A computation only lets the dictionary grow, whatever its
    outcome. *)
Definition enlarges {A} (m : M PackState A) : Prop :=
  ∀ s, grows (numbering s) (numbering (m s).2).

(** A computation that returns has turned the dictionary [nb] into
    [f nb]. *)
Definition numbers {A} (m : M PackState A)
    (f : gmap str nat → gmap str nat) : Prop :=
  ∀ s a s', m s = (Return a, s') → numbering s' = f (numbering s).

(** The files of a walk, in the order in which the run meets them. *)
Definition walk_files (entries : list (str * list str * list str)) : list str :=
  flat_map snd entries.

(** The names a sequence of files receives, in the order in which the
    run meets them. *)
Fixpoint compliant_names (files : list str) (m : gmap str nat)
    : list str * gmap str nat :=
  match files with
  | [] => ([], m)
  | file :: files' =>
      let '(iso_file, m1) := make_iso_compliant file m in
      let '(names, m2) := compliant_names files' m1 in
      (iso_file :: names, m2)
  end.

(** ** [scripts/bootloader/bootloader.py]: copying into the staging tree *)

(** What the scripts observe of a file: its modification time (in ticks
    of the file system's clock) and its contents. *)
Record File : Type := {
  mtime : Z;
  data : str;
}.

(** The file system, the clock that stamps written files, and what has
    been printed. *)
Record FsState : Type := {
  files : gmap str File;
  clock : Z;
  stdout : list str;
}.

(** [os.path.exists(path)] *)
Definition path_exists (path : str) : M FsState bool :=
  λ s, (Return (bool_decide (is_Some (files s !! path))), s).

(** [os.path.getmtime(path)] *)
Definition getmtime (path : str) : M FsState Z :=
  λ s, match files s !! path with
       | Some f => (Return (mtime f), s)
       | None => (Raise (FileNotFoundError path), s)
       end.

(** [print(line)] *)
Definition print (line : str) : M FsState unit :=
  λ s, (Return tt, {| files := files s; clock := clock s;
                      stdout := stdout s ++ [line] |}).

(** [shutil.copyfile(src, dst)]: the contents of [src] are written to
    [dst]; the modification time of [dst] is the time of the write, not
    that of [src]. *)
Definition copyfile (src dst : str) : M FsState unit :=
  λ s, match files s !! src with
       | Some f =>
           (Return tt,
            {| files := <[dst := {| mtime := clock s; data := data f |}]>
                          (files s);
               clock := clock s; stdout := stdout s |})
       | None => (Raise (FileNotFoundError src), s)
       end.

(** [Bootloader.test_or_copy(target, copy)] *)
Definition test_or_copy (target copy : str) : M FsState unit :=
  let* present := path_exists target in
  let* newer :=
    (if negb present then ret true
     else let* mc := getmtime copy in
          let* mt := getmtime target in
          ret (mt <? mc)%Z) in
  if (newer : bool) then
    print ("Copying file from " ++ copy ++ " to " ++ target ++ "...") >>
    copyfile copy target
  else ret tt.

(** The line printed before a copy. *)
Definition copy_message (target copy : str) : str :=
  "Copying file from " ++ copy ++ " to " ++ target ++ "...".

(** The state after [copy], with attributes [src], has been copied over
    [target]. *)
Definition copied (target copy : str) (src : File) (s : FsState) : FsState :=
  {| files := <[target := {| mtime := clock s; data := data src |}]> (files s);
     clock := clock s;
     stdout := stdout s ++ [copy_message target copy] |}.


(** ** [scripts/task.py], [scripts/bootloader/bootloader.py]: the registries *)

(** A class as the registries see it: its name and the names of the
    classes in its method resolution order. *)
Record PyType : Type := {
  type_name : str;
  type_mro : list str;
}.

Inductive Attr : Type :=
  | AStr (s : str)
  | ABool (b : bool)
  | ANone
  | ARef (addr : nat).

(** An object on the heap. *)
Record Instance : Type := {
  inst_type : PyType;
  inst_attrs : list (str * Attr);
}.

(** A class object: [cls_init] is its [__init__], which reads the
    bootloader registry and yields the attributes of the new object. *)
Record PyClass : Type := {
  cls_type : PyType;
  cls_abstract : bool;
  cls_init : gmap str nat → result (list (str * Attr));
}.

(** The values a caller can hand to [register]. *)
Inductive PyObject : Type :=
  | PyClassObj (c : PyClass)
  | PyRef (addr : nat)
  | PyNone.

(** The two singletons and the heap of live objects. *)
Record Registries : Type := {
  tasks : gmap str PyClass;
  bootloaders : gmap str nat;
  heap : gmap nat Instance;
}.

(** [cls()]: a new object, at an address no live object has. *)
Definition instantiate (cls : PyClass) : M Registries nat :=
  λ w, if cls_abstract cls
       then (Raise (TypeError ("Can't instantiate abstract class "
                                 ++ type_name (cls_type cls))), w)
       else match cls_init cls (bootloaders w) with
            | Raise e => (Raise e, w)
            | Return attrs =>
                let addr := fresh (dom (heap w)) in
                (Return addr,
                 {| tasks := tasks w; bootloaders := bootloaders w;
                    heap := <[addr := {| inst_type := cls_type cls;
                                         inst_attrs := attrs |}]> (heap w) |})
            end.

(** [issubclass(task, Task)] holds: [task] is a class with [Task] among
    its ancestors. *)
Definition derives_from_task (task : PyObject) : bool :=
  match task with
  | PyClassObj c => bool_decide (("Task" : str) ∈ type_mro (cls_type c))
  | _ => false
  end.

Module TaskRegistry.

(** [register(name, task)]; [issubclass] itself raises [TypeError]
    when [task] is not a class. *)
Definition register (name : str) (task : PyObject) : M Registries unit :=
  λ w,
    if bool_decide (is_Some (tasks w !! name)) then
      (Raise (RuntimeError ("Task " ++ name ++ " is already registered.")), w)
    else
      match task with
      | PyClassObj c =>
          if negb (bool_decide (("Task" : str) ∈ type_mro (cls_type c))) then
            (Raise (TypeError "Given task does not derive from Task class"), w)
          else
            (Return tt, {| tasks := <[name := c]> (tasks w);
                           bootloaders := bootloaders w;
                           heap := heap w |})
      | _ => (Raise (TypeError "issubclass() arg 1 must be a class"), w)
      end.

Definition create_task (name : str) : M Registries nat :=
  λ w, match tasks w !! name with
       | None =>
           (Raise (RuntimeError ("No task registered with name " ++ name)), w)
       | Some cls => instantiate cls w
       end.

End TaskRegistry.

(** [isinstance(loader, Bootloader)] holds: [loader] is a live object
    whose class has [Bootloader] among its ancestors. *)
Definition instance_of_bootloader (loader : PyObject) (w : Registries) : bool :=
  match loader with
  | PyRef addr =>
      match heap w !! addr with
      | Some i => bool_decide (("Bootloader" : str) ∈ type_mro (inst_type i))
      | None => false
      end
  | _ => false
  end.

Module BootloaderRegistry.

(** [isinstance(loader, Bootloader)]: only an object whose class
    derives from [Bootloader] passes. *)
Definition is_bootloader (addr : nat) (w : Registries) : bool :=
  match heap w !! addr with
  | Some i => bool_decide (("Bootloader" : str) ∈ type_mro (inst_type i))
  | None => false
  end.

(** [register(name, loader)]; the dictionary keeps a reference to the
    registered object. *)
Definition register (name : str) (loader : PyObject) : M Registries unit :=
  λ w,
    if bool_decide (is_Some (bootloaders w !! name)) then
      (Raise (RuntimeError ("Bootloader " ++ name ++ " is already registered.")),
       w)
    else
      match loader with
      | PyRef addr =>
          if negb (is_bootloader addr w) then
            (Raise (TypeError
                      "Given bootloader does not derive from Bootloader class"),
             w)
          else
            (Return tt, {| tasks := tasks w;
                           bootloaders := <[name := addr]> (bootloaders w);
                           heap := heap w |})
      | _ =>
          (Raise (TypeError
                    "Given bootloader does not derive from Bootloader class"),
           w)
      end.

Definition get_bootloader (name : str) : M Registries nat :=
  λ w, match bootloaders w !! name with
       | None =>
           (Raise (RuntimeError ("No bootloader registered with name "
                                   ++ name)), w)
       | Some loader => (Return loader, w)
       end.

End BootloaderRegistry.

(** The registry states after a successful registration. *)
Definition with_task (name : str) (c : PyClass) (w : Registries) : Registries :=
  {| tasks := <[name := c]> (tasks w);
     bootloaders := bootloaders w; heap := heap w |}.

Definition with_bootloader (name : str) (addr : nat) (w : Registries)
    : Registries :=
  {| tasks := tasks w;
     bootloaders := <[name := addr]> (bootloaders w); heap := heap w |}.

(** The classes of the scripts. *)
Module Cls.

Definition Task : PyClass :=
  {| cls_type := {| type_name := "Task";
                    type_mro := ["Task" : str; "ABC" : str; "object" : str] |};
     cls_abstract := true;
     cls_init := λ _, Return [] |}.

(** [BuildTask.__init__] *)
Definition BuildTask_init (loaders : gmap str nat)
    : result (list (str * Attr)) :=
  match loaders !! ("Limine" : str) with
  | None => Raise (RuntimeError "No bootloader registered with name Limine")
  | Some loader =>
      Return [("target" : str, AStr "x86_64-unknown-none");
              ("bootloader" : str, ARef loader);
              ("release" : str, ABool false)]
  end.

Definition BuildTask : PyClass :=
  {| cls_type := {| type_name := "BuildTask";
                    type_mro := ["BuildTask" : str; "Task" : str;
                                 "ABC" : str; "object" : str] |};
     cls_abstract := false;
     cls_init := BuildTask_init |}.

(** [PackagingTask.__init__] *)
Definition PackagingTask_init (loaders : gmap str nat)
    : result (list (str * Attr)) :=
  match BuildTask_init loaders with
  | Raise e => Raise e
  | Return attrs =>
      Return (attrs ++ [("output" : str, ANone); ("force" : str, ABool false)])
  end.

Definition PackagingTask : PyClass :=
  {| cls_type := {| type_name := "PackagingTask";
                    type_mro := ["PackagingTask" : str; "BuildTask" : str;
                                 "Task" : str; "ABC" : str; "object" : str] |};
     cls_abstract := false;
     cls_init := PackagingTask_init |}.

Definition LimineBootloader : PyType :=
  {| type_name := "LimineBootloader";
     type_mro := ["LimineBootloader" : str; "Bootloader" : str;
                  "ABC" : str; "object" : str] |}.

End Cls.

(** The Rock Ridge names and the source paths of the files added to an
    image, and the Rock Ridge names of the directories added. *)
Definition added_file_name (c : IsoCall) : option str :=
  match c with iso_add_file _ _ rr_name => Some rr_name | _ => None end.

Definition added_file_source (c : IsoCall) : option str :=
  match c with iso_add_file filename _ _ => Some filename | _ => None end.

Definition added_dir_name (c : IsoCall) : option str :=
  match c with iso_add_directory _ rr_name => Some rr_name | _ => None end.

(** The sub-directories of a walk and the paths of its files, in the
    order in which the run meets them. *)
Definition walk_dirs (entries : list (str * list str * list str)) : list str :=
  flat_map (λ entry, entry.1.2) entries.

Definition walk_paths (entries : list (str * list str * list str)) : list str :=
  flat_map (λ entry, OsPath.join entry.1.1 <$> entry.2) entries.

(** The operations a program can perform on the registries, and the
    registries after a sequence of them, whatever each one returned. *)
Inductive RegistryOp : Type :=
  | OpRegisterTask (name : str) (task : PyObject)
  | OpCreateTask (name : str)
  | OpRegisterBootloader (name : str) (loader : PyObject)
  | OpGetBootloader (name : str).

Definition run_op (w : Registries) (op : RegistryOp) : Registries :=
  match op with
  | OpRegisterTask name task => (TaskRegistry.register name task w).2
  | OpCreateTask name => (TaskRegistry.create_task name w).2
  | OpRegisterBootloader name loader =>
      (BootloaderRegistry.register name loader w).2
  | OpGetBootloader name => (BootloaderRegistry.get_bootloader name w).2
  end.

Definition run_ops (ops : list RegistryOp) (w : Registries) : Registries :=
  foldl run_op w ops.

(** ** [scripts/build.py]: the target of a build *)

Definition RUST_ARCH_MAPPING : gmap str str :=
  list_to_map
    [ ("x86_64" : str, "x86_64-unknown-none" : str);
      ("aarch64" : str, "arch64-unknown-none-softfloat" : str);
      ("riscv" : str, "riscv64imac-unknown-none-elf" : str) ].

(** [to_rust_arch(arch)]; [None] stands for the failed assertion. *)
Definition to_rust_arch (arch : str) : option str :=
  if bool_decide (is_Some (RUST_ARCH_MAPPING !! arch))
  then RUST_ARCH_MAPPING !! arch
  else None.

(** The choices [configure_argparse] allows for [--target], and the
    default. *)
Definition target_choices : list str :=
  ["x86_64" : str; "riscv" : str; "aarch64" : str].

Definition target_default : str := "x86_64".

(** ** The staging tree on disk

    The functions that build the staging tree create directories and
    remove trees, so they are embedded over a file system that has
    directories as well as files.  Paths are relative to the working
    directory and every entry has one spelling: components separated by
    single slashes, no links.  Every operation is permitted. *)

Module PosixPath.

(** [s.rstrip('/')] *)
Definition rstrip_slash (s : str) : str :=
  foldr (λ a acc,
           match acc with
           | [] => if Ascii.eqb a "/" then [] else [a]
           | _ => a :: acc
           end) [] s.

(** [posixpath.split(p)]: everything up to the last slash, without
    trailing slashes unless it is all slashes, and what follows the
    last slash. *)
Definition split (p : str) : str * str :=
  let i := Z.to_nat (Py.rfind "/" p + 1) in
  let head := take i p in
  let tail := drop i p in
  (if forallb (Ascii.eqb "/") head then head else rstrip_slash head, tail).

(** [posixpath.join(a, b)]: an absolute [b] replaces [a]. *)
Definition join (a b : str) : str :=
  match b with
  | c :: _ => if Ascii.eqb c "/" then b else OsPath.join a b
  | [] => OsPath.join a b
  end.

End PosixPath.

(** The exceptions of the operating system: [FileNotFoundError],
    [FileExistsError], [NotADirectoryError], [IsADirectoryError] and
    [shutil.SameFileError]. *)
Inductive oserror : Type :=
  | ENOENT (path : str)
  | EEXIST (path : str)
  | ENOTDIR (path : str)
  | EISDIR (path : str)
  | ESAMEFILE (path : str).

Inductive outcome (A : Type) : Type :=
  | Done (a : A)
  | Failed (e : oserror).
Arguments Done {A} a.
Arguments Failed {A} e.

(** A regular file, or a directory with its modification time. *)
Inductive Node : Type :=
  | FileNode (f : File)
  | DirNode (stamped : Z).

Definition stamp (n : Node) : Z :=
  match n with FileNode f => mtime f | DirNode t => t end.

Definition is_dir (n : Node) : bool :=
  match n with FileNode _ => false | DirNode _ => true end.

(** The file system, the clock that stamps what is written, and what
    has been printed. *)
Record Disk : Type := {
  nodes : gmap str Node;
  now : Z;
  printed : list str;
}.

Definition Sys (A : Type) : Type := Disk → outcome A * Disk.

Definition sys_ret {A} (a : A) : Sys A := λ d, (Done a, d).

Definition sys_bind {A B} (m : Sys A) (k : A → Sys B) : Sys B :=
  λ d, match m d with
       | (Done a, d') => k a d'
       | (Failed e, d') => (Failed e, d')
       end.

Declare Scope sys_scope.
Delimit Scope sys_scope with sys.
Notation "'let*' x := m 'in' k" := (sys_bind m (λ x, k))
  (at level 10, x name, m at level 100, k at level 200) : sys_scope.
Notation "m >> k" := (sys_bind m (λ _, k))
  (at level 100, k at level 200, right associativity) : sys_scope.

Definition failed {A} (r : outcome A) : bool :=
  match r with Done _ => false | Failed _ => true end.

Module Os.

Local Open Scope sys_scope.

(** The directories on the way to [path]: what stands before each of
    its slashes. *)
Fixpoint ancestors_from (seen rest : str) : list str :=
  match rest with
  | [] => []
  | c :: rest' =>
      (if Ascii.eqb c "/" && negb (bool_decide (seen = [])) then [seen]
       else [])
        ++ ancestors_from (seen ++ [c]) rest'
  end.

Definition ancestors (path : str) : list str := ancestors_from [] path.

(** The directory that holds [path], unless it is the working
    directory. *)
Definition parent (path : str) : option str := last (ancestors path).

(** Why [path] cannot be reached: the first of [dirs] that is not a
    directory is missing or is a file. *)
Fixpoint blocked_at (path : str) (dirs : list str) (ns : gmap str Node)
    : option oserror :=
  match dirs with
  | [] => None
  | dir :: dirs' =>
      match ns !! dir with
      | Some (DirNode _) => blocked_at path dirs' ns
      | Some (FileNode _) => Some (ENOTDIR path)
      | None => Some (ENOENT path)
      end
  end.

Definition blocked (path : str) (d : Disk) : option oserror :=
  if bool_decide (path = []) then Some (ENOENT path)
  else blocked_at path (ancestors path) (nodes d).

(** The error of opening a [path] that has no entry. *)
Definition missing (path : str) (d : Disk) : oserror :=
  default (ENOENT path) (blocked path d).

(** The nodes with the modification time of the directory [dir] set to
    the clock: an entry of [dir] has been created or removed. *)
Definition touched (dir : option str) (d : Disk) (ns : gmap str Node)
    : gmap str Node :=
  match dir with
  | Some dir =>
      match ns !! dir with
      | Some (DirNode _) => <[dir := DirNode (now d)]> ns
      | _ => ns
      end
  | None => ns
  end.

(** [os.path.exists(path)] *)
Definition path_exists (path : str) : Sys bool :=
  λ d, (Done (bool_decide (is_Some (nodes d !! path))), d).

(** [os.path.getmtime(path)] *)
Definition getmtime (path : str) : Sys Z :=
  λ d, match nodes d !! path with
       | Some n => (Done (stamp n), d)
       | None => (Failed (missing path d), d)
       end.

(** [print(line)] *)
Definition print (line : str) : Sys unit :=
  λ d, (Done tt, {| nodes := nodes d; now := now d;
                    printed := printed d ++ [line] |}).

(** [os.mkdir(path)] *)
Definition mkdir (path : str) : Sys unit :=
  λ d, if bool_decide (is_Some (nodes d !! path))
       then (Failed (EEXIST path), d)
       else match blocked path d with
            | Some e => (Failed e, d)
            | None =>
                (Done tt,
                 {| nodes := touched (parent path) d
                               (<[path := DirNode (now d)]> (nodes d));
                    now := now d; printed := printed d |})
            end.

(** [try: m except FileExistsError: pass] *)
Definition except_exists (m : Sys unit) : Sys unit :=
  λ d, match m d with
       | (Failed (EEXIST _), d') => (Done tt, d')
       | r => r
       end.

(** The head and tail [os.makedirs] works with: the path is split, and
    its head is split again if the path ends in a slash. *)
Definition makedirs_split (name : str) : str * str :=
  let '(head, tail) := PosixPath.split name in
  match tail with [] => PosixPath.split head | _ => (head, tail) end.

(** [os.makedirs(name)].  The recursion on the head of the path is
    bounded by [fuel]; the length of the path is enough. *)
Fixpoint makedirs_from (fuel : nat) (name : str) : Sys unit :=
  let '(head, tail) := makedirs_split name in
  match fuel with
  | 0 => mkdir name
  | S fuel' =>
      let* present := path_exists head in
      if negb (bool_decide (head = [])) && negb (bool_decide (tail = []))
         && negb present
      then
        except_exists (makedirs_from fuel' head) >>
        if bool_decide (tail = ("." : str)) then sys_ret tt else mkdir name
      else mkdir name
  end.

Definition makedirs (name : str) : Sys unit :=
  makedirs_from (length name) name.

(** [shutil.copyfile(src, dst)]: the source is opened, then the
    destination is created or truncated and written; it is stamped
    with the clock. *)
Definition copyfile (src dst : str) : Sys unit :=
  λ d,
    if bool_decide (src = dst) && bool_decide (is_Some (nodes d !! src))
    then (Failed (ESAMEFILE src), d)
    else
      match nodes d !! src with
      | None => (Failed (missing src d), d)
      | Some (DirNode _) => (Failed (EISDIR src), d)
      | Some (FileNode f) =>
          let written := FileNode {| mtime := now d; data := data f |} in
          match nodes d !! dst with
          | Some (DirNode _) => (Failed (EISDIR dst), d)
          | Some (FileNode _) =>
              (Done tt, {| nodes := <[dst := written]> (nodes d);
                           now := now d; printed := printed d |})
          | None =>
              match blocked dst d with
              | Some e => (Failed e, d)
              | None =>
                  (Done tt,
                   {| nodes := touched (parent dst) d
                                 (<[dst := written]> (nodes d));
                      now := now d; printed := printed d |})
              end
          end
      end.

(** Is [path] the tree [root] or inside it? *)
Definition within (root path : str) : bool :=
  bool_decide (path = root) || bool_decide ((root ++ "/") `prefix_of` path).

(** [shutil.rmtree(path)] *)
Definition rmtree (path : str) : Sys unit :=
  λ d, match nodes d !! path with
       | None => (Failed (missing path d), d)
       | Some (FileNode _) => (Failed (ENOTDIR path), d)
       | Some (DirNode _) =>
           (Done tt,
            {| nodes := touched (parent path) d
                          (filter (λ kv, within path kv.1 = false) (nodes d));
               now := now d; printed := printed d |})
       end.

End Os.

(** ** [scripts/bootloader] and [scripts/pack.py]: building the staging tree *)

Module Staging.

Local Open Scope sys_scope.

(** [Bootloader.ensure_directory(path)] *)
Definition ensure_directory (path : str) : Sys unit :=
  let* present := Os.path_exists path in
  if negb present then Os.makedirs path else sys_ret tt.

(** [Bootloader.test_or_copy(target, copy)], on the file system with
    directories. *)
Definition test_or_copy (target copy : str) : Sys unit :=
  let* present := Os.path_exists target in
  let* newer :=
    (if negb present then sys_ret true
     else let* mc := Os.getmtime copy in
          let* mt := Os.getmtime target in
          sys_ret (mt <? mc)%Z) in
  if (newer : bool) then
    Os.print ("Copying file from " ++ copy ++ " to " ++ target ++ "...") >>
    Os.copyfile copy target
  else sys_ret tt.

(** [LimineBootloader.copy_files()] *)
Definition copy_files : Sys unit :=
  let target := PosixPath.join "disk" "limine" in
  ensure_directory target >>
  test_or_copy (PosixPath.join target "limine-uefi-cd.bin")
    (PosixPath.join (PosixPath.join "deps" "limine") "limine-uefi-cd.bin") >>
  test_or_copy (PosixPath.join target "limine-bios-cd.bin")
    (PosixPath.join (PosixPath.join "deps" "limine") "limine-bios-cd.bin") >>
  test_or_copy (PosixPath.join target "limine-bios.sys")
    (PosixPath.join (PosixPath.join "deps" "limine") "limine-bios.sys") >>
  test_or_copy (PosixPath.join target "limine.cfg")
    (PosixPath.join (PosixPath.join "bootloader" "limine") "limine.cfg") >>
  let efi := PosixPath.join (PosixPath.join "disk" "EFI") "BOOT" in
  ensure_directory efi >>
  test_or_copy (PosixPath.join efi "BOOTAA64.EFI")
    (PosixPath.join (PosixPath.join "deps" "limine") "BOOTAA64.EFI") >>
  test_or_copy (PosixPath.join efi "BOOTRISCV64.EFI")
    (PosixPath.join (PosixPath.join "deps" "limine") "BOOTRISCV64.EFI") >>
  test_or_copy (PosixPath.join efi "BOOTX64.EFI")
    (PosixPath.join (PosixPath.join "deps" "limine") "BOOTX64.EFI").

(** The kernel binary that [cargo build] leaves for the task. *)
Definition kernel_binary (self : PackagingTask) : str :=
  let mode : str := if release self then "release" else "debug" in
  PosixPath.join (PosixPath.join (PosixPath.join "target" (target self)) mode)
    (project (bootloader self)).

(** [PackagingTask._copy_kernel()] *)
Definition _copy_kernel (self : PackagingTask) : Sys unit :=
  let system := PosixPath.join "disk" "system" in
  let* present := Os.path_exists system in
  (if negb present then Os.mkdir system else sys_ret tt) >>
  Os.print "Copying kernel binary..." >>
  Os.copyfile (kernel_binary self) (PosixPath.join system "kernel").

(** [PackagingTask._assemble_disk()]; [copy_files] is the method of the
    task's bootloader: the one above when the bootloader is Limine. *)
Definition _assemble_disk (self : PackagingTask) (copy_files : Sys unit)
    : Sys unit :=
  let* clean := (if force self then Os.path_exists "disk"
                 else sys_ret false) in
  (if (clean : bool) then
     Os.print "Cleaning existing disk folder..." >>
     Os.rmtree "disk"
   else sys_ret tt) >>
  let* present := Os.path_exists "disk" in
  (if negb present then Os.mkdir "disk" else sys_ret tt) >>
  _copy_kernel self >>
  copy_files.

End Staging.

(** *** The steps of a staging run

    Every staging function is a sequence of steps of four kinds; the
    properties of a run are proved step by step. *)

Inductive StageOp : Type :=
  | Mkdir (dir : str)
  | Ensure (dir : str)
  | Copy (target copy : str)
  | CopyKernel (target copy : str).

Definition stage (op : StageOp) : Sys unit :=
  match op with
  | Mkdir dir =>
      sys_bind (Os.path_exists dir)
        (λ present, if negb present then Os.mkdir dir else sys_ret tt)
  | Ensure dir => Staging.ensure_directory dir
  | Copy target copy => Staging.test_or_copy target copy
  | CopyKernel target copy =>
      sys_bind (Os.print "Copying kernel binary...")
        (λ _, Os.copyfile copy target)
  end.

Fixpoint stage_all (ops : list StageOp) : Sys unit :=
  match ops with
  | [] => sys_ret tt
  | [op] => stage op
  | op :: rest => sys_bind (stage op) (λ _, stage_all rest)
  end.

Definition limine_steps : list StageOp :=
  [ Ensure "disk/limine";
    Copy "disk/limine/limine-uefi-cd.bin" "deps/limine/limine-uefi-cd.bin";
    Copy "disk/limine/limine-bios-cd.bin" "deps/limine/limine-bios-cd.bin";
    Copy "disk/limine/limine-bios.sys" "deps/limine/limine-bios.sys";
    Copy "disk/limine/limine.cfg" "bootloader/limine/limine.cfg";
    Ensure "disk/EFI/BOOT";
    Copy "disk/EFI/BOOT/BOOTAA64.EFI" "deps/limine/BOOTAA64.EFI";
    Copy "disk/EFI/BOOT/BOOTRISCV64.EFI" "deps/limine/BOOTRISCV64.EFI";
    Copy "disk/EFI/BOOT/BOOTX64.EFI" "deps/limine/BOOTX64.EFI" ].

Definition kernel_steps (self : PackagingTask) : list StageOp :=
  [ Mkdir "disk"; Mkdir "disk/system";
    CopyKernel "disk/system/kernel" (Staging.kernel_binary self) ].

Definition assemble_steps (self : PackagingTask) : list StageOp :=
  Mkdir "disk" :: Mkdir "disk/system"
    :: CopyKernel "disk/system/kernel" (Staging.kernel_binary self)
    :: limine_steps.

(** The first part of [_assemble_disk]: the old tree is removed when
    the task is forced. *)
Definition clean_disk (self : PackagingTask) : Sys unit :=
  sys_bind (if force self then Os.path_exists "disk" else sys_ret false)
    (λ clean, if (clean : bool)
              then sys_bind (Os.print "Cleaning existing disk folder...")
                     (λ _, Os.rmtree "disk")
              else sys_ret tt).

(** The paths [os.makedirs] may create. *)
Fixpoint makedirs_chain (fuel : nat) (name : str) : list str :=
  name ::
  match fuel with
  | 0 => []
  | S fuel' =>
      let '(head, tail) := Os.makedirs_split name in
      if negb (bool_decide (head = [])) && negb (bool_decide (tail = []))
      then makedirs_chain fuel' head
      else []
  end.

(** A path with the directory that holds it. *)
Definition with_parent (path : str) : list str :=
  path :: match Os.parent path with Some dir => [dir] | None => [] end.

(** The entries a step may write. *)
Definition written (op : StageOp) : list str :=
  match op with
  | Mkdir dir => with_parent dir
  | Ensure dir => flat_map with_parent (makedirs_chain (length dir) dir)
  | Copy target _ | CopyKernel target _ => with_parent target
  end.

(** The entries a step reads or writes under their own name. *)
Definition own_paths (op : StageOp) : list str :=
  match op with
  | Mkdir dir | Ensure dir => [dir]
  | Copy target copy | CopyKernel target copy => [target; copy]
  end.

Definition source_of (op : StageOp) : option str :=
  match op with
  | Copy _ copy | CopyKernel _ copy => Some copy
  | _ => None
  end.

(** The directory or the target of a step. *)
Definition subject (op : StageOp) : str :=
  match op with
  | Mkdir dir | Ensure dir => dir
  | Copy target _ | CopyKernel target _ => target
  end.

Definition is_copy (op : StageOp) : bool :=
  match op with
  | Copy _ _ | CopyKernel _ _ => true
  | _ => false
  end.

(** [os.makedirs] stops short of a path that ends in a dot component;
    no step has one. *)
Definition plain (op : StageOp) : bool :=
  match op with
  | Ensure dir => negb (bool_decide ((Os.makedirs_split dir).2 = ("." : str)))
  | _ => true
  end.

(** The steps keep out of each other's way: no step writes the
    directory or target of a later step, and no later step writes the
    target of a copy. *)
Fixpoint apart (ops : list StageOp) : bool :=
  match ops with
  | [] => true
  | op :: rest =>
      plain op
      && (negb (is_copy op)
          || bool_decide (subject op ∉ flat_map written rest))
      && forallb (λ op', bool_decide (subject op' ∉ written op)) rest
      && apart rest
  end.

(** What a step has made when the run started without its directory
    or target. *)
Definition made (d d' : Disk) (op : StageOp) : Prop :=
  match op with
  | Mkdir dir | Ensure dir =>
      nodes d' !! dir = Some (DirNode (now d)) ∧
      ∀ a, a ∈ Os.ancestors dir → ∃ t, nodes d' !! a = Some (DirNode t)
  | Copy target copy | CopyKernel target copy =>
      ∃ f, nodes d !! copy = Some (FileNode f) ∧
           nodes d' !! target =
             Some (FileNode {| mtime := now d; data := data f |})
  end.

(** The state [d'] differs from [d] only at the entries [W]: no entry
    is removed or changes its kind, and every entry that is new or
    changed is stamped with the clock. *)
Definition changes_only (W : list str) (d d' : Disk) : Prop :=
  now d' = now d ∧
  (∀ path, path ∉ W → nodes d' !! path = nodes d !! path) ∧
  (∀ path n, nodes d !! path = Some n →
     ∃ n', nodes d' !! path = Some n' ∧ is_dir n' = is_dir n) ∧
  (∀ path n', nodes d' !! path = Some n' →
     nodes d !! path = Some n' ∨ stamp n' = now d).

Definition writes {A} (W : list str) (m : Sys A) : Prop :=
  ∀ d, changes_only W d (m d).2.

(** What holds of a step after a run, wherever the run started. *)
Definition kept (d : Disk) (op : StageOp) : Prop :=
  match op with
  | Mkdir dir | Ensure dir => is_Some (nodes d !! dir)
  | Copy target copy =>
      ∃ nt nc, nodes d !! target = Some nt ∧ nodes d !! copy = Some nc ∧
               (stamp nc ≤ stamp nt)%Z
  | CopyKernel target copy =>
      ∃ f, nodes d !! copy = Some (FileNode f) ∧
           nodes d !! target =
             Some (FileNode {| mtime := now d; data := data f |})
  end.

(** A step that has nothing left to do. *)
Definition settled (d : Disk) (op : StageOp) : Prop :=
  kept d op ∧ ∀ target copy, op ≠ CopyKernel target copy.

(** The same file system at another time. *)
Definition at_time (t : Z) (d : Disk) : Disk :=
  {| nodes := nodes d; now := t; printed := printed d |}.

(** The directories and the files of the staging tree, each file with
    the file it is copied from. *)
Definition staged_dirs : list str :=
  ["disk" : str; "disk/system" : str; "disk/limine" : str;
   "disk/EFI" : str; "disk/EFI/BOOT" : str].

Definition copy_of (op : StageOp) : option (str * str) :=
  match op with
  | Copy target copy | CopyKernel target copy => Some (target, copy)
  | _ => None
  end.

Definition limine_files : list (str * str) := omap copy_of limine_steps.

Definition staged_files (self : PackagingTask) : list (str * str) :=
  omap copy_of (assemble_steps self).

(** A path that starts at the root or with the letter [t]. *)
Definition rooted (p : str) : Prop :=
  match p with
  | c :: _ => c = "/"%char ∨ c = "t"%char
  | [] => False
  end.

(** Every entry lies in directories. *)
Definition well_formed (d : Disk) : Prop :=
  ∀ path, is_Some (nodes d !! path) →
    ∀ a, a ∈ Os.ancestors path → ∃ t, nodes d !! a = Some (DirNode t).

(** The files of the file system, as the file-only model sees them. *)
Definition files_of (d : Disk) : FsState :=
  {| files := omap (λ n, match n with
                         | FileNode f => Some f
                         | DirNode _ => None
                         end) (nodes d);
     clock := now d;
     stdout := printed d |}.

(** The two models end alike: the same files, and both return or both
    report the same missing file. *)
Definition agrees (r : outcome unit * Disk) (r' : result unit * FsState)
    : Prop :=
  r'.2 = files_of r.2 ∧
  match r.1, r'.1 with
  | Done _, Return _ => True
  | Failed (ENOENT p), Raise (FileNotFoundError q) => p = q
  | _, _ => False
  end.

(** [well_formed], as a check. *)
Definition in_directories (d : Disk) : bool :=
  forallb (λ kv : str * Node,
             forallb (λ a, match nodes d !! a with
                           | Some (DirNode _) => true
                           | _ => false
                           end) (Os.ancestors kv.1))
    (map_to_list (nodes d)).

(** No entry is dated after the clock, as a check. *)
Definition none_ahead (d : Disk) : bool :=
  forallb (λ kv : str * Node, (stamp kv.2 <=? now d)%Z) (map_to_list (nodes d)).

(** *** A project after a build *)

Definition forced_task : PackagingTask :=
  {| target := "x86_64-unknown-none"; bootloader := LimineBootloader.new;
     release := true; output := "microdragon.iso"; force := true |}.

Definition source_file (time : Z) (text : str) : Node :=
  FileNode {| mtime := time; data := text |}.

Definition built_nodes : list (str * Node) :=
  [ ("target" : str, DirNode 1);
    ("target/x86_64-unknown-none" : str, DirNode 1);
    ("target/x86_64-unknown-none/debug" : str, DirNode 5);
    ("target/x86_64-unknown-none/debug/microdragon-limine" : str,
     source_file 5 "kernel, debug");
    ("target/x86_64-unknown-none/release" : str, DirNode 6);
    ("target/x86_64-unknown-none/release/microdragon-limine" : str,
     source_file 6 "kernel, release");
    ("deps" : str, DirNode 1);
    ("deps/limine" : str, DirNode 2);
    ("deps/limine/limine-uefi-cd.bin" : str, source_file 2 "uefi cd");
    ("deps/limine/limine-bios-cd.bin" : str, source_file 2 "bios cd");
    ("deps/limine/limine-bios.sys" : str, source_file 2 "bios sys");
    ("deps/limine/BOOTAA64.EFI" : str, source_file 2 "aa64");
    ("deps/limine/BOOTRISCV64.EFI" : str, source_file 2 "riscv64");
    ("deps/limine/BOOTX64.EFI" : str, source_file 2 "x64");
    ("bootloader" : str, DirNode 1);
    ("bootloader/limine" : str, DirNode 4);
    ("bootloader/limine/limine.cfg" : str, source_file 4 "timeout: 3") ].

(** The project built, nothing staged. *)
Definition built : Disk :=
  {| nodes := list_to_map built_nodes; now := 10; printed := [] |}.

(** The project built, with a staging tree left by an earlier run: a
    file that no run writes, and a configuration that is newer than its
    source and differs from it. *)
Definition restaged : Disk :=
  {| nodes :=
       list_to_map
         (built_nodes ++
          [ ("disk" : str, DirNode 8);
            ("disk/old.bin" : str, source_file 3 "left over");
            ("disk/limine" : str, DirNode 8);
            ("disk/limine/limine.cfg" : str, source_file 8 "timeout: 0") ]);
     now := 10; printed := [] |}.

(** ** [extract_arguments]: from the parsed command line to the task *)

(** The [argparse.Namespace] of a parsed command line. *)
Module Namespace.

Record t : Type := {
  action : str;
  target : str;
  bootloader : str;
  release : bool;
  output : Attr;
  force : bool;
}.

End Namespace.

(** What [extract_arguments] can fail with: the assertion of
    [to_rust_arch], or an exception of a registry. *)
Inductive failure : Type :=
  | AssertionError (msg : str)
  | Exception (e : exn).

(** [obj.__dict__.get(name)] *)
Fixpoint get_attr (name : str) (attrs : list (str * Attr)) : option Attr :=
  match attrs with
  | [] => None
  | (key, v) :: attrs' =>
      if bool_decide (key = name) then Some v else get_attr name attrs'
  end.

(** [obj.__dict__[name] = v]: an attribute that is there is replaced in
    its place, a new one comes last. *)
Fixpoint set_attr (name : str) (v : Attr) (attrs : list (str * Attr))
    : list (str * Attr) :=
  match attrs with
  | [] => [(name, v)]
  | (key, old) :: attrs' =>
      if bool_decide (key = name) then (key, v) :: attrs'
      else (key, old) :: set_attr name v attrs'
  end.

(** [self.name = v] for the live object at [self]. *)
Definition setattr (self : nat) (name : str) (v : Attr) (w : Registries)
    : Registries :=
  {| tasks := tasks w; bootloaders := bootloaders w;
     heap := alter (λ i, {| inst_type := inst_type i;
                            inst_attrs := set_attr name v (inst_attrs i) |})
               self (heap w) |}.

(** [BuildTask.extract_arguments(self, args)]; [None] is a normal
    return. *)
Definition BuildTask_extract_arguments (self : nat) (args : Namespace.t)
    (w : Registries) : option failure * Registries :=
  match to_rust_arch (Namespace.target args) with
  | None =>
      (Some (AssertionError ("Architecture mapping not defined for "
                               ++ Namespace.target args)), w)
  | Some triple =>
      let w := setattr self "target" (AStr triple) w in
      match BootloaderRegistry.get_bootloader (Namespace.bootloader args) w with
      | (Raise e, w) => (Some (Exception e), w)
      | (Return loader, w) =>
          let w := setattr self "bootloader" (ARef loader) w in
          (None, setattr self "release" (ABool (Namespace.release args)) w)
      end
  end.

(** [PackagingTask.extract_arguments(self, args)] *)
Definition PackagingTask_extract_arguments (self : nat) (args : Namespace.t)
    (w : Registries) : option failure * Registries :=
  match BuildTask_extract_arguments self args w with
  | (Some e, w) => (Some e, w)
  | (None, w) =>
      let w := setattr self "output" (Namespace.output args) w in
      (None, setattr self "force" (ABool (Namespace.force args)) w)
  end.

(** The attribute [name] of the live object at [self]. *)
Definition attr_of (self : nat) (name : str) (w : Registries) : option Attr :=
  i ← heap w !! self; get_attr name (inst_attrs i).

(** The choices [configure_argparse] allows for [--bootloader]. *)
Definition bootloader_choices : list str := ["Limine" : str; "Rust" : str].

(** A packaging task as [create_task] leaves it, with Limine
    registered, and the command line [pack -t riscv -b Rust -f]. *)
Definition pack_registries : Registries :=
  {| tasks := {[ ("pack" : str) := Cls.PackagingTask ]};
     bootloaders := {[ ("Limine" : str) := 0 ]};
     heap := {[ 0 := {| inst_type := Cls.LimineBootloader;
                        inst_attrs := [("project" : str,
                                        AStr "microdragon-limine")] |};
                1 := {| inst_type := cls_type Cls.PackagingTask;
                        inst_attrs :=
                          [("target" : str, AStr "x86_64-unknown-none");
                           ("bootloader" : str, ARef 0);
                           ("release" : str, ABool false);
                           ("output" : str, ANone);
                           ("force" : str, ABool false)] |} ]} |}.

Definition pack_rust : Namespace.t :=
  {| Namespace.action := "pack"; Namespace.target := "riscv";
     Namespace.bootloader := "Rust"; Namespace.release := false;
     Namespace.output := AStr "microdragon.iso"; Namespace.force := true |}.

(** * Properties *)

(** ** Strings *)

Section StringFacts.

Lemma upper_app (a b : str) : Py.upper (a ++ b) = Py.upper a ++ Py.upper b.
Proof. apply fmap_app. Qed.

Lemma length_upper (s : str) : length (Py.upper s) = length s.
Proof. apply length_fmap. Qed.

Lemma length_sanitize (s : str) : length (sanitize s) = length s.
Proof. apply length_fmap. Qed.

(** The valid set is A-Z, 0-9 and the underscore. *)
Lemma valid_iso_char_spec (c : ascii) :
  valid_iso_char c = true ↔
  let n := nat_of_ascii c in
  65 ≤ n ≤ 90 ∨ 48 ≤ n ≤ 57 ∨ n = 95.
Proof.
  destruct c as [[] [] [] [] [] [] [] []]; vm_compute; split;
    (reflexivity || lia || discriminate || (intros; exfalso; lia)).
Qed.

Lemma rfind_bounds (c : ascii) (s : str) :
  (-1 ≤ Py.rfind c s < Z.of_nat (length s))%Z.
Proof.
  induction s as [|a s IH]; simpl; [lia|].
  destruct (Z.leb_spec 0 (Py.rfind c s)); [lia|].
  destruct (Ascii.eqb a c); lia.
Qed.

Lemma rfind_lookup (c : ascii) (s : str) :
  (0 ≤ Py.rfind c s)%Z → s !! Z.to_nat (Py.rfind c s) = Some c.
Proof.
  induction s as [|a s IH]; simpl; [lia|].
  destruct (Z.leb_spec 0 (Py.rfind c s)) as [Hr|Hr].
  - intros _. rewrite Z2Nat.inj_add by lia.
    replace (Z.to_nat 1) with 1 by reflexivity.
    rewrite Nat.add_1_r. simpl. auto.
  - destruct (Ascii.eqb_spec a c) as [->|]; [reflexivity | lia].
Qed.

Lemma splitext_app (p base ext : str) :
  OsPath.splitext p = (base, ext) → base ++ ext = p.
Proof.
  unfold OsPath.splitext.
  destruct (_ <? _)%Z; [destruct (OsPath.skip_leading_dots _ _ _ _)|];
    intros [= <- <-]; auto using take_drop, app_nil_r.
Qed.

(** An extension is empty or starts with the dot. *)
Lemma splitext_ext (p base ext : str) :
  OsPath.splitext p = (base, ext) →
  ext = [] ∨ ∃ ext', ext = "."%char :: ext'.
Proof.
  unfold OsPath.splitext.
  destruct (Z.ltb_spec (Py.rfind "/" p) (Py.rfind "." p)) as [Hlt|];
    [destruct (OsPath.skip_leading_dots _ _ _ _)|];
    intros [= <- <-]; auto.
  right. pose proof (rfind_bounds "/" p).
  pose proof (rfind_lookup "." p ltac:(lia)) as Hl.
  exists (drop (S (Z.to_nat (Py.rfind "." p))) p).
  by apply drop_S.
Qed.

(** *** Decimal formatting *)

Lemma uint_digits (d : Decimal.uint) :
  Forall Py.is_digit (list_ascii_of_string (NilEmpty.string_of_uint d)).
Proof.
  induction d as [|d IH|d IH|d IH|d IH|d IH|d IH|d IH|d IH|d IH|d IH];
    simpl; [apply Forall_nil | apply Forall_cons; split; [|exact IH] ..];
    unfold Py.is_digit; vm_compute; lia.
Qed.

Lemma decimal_digits (n : nat) : Forall Py.is_digit (Py.decimal n).
Proof. apply uint_digits. Qed.

Lemma format_02d_digits (n : nat) : Forall Py.is_digit (Py.format_02d n).
Proof.
  unfold Py.format_02d. apply Forall_app. split; [|apply decimal_digits].
  apply Forall_replicate. unfold Py.is_digit. vm_compute. lia.
Qed.





Lemma format_02d_min_length (n : nat) : 2 ≤ length (Py.format_02d n).
Proof.
  unfold Py.format_02d. rewrite length_app, length_replicate. lia.
Qed.

(** Below one hundred the number takes exactly two characters. *)
Lemma format_02d_length (n : nat) :
  n < 100 → length (Py.format_02d n) = 2.
Proof.
  intros Hn. do 100 (destruct n as [|n]; [reflexivity|]). lia.
Qed.


End StringFacts.

(** ** File-name compliance *)

Section Compliance.

Implicit Types (file name ext : str) (m : gmap str nat).

Lemma make_iso_compliant_eq file m :
  make_iso_compliant file m =
  ((number_name (sanitize (base_of file)) (base_of file) m).1
     ++ checked_ext (ext_of file),
   (number_name (sanitize (base_of file)) (base_of file) m).2).
Proof.
  unfold make_iso_compliant, base_of, ext_of.
  destruct (OsPath.splitext file) as [base ext]. simpl.
  by destruct (number_name _ _ m).
Qed.

Lemma number_name_pass name file m :
  needs_numbering name file = false → number_name name file m = (name, m).
Proof. unfold number_name. by intros ->. Qed.

Lemma number_name_cut name file m :
  needs_numbering name file = true →
  number_name name file m =
  (take 6 name ++ Py.format_02d (next_number m (take 6 name)),
   <[take 6 name := next_number m (take 6 name) + 1]> m).
Proof.
  unfold number_name, next_number. intros ->.
  by destruct (m !! take 6 name).
Qed.

(** What the code returns for a name that is numbered. *)
Lemma numbered_name file m :
  non_compliant file = true →
  make_iso_compliant file m
    = (prefix_of file ++ Py.format_02d (next_number m (prefix_of file))
         ++ checked_ext (ext_of file),
       <[prefix_of file := next_number m (prefix_of file) + 1]> m).
Proof.
  intros Hn. rewrite make_iso_compliant_eq, number_name_cut by done.
  simpl. by rewrite <- (assoc_L (++)).
Qed.

(** What the code returns for a name that is not. *)
Lemma unnumbered_name file m :
  non_compliant file = false →
  make_iso_compliant file m
    = (sanitize (base_of file) ++ checked_ext (ext_of file), m).
Proof.
  intros Hn. by rewrite make_iso_compliant_eq, number_name_pass.
Qed.

Lemma needs_numbering_true name file :
  needs_numbering name file = true ↔ 8 < length name ∨ name ≠ file.
Proof.
  unfold needs_numbering.
  rewrite orb_true_iff, Nat.ltb_lt, negb_true_iff, bool_decide_eq_false.
  done.
Qed.

Lemma upper_base_ext file : base_of file ++ ext_of file = Py.upper file.
Proof.
  unfold base_of, ext_of. rewrite <- upper_app. f_equal.
  apply splitext_app. by destruct (OsPath.splitext file).
Qed.

Lemma sanitize_valid (s : str) :
  Forall (λ c, valid_iso_char c = true) s → sanitize s = s.
Proof.
  induction 1 as [|c s Hc _ IH]; [done|].
  unfold sanitize in *. rewrite fmap_cons, IH. by rewrite Hc.
Qed.

Lemma sanitize_all_valid (s : str) :
  Forall (λ c, valid_iso_char c = true) (sanitize s).
Proof.
  unfold sanitize. apply Forall_fmap, Forall_forall. intros c _. simpl.
  by destruct (valid_iso_char c) eqn:Hc.
Qed.

Lemma digit_valid (c : ascii) : Py.is_digit c → valid_iso_char c = true.
Proof. unfold Py.is_digit. rewrite valid_iso_char_spec. simpl. lia. Qed.

Lemma bad_extension_true ext :
  bad_extension ext = true ↔
  4 < length ext ∨ ∃ c, c ∈ drop 1 ext ∧ valid_iso_char c = false.
Proof.
  unfold bad_extension.
  rewrite orb_true_iff, Nat.ltb_lt, existsb_exists.
  setoid_rewrite negb_true_iff. setoid_rewrite <- list_elem_of_In. done.
Qed.

Lemma bad_extension_false ext :
  length ext ≤ 4 → Forall (λ c, valid_iso_char c = true) (drop 1 ext) →
  bad_extension ext = false.
Proof.
  intros Hlen Hall. apply not_true_is_false.
  rewrite bad_extension_true. intros [?|(c & Hc & Hv)]; [lia|].
  rewrite Forall_forall in Hall. specialize (Hall c Hc). congruence.
Qed.

(** The name part never contains a dot. *)
Lemma number_name_valid (base : str) m :
  Forall (λ c, valid_iso_char c = true) (number_name (sanitize base) base m).1.
Proof.
  destruct (needs_numbering (sanitize base) base) eqn:Hn.
  - rewrite number_name_cut by done. simpl. apply Forall_app. split.
    + apply Forall_take, sanitize_all_valid.
    + eapply Forall_impl; [apply format_02d_digits|]. apply digit_valid.
  - rewrite number_name_pass by done. apply sanitize_all_valid.
Qed.

(** The extension part is empty or starts with the dot. *)
Lemma checked_ext_dot file :
  checked_ext (ext_of file) = [] ∨
  ∃ e, checked_ext (ext_of file) = "."%char :: e.
Proof.
  unfold checked_ext. destruct (bad_extension _); [right; by eexists|].
  unfold ext_of. destruct (OsPath.splitext file) as [b e] eqn:Hs. simpl.
  destruct (splitext_ext _ _ _ Hs) as [->|[e' ->]]; [by left|right].
  by eexists.
Qed.

End Compliance.

Section ComplianceClaims.

Implicit Types (file : str) (m : gmap str nat).

Lemma forallb_valid (s : str) :
  forallb valid_iso_char s = true → Forall (λ c, valid_iso_char c = true) s.
Proof.
  rewrite forallb_forall, Forall_forall.
  intros H c Hc. by apply H, list_elem_of_In.
Qed.

(** C1, as the code computes it: on the dictionary as loaded,
    ["longfilename.bin"] becomes ["LONGFI01.BIN"].  The upper-cased
    base ["LONGFILENAME"] has 12 characters, more than 8, so it is cut
    to its first six characters ["LONGFI"], which receive the number
    01, and the counter of that prefix is left at 2. *)
Theorem longfilename_is_LONGFI01 :
  make_iso_compliant "longfilename.bin" ISO_NUMBERING
    = ("LONGFI01.BIN" : str, {[ ("LONGFI" : str) := 2 ]})
  ∧ sanitize (base_of "longfilename.bin") = "LONGFILENAME"
  ∧ length (sanitize (base_of "longfilename.bin")) = 12
  ∧ non_compliant "longfilename.bin" = true
  ∧ prefix_of "longfilename.bin" = "LONGFI"
  ∧ next_number ISO_NUMBERING (prefix_of "longfilename.bin") = 1.
Proof.
  assert (Hn : non_compliant "longfilename.bin" = true) by reflexivity.
  split; [|repeat split; vm_compute; reflexivity].
  rewrite (numbered_name _ _ Hn).
  change (prefix_of "longfilename.bin") with ("LONGFI" : str).
  unfold next_number, ISO_NUMBERING. rewrite lookup_empty, insert_empty.
  f_equal.
Qed.

(** C1 as stated fails: the name returned for ["longfilename.bin"] is
    not ["LONGFIL01.BIN"], and the sanitized base is not 13 characters
    long. *)
Lemma longfilename_is_not_LONGFIL01 :
  (make_iso_compliant "longfilename.bin" ISO_NUMBERING).1
    ≠ ("LONGFIL01.BIN" : str)
  ∧ length (sanitize (base_of "longfilename.bin")) ≠ 13.
Proof.
  destruct longfilename_is_LONGFI01 as (-> & _ & -> & _).
  split; [simpl; discriminate | lia].
Qed.

(** C10: a file name whose upper-cased base has at most 8 characters,
    all of them valid, and whose upper-cased extension has at most 4
    characters (the dot included), all valid after the dot, is
    returned upper-cased and otherwise unchanged, and the dictionary
    is left as it was. *)
Theorem compliant_name_is_uppercased file m :
  length (base_of file) ≤ 8 →
  forallb valid_iso_char (base_of file) = true →
  length (ext_of file) ≤ 4 →
  forallb valid_iso_char (drop 1 (ext_of file)) = true →
  make_iso_compliant file m = (Py.upper file, m).
Proof.
  intros Hlen Hbase Hext Hchars.
  apply forallb_valid in Hbase, Hchars.
  rewrite make_iso_compliant_eq, number_name_pass.
  - unfold checked_ext. rewrite bad_extension_false by done. simpl.
    by rewrite sanitize_valid, upper_base_ext.
  - apply not_true_is_false. rewrite needs_numbering_true.
    rewrite sanitize_valid by done. intros [?|?]; [lia|done].
Qed.

Lemma compliant_name_is_uppercased_witness :
  (length (base_of "kernel.elf") ≤ 8
   ∧ forallb valid_iso_char (base_of "kernel.elf") = true
   ∧ length (ext_of "kernel.elf") ≤ 4
   ∧ forallb valid_iso_char (drop 1 (ext_of "kernel.elf")) = true)
  ∧ make_iso_compliant "kernel.elf" ISO_NUMBERING
      = ("KERNEL.ELF" : str, ISO_NUMBERING).
Proof.
  split.
  - vm_compute. repeat split; lia.
  - apply (compliant_name_is_uppercased "kernel.elf" ISO_NUMBERING);
      vm_compute; (reflexivity || lia).
Defined.

(** C2, as the code decides it: the base is compared with its
    upper-cased form, not with the literal base.  Whenever sanitizing
    replaces a character of the upper-cased base, whatever its
    length, the returned name is the first six characters of the
    sanitized base, then the number of that prefix padded with zeros
    to two digits (exactly two below 100), then the extension part;
    and the counter of the prefix moves to the next number. *)
Theorem replaced_base_is_numbered file m :
  sanitize (base_of file) ≠ base_of file →
  make_iso_compliant file m
    = (prefix_of file ++ Py.format_02d (next_number m (prefix_of file))
         ++ checked_ext (ext_of file),
       <[prefix_of file := next_number m (prefix_of file) + 1]> m)
  ∧ prefix_of file = take 6 (sanitize (base_of file))
  ∧ (next_number m (prefix_of file) < 100 →
     length (Py.format_02d (next_number m (prefix_of file))) = 2).
Proof.
  intros Hne. split; [|split; [done | apply format_02d_length]].
  apply numbered_name, needs_numbering_true. by right.
Qed.

Lemma replaced_base_is_numbered_witness :
  sanitize (base_of "a-b.sys") ≠ base_of "a-b.sys"
  ∧ length (sanitize (base_of "a-b.sys")) = 3
  ∧ make_iso_compliant "a-b.sys" ISO_NUMBERING
      = ("A_B01.SYS" : str, {[ ("A_B" : str) := 2 ]}).
Proof.
  assert (H : sanitize (base_of "a-b.sys") ≠ base_of "a-b.sys")
    by (vm_compute; discriminate).
  split; [exact H|]. split; [reflexivity|].
  destruct (replaced_base_is_numbered "a-b.sys" ISO_NUMBERING H) as [-> _].
  change (prefix_of "a-b.sys") with ("A_B" : str).
  unfold next_number, ISO_NUMBERING. rewrite lookup_empty, insert_empty.
  f_equal.
Defined.

(** C2 as stated fails: the base of ["kernel.elf"] is changed by
    upper-casing, yet the name comes back unnumbered and the
    dictionary is untouched. *)
Lemma lowercase_base_is_not_numbered :
  (OsPath.splitext "kernel.elf").1 ≠ sanitize (base_of "kernel.elf")
  ∧ non_compliant "kernel.elf" = false
  ∧ make_iso_compliant "kernel.elf" ISO_NUMBERING
      = ("KERNEL.ELF" : str, ISO_NUMBERING)
  ∧ ∀ number,
      (make_iso_compliant "kernel.elf" ISO_NUMBERING).1
        ≠ prefix_of "kernel.elf" ++ Py.format_02d number
            ++ checked_ext (ext_of "kernel.elf").
Proof.
  split; [vm_compute; discriminate|].
  assert (Hn : non_compliant "kernel.elf" = false) by reflexivity.
  split; [exact Hn|]. rewrite (unnumbered_name _ _ Hn).
  split; [reflexivity|].
  intros number Heq.
  pose proof (format_02d_digits number) as Hd.
  pose proof (format_02d_min_length number) as Hl.
  change (("KERNEL" : str) ++ ".ELF"
          = ("KERNEL" : str) ++ Py.format_02d number ++ ".ELF") in Heq.
  apply (inj (app _)) in Heq.
  destruct (Py.format_02d number) as [|c d]; [simpl in Hl; lia|].
  apply Forall_cons in Hd as [Hc _].
  injection Heq as <- _. vm_compute in Hc. lia.
Qed.

(** C7, as the code has it: when the upper-cased extension is longer
    than 4 characters (the dot included) or has an invalid character
    after the dot, the returned name is the name part followed by a
    bare dot, and the name part itself holds no dot.  A file name
    without any extension is returned as the name part alone, with
    no dot added. *)
Theorem bad_extension_is_bare_dot file m :
  let named := number_name (sanitize (base_of file)) (base_of file) m in
  forallb valid_iso_char named.1 = true
  ∧ ((4 < length (ext_of file)
      ∨ ∃ c, c ∈ drop 1 (ext_of file) ∧ valid_iso_char c = false) →
     make_iso_compliant file m = (named.1 ++ ".", named.2))
  ∧ (ext_of file = [] → make_iso_compliant file m = named).
Proof.
  intros named. split; [|split].
  - apply forallb_forall. intros c Hc. apply list_elem_of_In in Hc.
    pose proof (number_name_valid (base_of file) m) as Hv.
    rewrite Forall_forall in Hv. exact (Hv c Hc).
  - intros Hbad%bad_extension_true. rewrite make_iso_compliant_eq.
    unfold checked_ext. by rewrite Hbad.
  - intros Hnil. rewrite make_iso_compliant_eq, Hnil.
    unfold checked_ext. simpl. rewrite app_nil_r.
    subst named. by destruct (number_name _ _ m).
Qed.

Lemma bad_extension_is_bare_dot_witness :
  4 < length (ext_of "app.config")
  ∧ make_iso_compliant "app.config" ISO_NUMBERING
      = ("APP." : str, ISO_NUMBERING).
Proof.
  assert (H : 4 < length (ext_of "app.config")) by (vm_compute; lia).
  split; [exact H|].
  destruct (bad_extension_is_bare_dot "app.config" ISO_NUMBERING)
    as (_ & Hbad & _).
  rewrite Hbad by (left; exact H). reflexivity.
Defined.

(** C7 as stated fails for a file without extension: the name
    returned for ["kernel"] has an empty extension and no trailing
    dot. *)
Lemma no_extension_no_trailing_dot :
  ext_of "kernel" = []
  ∧ (make_iso_compliant "kernel" ISO_NUMBERING).1 = ("KERNEL" : str)
  ∧ last (make_iso_compliant "kernel" ISO_NUMBERING).1 ≠ Some "."%char.
Proof.
  assert (Hn : non_compliant "kernel" = false) by reflexivity.
  rewrite (unnumbered_name _ _ Hn).
  split; [reflexivity|]. split; [reflexivity|]. simpl. discriminate.
Qed.

End ComplianceClaims.

(** ** Numbering within a run *)

Section Numbering.

Implicit Types (file prefix : str) (files : list str) (m : gmap str nat).

Lemma compliant_names_cons file files m :
  compliant_names (file :: files) m =
  ((make_iso_compliant file m).1
     :: (compliant_names files (make_iso_compliant file m).2).1,
   (compliant_names files (make_iso_compliant file m).2).2).
Proof.
  simpl. destruct (make_iso_compliant file m) as [n m1]. simpl.
  by destruct (compliant_names files m1).
Qed.

(** One call moves the counter of the prefix it numbers, and no
    other. *)
Lemma next_number_step file m prefix :
  next_number (make_iso_compliant file m).2 prefix
  = next_number m prefix + (if numbered_as prefix file then 1 else 0).
Proof.
  unfold numbered_as. destruct (non_compliant file) eqn:Hn; simpl.
  - rewrite numbered_name by done. simpl. unfold next_number at 1.
    case_bool_decide as Hp.
    + subst prefix. by rewrite lookup_insert_eq.
    + rewrite lookup_insert_ne by done. unfold next_number. lia.
  - rewrite unnumbered_name by done. simpl. lia.
Qed.



(** After a sequence of files the counter of a prefix has advanced by
    the number of files numbered under it. *)
Lemma next_number_after files m prefix :
  next_number (compliant_names files m).2 prefix
  = next_number m prefix + uses prefix files.
Proof.
  revert m. induction files as [|file files IH]; intros m.
  - simpl. lia.
  - rewrite compliant_names_cons. simpl.
    rewrite IH, next_number_step. lia.
Qed.









End Numbering.

(** ** Copying into the staging tree *)

Section Copying.

Implicit Types (target copy : str) (s : FsState).

Lemma test_or_copy_absent target copy s src :
  files s !! copy = Some src → files s !! target = None →
  test_or_copy target copy s = (Return tt, copied target copy src s).
Proof.
  intros Hs Ht. unfold test_or_copy, bind, path_exists.
  rewrite Ht. rewrite bool_decide_eq_false_2 by (by intros [? ?]).
  simpl. unfold copyfile. simpl. by rewrite Hs.
Qed.

Lemma test_or_copy_present target copy s src tgt :
  files s !! copy = Some src → files s !! target = Some tgt →
  test_or_copy target copy s
  = if (mtime tgt <? mtime src)%Z
    then (Return tt, copied target copy src s)
    else (Return tt, s).
Proof.
  intros Hs Ht. unfold test_or_copy, bind, path_exists.
  rewrite Ht. rewrite bool_decide_eq_true_2 by eauto.
  simpl. unfold getmtime. rewrite Hs, Ht. simpl.
  destruct (mtime tgt <? mtime src)%Z; [|done].
  simpl. unfold copyfile. simpl. by rewrite Hs.
Qed.




End Copying.

(** ** The registries *)

Section RegistryFacts.

Implicit Types (name : str) (w : Registries).

Lemma task_register_raised name task w :
  raised (TaskRegistry.register name task w).1
  = bool_decide (is_Some (tasks w !! name)) || negb (derives_from_task task).
Proof.
  unfold TaskRegistry.register.
  destruct (bool_decide (is_Some (tasks w !! name))); [done|].
  destruct task as [c| |]; simpl; try done.
  by destruct (bool_decide _).
Qed.

Lemma task_register_atomic name task w :
  raised (TaskRegistry.register name task w).1 = true →
  (TaskRegistry.register name task w).2 = w.
Proof.
  unfold TaskRegistry.register.
  destruct (bool_decide (is_Some (tasks w !! name))); [done|].
  destruct task as [c| |]; simpl; try done.
  by destruct (bool_decide _).
Qed.

Lemma bootloader_register_raised name loader w :
  raised (BootloaderRegistry.register name loader w).1
  = bool_decide (is_Some (bootloaders w !! name))
    || negb (instance_of_bootloader loader w).
Proof.
  unfold BootloaderRegistry.register, BootloaderRegistry.is_bootloader.
  destruct (bool_decide (is_Some (bootloaders w !! name))); [done|].
  destruct loader as [c|addr|]; simpl; try done.
  destruct (heap w !! addr) as [i|]; simpl; [|done].
  by destruct (bool_decide _).
Qed.

Lemma bootloader_register_atomic name loader w :
  raised (BootloaderRegistry.register name loader w).1 = true →
  (BootloaderRegistry.register name loader w).2 = w.
Proof.
  unfold BootloaderRegistry.register, BootloaderRegistry.is_bootloader.
  destruct (bool_decide (is_Some (bootloaders w !! name))); [done|].
  destruct loader as [c|addr|]; simpl; try done.
  destruct (heap w !! addr) as [i|]; simpl; [|done].
  by destruct (bool_decide _).
Qed.

(** A failed instantiation leaves everything as it was; a successful
    one puts one new object of the class at an unused address. *)
Lemma instantiate_spec cls w :
  match instantiate cls w with
  | (Raise _, w') => w' = w
  | (Return addr, w') =>
      heap w !! addr = None
      ∧ tasks w' = tasks w ∧ bootloaders w' = bootloaders w
      ∧ ∃ attrs, cls_init cls (bootloaders w) = Return attrs
                 ∧ heap w' = <[addr := {| inst_type := cls_type cls;
                                          inst_attrs := attrs |}]> (heap w)
  end.
Proof.
  unfold instantiate. destruct (cls_abstract cls); [done|].
  destruct (cls_init cls (bootloaders w)) as [attrs|e]; [|done].
  split; [|by eauto].
  apply not_elem_of_dom, is_fresh.
Qed.

(** C8: in both registries [register] raises exactly when the name is
    taken or the value lacks the required capability, and then
    leaves the registries as they were; otherwise it adds the entry.
    [create_task] and [get_bootloader] raise on an absent name;
    [get_bootloader] never changes anything and [create_task] changes
    nothing when it raises.  A successful [create_task] of a
    registered name returns the address of a new object of the
    registered class: the address was unused, the object is built by
    the class's [__init__], and both dictionaries are unchanged. *)
Theorem registry_contract :
  (∀ name task w,
     raised (TaskRegistry.register name task w).1
     = bool_decide (is_Some (tasks w !! name)) || negb (derives_from_task task))
  ∧ (∀ name task w,
       raised (TaskRegistry.register name task w).1 = true →
       (TaskRegistry.register name task w).2 = w)
  ∧ (∀ name c w,
       tasks w !! name = None → derives_from_task (PyClassObj c) = true →
       TaskRegistry.register name (PyClassObj c) w
       = (Return tt, with_task name c w))
  ∧ (∀ name loader w,
       raised (BootloaderRegistry.register name loader w).1
       = bool_decide (is_Some (bootloaders w !! name))
         || negb (instance_of_bootloader loader w))
  ∧ (∀ name loader w,
       raised (BootloaderRegistry.register name loader w).1 = true →
       (BootloaderRegistry.register name loader w).2 = w)
  ∧ (∀ name addr w,
       bootloaders w !! name = None →
       instance_of_bootloader (PyRef addr) w = true →
       BootloaderRegistry.register name (PyRef addr) w
       = (Return tt, with_bootloader name addr w))
  ∧ (∀ name w,
       tasks w !! name = None →
       raised (TaskRegistry.create_task name w).1 = true)
  ∧ (∀ name w,
       raised (TaskRegistry.create_task name w).1 = true →
       (TaskRegistry.create_task name w).2 = w)
  ∧ (∀ name w,
       bootloaders w !! name = None →
       raised (BootloaderRegistry.get_bootloader name w).1 = true)
  ∧ (∀ name w, (BootloaderRegistry.get_bootloader name w).2 = w)
  ∧ (∀ name cls w addr w',
       tasks w !! name = Some cls →
       TaskRegistry.create_task name w = (Return addr, w') →
       heap w !! addr = None
       ∧ tasks w' = tasks w ∧ bootloaders w' = bootloaders w
       ∧ ∃ attrs, cls_init cls (bootloaders w) = Return attrs
                  ∧ heap w' = <[addr := {| inst_type := cls_type cls;
                                           inst_attrs := attrs |}]> (heap w)).
Proof.
  split; [exact task_register_raised|].
  split; [exact task_register_atomic|].
  split.
  { intros name c w Hfree Hcap. unfold TaskRegistry.register.
    rewrite Hfree. unfold derives_from_task in Hcap.
    rewrite bool_decide_eq_false_2 by (by intros [? ?]).
    by rewrite Hcap. }
  split; [exact bootloader_register_raised|].
  split; [exact bootloader_register_atomic|].
  split.
  { intros name addr w Hfree Hcap.
    unfold BootloaderRegistry.register, BootloaderRegistry.is_bootloader.
    rewrite Hfree. unfold instance_of_bootloader in Hcap.
    rewrite bool_decide_eq_false_2 by (by intros [? ?]).
    destruct (heap w !! addr) as [i|]; [|done]. by rewrite Hcap. }
  split.
  { intros name w Hfree. unfold TaskRegistry.create_task. by rewrite Hfree. }
  split.
  { intros name w. unfold TaskRegistry.create_task.
    destruct (tasks w !! name) as [cls|]; [|done].
    pose proof (instantiate_spec cls w) as Hi.
    by destruct (instantiate cls w) as [[addr|e] w']. }
  split.
  { intros name w Hfree. unfold BootloaderRegistry.get_bootloader.
    by rewrite Hfree. }
  split.
  { intros name w. unfold BootloaderRegistry.get_bootloader.
    by destruct (bootloaders w !! name). }
  intros name cls w addr w' Hcls Hcreate.
  unfold TaskRegistry.create_task in Hcreate. rewrite Hcls in Hcreate.
  pose proof (instantiate_spec cls w) as Hi. by rewrite Hcreate in Hi.
Qed.

Lemma registry_contract_witness :
  let w : Registries :=
    {| tasks := {[ ("pack" : str) := Cls.PackagingTask ]};
       bootloaders := {[ ("Limine" : str) := 0 ]};
       heap := {[ 0 := {| inst_type := Cls.LimineBootloader;
                          inst_attrs := [] |} ]} |} in
  (tasks w !! ("pack" : str) = Some Cls.PackagingTask
   ∧ tasks w !! ("build" : str) = None
   ∧ derives_from_task (PyClassObj Cls.BuildTask) = true)
  ∧ TaskRegistry.register "build" (PyClassObj Cls.BuildTask) w
    = (Return tt, with_task "build" Cls.BuildTask w)
  ∧ (TaskRegistry.register "pack" (PyClassObj Cls.BuildTask) w).2 = w
  ∧ ∃ addr w',
      TaskRegistry.create_task "pack" w = (Return addr, w')
      ∧ heap w !! addr = None
      ∧ inst_type <$> heap w' !! addr = Some (cls_type Cls.PackagingTask)
      ∧ tasks w' = tasks w.
Proof.
  intros w.
  assert (Hpack : tasks w !! ("pack" : str) = Some Cls.PackagingTask)
    by apply lookup_singleton_eq.
  assert (Hbuild : tasks w !! ("build" : str) = None)
    by (apply lookup_singleton_ne; discriminate).
  assert (Hcap : derives_from_task (PyClassObj Cls.BuildTask) = true)
    by reflexivity.
  destruct registry_contract
    as (Hraised & Hatomic & Hreg & _ & _ & _ & _ & _ & _ & _ & Hcreate).
  split; [done|]. split; [by apply Hreg|]. split.
  { apply Hatomic. rewrite Hraised.
    rewrite bool_decide_eq_true_2 by (rewrite Hpack; eauto). done. }
  destruct (TaskRegistry.create_task "pack" w) as [[addr|e] w'] eqn:Hc.
  - exists addr, w'. split; [done|].
    destruct (Hcreate _ _ _ _ _ Hpack Hc)
      as (Hfresh & Htasks & _ & attrs & _ & Hheap).
    split; [done|]. split; [|done].
    by rewrite Hheap, lookup_insert_eq.
  - exfalso. unfold TaskRegistry.create_task in Hc. rewrite Hpack in Hc.
    unfold instantiate in Hc. simpl in Hc.
    unfold Cls.PackagingTask_init, Cls.BuildTask_init in Hc.
    change (bootloaders w) with ({[ ("Limine" : str) := 0 ]} : gmap str nat)
      in Hc.
    rewrite lookup_singleton_eq in Hc. discriminate Hc.
Defined.

End RegistryFacts.

(** ** Boot catalog entries *)

Section Boot.

Implicit Types (lib : PyCdlib) (img : list IsoCall).

(** What Limine's [make_bootable] does, case by case. *)
Lemma limine_make_bootable_cases lib img :
  LimineBootloader.make_bootable lib img =
  match file_ident lib img bios_path with
  | None => (Raise PyCdlibException, img ++ [iso_get_record bios_path])
  | Some bios =>
      let img1 := img ++ [iso_get_record bios_path] in
      if negb (accepts lib img1 (bios_entry bios))
      then (Raise PyCdlibException, img1 ++ [bios_entry bios])
      else
        let img2 := img1 ++ [bios_entry bios] in
        match file_ident lib img2 uefi_path with
        | None => (Raise PyCdlibException, img2 ++ [iso_get_record uefi_path])
        | Some uefi =>
            let img3 := img2 ++ [iso_get_record uefi_path] in
            if negb (accepts lib img3 (uefi_entry uefi))
            then (Raise PyCdlibException, img3 ++ [uefi_entry uefi])
            else (Return tt, img3 ++ [uefi_entry uefi])
        end
  end.
Proof.
  unfold LimineBootloader.make_bootable, bios_path, uefi_path,
    bios_entry, uefi_entry, bind, invoke, ret, answer.
  destruct (file_ident lib img _) as [bios|]; cbv beta iota zeta;
    [|reflexivity].
  destruct (accepts lib _ _); cbv beta iota zeta; [|reflexivity].
  destruct (file_ident lib _ _) as [uefi|]; cbv beta iota zeta;
    [|reflexivity].
  destruct (accepts lib _ _); reflexivity.
Qed.

(** C9: Limine's [make_bootable] returns normally exactly when both
    loader records are found by their Rock Ridge paths and both
    entries are accepted.  It then has made four calls, and the boot
    catalog has gained exactly two entries, the BIOS one before the
    UEFI one: each names the record found under [/LIMINE/], with media
    [noemul], a boot load size of 4 and the boot info table on; the
    second has [efi] set. *)
Theorem limine_registers_two_entries lib img :
  (∀ img',
     LimineBootloader.make_bootable lib img = (Return tt, img') ↔
     ∃ bios uefi,
       file_ident lib img "/limine/limine-bios-cd.bin" = Some bios
       ∧ accepts lib (img ++ [iso_get_record bios_path]) (bios_entry bios)
         = true
       ∧ file_ident lib (img ++ [iso_get_record bios_path; bios_entry bios])
           "/limine/limine-uefi-cd.bin" = Some uefi
       ∧ accepts lib (img ++ [iso_get_record bios_path; bios_entry bios;
                              iso_get_record uefi_path]) (uefi_entry uefi)
         = true
       ∧ img' = img ++ boot_calls bios uefi)
  ∧ (∀ bios uefi,
       eltorito_entries (img ++ boot_calls bios uefi)
       = eltorito_entries img
           ++ [iso_add_eltorito ("/LIMINE/" ++ bios) "noemul" 4 true false;
               iso_add_eltorito ("/LIMINE/" ++ uefi) "noemul" 4 true true]).
Proof.
  split.
  - intros img'. rewrite limine_make_bootable_cases.
    fold bios_path uefi_path. split.
    + destruct (file_ident lib img bios_path) as [bios|]; [|done].
      cbv zeta.
      destruct (accepts lib _ (bios_entry bios)) eqn:Ha1; [|done].
      simpl negb. cbv iota. rewrite <- (assoc_L (++)).
      destruct (file_ident lib _ uefi_path) as [uefi|] eqn:Hf2; [|done].
      rewrite <- (assoc_L (++)).
      destruct (accepts lib _ (uefi_entry uefi)) eqn:Ha2; [|done].
      simpl negb. cbv iota. rewrite <- (assoc_L (++)).
      intros [= <-]. by exists bios, uefi.
    + intros (bios & uefi & -> & Ha1 & Hf2 & Ha2 & ->). cbv zeta.
      rewrite Ha1. simpl negb. cbv iota. rewrite <- (assoc_L (++)).
      simpl app at 2. rewrite Hf2, <- (assoc_L (++)). simpl app at 2.
      rewrite Ha2. simpl negb. cbv iota. by rewrite <- (assoc_L (++)).
  - intros bios uefi. unfold eltorito_entries.
    by rewrite List.filter_app.
Qed.

Lemma limine_registers_two_entries_witness :
  let img : list IsoCall :=
    [ iso_new "1.09";
      iso_add_directory "/LIMINE" "limine";
      iso_add_file "disk/limine/limine-uefi-cd.bin" "/LIMINE/LIMINE01.BIN;1"
        "limine-uefi-cd.bin";
      iso_add_file "disk/limine/limine-bios-cd.bin" "/LIMINE/LIMINE02.BIN;1"
        "limine-bios-cd.bin" ] in
  ∃ img',
    LimineBootloader.make_bootable reference_lib img = (Return tt, img')
    ∧ eltorito_entries img'
      = [ iso_add_eltorito "/LIMINE/LIMINE02.BIN;1" "noemul" 4 true false;
          iso_add_eltorito "/LIMINE/LIMINE01.BIN;1" "noemul" 4 true true ].
Proof.
  intros img.
  destruct (limine_registers_two_entries reference_lib img)
    as [Hiff Hentries].
  exists (img ++ boot_calls "LIMINE02.BIN;1" "LIMINE01.BIN;1"). split.
  - apply Hiff. exists ("LIMINE02.BIN;1" : str), ("LIMINE01.BIN;1" : str).
    repeat split; reflexivity.
  - rewrite Hentries. reflexivity.
Defined.

End Boot.

(** ** The calls of a packaging run *)

Section Calls.

Variable lib : PyCdlib.

Implicit Types (c : IsoCall) (cs img : list IsoCall) (s : PackState)
  (nb : gmap str nat).

Lemma attempt_app cs1 cs2 img :
  attempt lib (cs1 ++ cs2) img
  = if (attempt lib cs1 img).1
    then attempt lib cs2 (attempt lib cs1 img).2
    else attempt lib cs1 img.
Proof.
  revert img. induction cs1 as [|c cs1 IH]; intros img; simpl; [done|].
  destruct (answer lib c img); [apply IH | done].
Qed.

(** The image after an attempt: the calls made are a prefix of the
    calls planned; all of them when nothing was refused; and a
    refused call is the last one made. *)
Lemma attempt_spec cs img :
  (attempt lib cs img).2 `prefix_of` img ++ cs
  ∧ ((attempt lib cs img).1 = true → (attempt lib cs img).2 = img ++ cs)
  ∧ ((attempt lib cs img).1 = false →
     ∃ made c, (attempt lib cs img).2 = made ++ [c]
               ∧ answer lib c made = None)
  ∧ (∀ made c rest,
       (attempt lib cs img).2 = img ++ made ++ c :: rest → rest ≠ [] →
       is_Some (answer lib c (img ++ made))).
Proof.
  revert img. induction cs as [|c cs IH]; intros img; simpl.
  - rewrite app_nil_r. repeat split; try done.
    intros made c rest Heq. apply (f_equal length) in Heq.
    rewrite !length_app in Heq. simpl in Heq. lia.
  - destruct (answer lib c img) as [r|] eqn:Ha.
    + destruct (IH (img ++ [c])) as (Hpre & Hok & Hfail & Hacc).
      rewrite <- (assoc_L (++)) in Hpre, Hok. simpl in Hpre, Hok.
      repeat split; try done.
      intros made c' rest Heq Hrest.
      destruct made as [|c0 made].
      * simpl in Heq.
        assert (Hc : c' = c).
        { destruct Hpre as [k Hk]. rewrite Heq in Hk.
          rewrite <- !(assoc_L (++)) in Hk. apply (inj (app _)) in Hk.
          simpl in Hk. by injection Hk. }
        subst c'. rewrite app_nil_r. eauto.
      * assert (Hc : c0 = c).
        { destruct Hpre as [k Hk]. rewrite Heq in Hk.
          rewrite <- !(assoc_L (++)) in Hk. apply (inj (app _)) in Hk.
          simpl in Hk. by injection Hk. }
        subst c0.
        specialize (Hacc made c' rest).
        rewrite <- !(assoc_L (++)) in Hacc. simpl in Hacc. by apply Hacc.
    + repeat split; try done.
      * apply prefix_app, prefix_cons, prefix_nil.
      * intros _. eauto.
      * intros made c' rest Heq Hrest. apply (inj (app _)) in Heq.
        destruct made as [|c0 [|c1 made]]; simpl in Heq;
          injection Heq as _ Heq; try done; by destruct rest.
Qed.

Lemma follows_ret {A} (a : A) s : follows lib (ret a) [] (numbering s) s.
Proof. unfold follows. simpl. exists a. by destruct s. Qed.

Lemma follows_bind {A B} (m : M PackState A) (k : A → M PackState B)
    cs1 cs2 nb1 nb2 s :
  follows lib m cs1 nb1 s →
  (∀ a, follows lib (k a) cs2 nb2
          {| numbering := nb1; image := (attempt lib cs1 (image s)).2 |}) →
  follows lib (bind m k) (cs1 ++ cs2) nb2 s.
Proof.
  unfold follows, bind. rewrite attempt_app.
  destruct (fst (attempt lib cs1 (image s))) eqn:Hok; cbv beta iota.
  - intros [a ->] Hk. apply Hk.
  - rewrite Hok. intros [Hr Hi] _.
    destruct (m s) as [[a|e] s']; [done|]. by split.
Qed.

(** Sequencing, with the continuation started on the image that a
    successful first part leaves. *)
Lemma follows_seq {A B} (m : M PackState A) (k : A → M PackState B)
    cs1 cs2 nb1 nb2 s :
  follows lib m cs1 nb1 s →
  (∀ a, follows lib (k a) cs2 nb2
          {| numbering := nb1; image := image s ++ cs1 |}) →
  follows lib (bind m k) (cs1 ++ cs2) nb2 s.
Proof.
  unfold follows, bind. rewrite attempt_app.
  destruct (attempt_spec cs1 (image s)) as (_ & Hok & _).
  destruct (fst (attempt lib cs1 (image s))) eqn:Hfst; cbv beta iota.
  - intros [a ->] Hk. rewrite (Hok eq_refl). apply Hk.
  - rewrite Hfst. intros [Hr Hi] _.
    destruct (m s) as [[a|e] s']; [done|]. by split.
Qed.

Lemma follows_invoke c s :
  follows lib (on_image (invoke lib c)) [c] (numbering s) s.
Proof.
  unfold follows, on_image, invoke. simpl.
  destruct (answer lib c (image s)) as [r|]; simpl; eauto.
Qed.

Lemma follows_iso_compliant {A} file (k : str → M PackState A) cs nb s :
  follows lib (k (make_iso_compliant file (numbering s)).1) cs nb
    {| numbering := (make_iso_compliant file (numbering s)).2;
       image := image s |} →
  follows lib (bind (iso_compliant file) k) cs nb s.
Proof.
  unfold follows, bind, iso_compliant.
  by destruct (make_iso_compliant file (numbering s)).
Qed.

(** One pass of the loop over the sub-directories. *)
Lemma follows_dirs root dirs s :
  follows lib
    (for_ dirs (λ dir,
       on_image (invoke lib (iso_add_directory
                   (iso_disk_root root ++ "/" ++ Py.upper dir) dir)) >>
       ret tt))
    (dir_calls root dirs) (numbering s) s.
Proof.
  revert s. induction dirs as [|dir dirs IH]; intros s.
  - apply follows_ret.
  - change (dir_calls root (dir :: dirs))
      with (([iso_add_directory
                (iso_disk_root root ++ "/" ++ Py.upper dir) dir] ++ [])
            ++ dir_calls root dirs).
    simpl for_. eapply follows_bind.
    + eapply follows_bind; [apply follows_invoke|].
      intros _. apply (follows_ret tt (Build_PackState _ _)).
    + intros _. apply (IH (Build_PackState _ _)).
Qed.

(** One pass of the loop over the files. *)
Lemma follows_files root files s :
  follows lib
    (for_ files (λ file,
       let* iso_file := iso_compliant file in
       on_image (invoke lib (iso_add_file (OsPath.join root file)
                   (iso_disk_root root ++ "/" ++ iso_file ++ ";1") file)) >>
       ret tt))
    (file_calls root files (numbering s)).1
    (file_calls root files (numbering s)).2 s.
Proof.
  revert s. induction files as [|file files IH]; intros s.
  - apply follows_ret.
  - simpl file_calls.
    destruct (make_iso_compliant file (numbering s)) as [iso_file m1] eqn:Hm.
    specialize (IH {| numbering := m1;
                      image := (attempt lib
                                  [iso_add_file (OsPath.join root file)
                                     (iso_disk_root root ++ "/" ++ iso_file
                                        ++ ";1") file] (image s)).2 |}).
    simpl numbering in IH.
    destruct (file_calls root files m1) as [cs m2]. simpl fst. simpl snd.
    change (?c :: cs) with (([c] ++ []) ++ cs).
    simpl for_. eapply follows_bind; [|intros _; apply IH].
    apply follows_iso_compliant. rewrite Hm. simpl fst. simpl snd.
    eapply follows_bind.
    + apply (follows_invoke _ (Build_PackState m1 (image s))).
    + intros _. apply (follows_ret tt (Build_PackState _ _)).
Qed.

(** One entry of the walk. *)
Lemma follows_level root dirs files s :
  follows lib (add_level lib (root, dirs, files))
    (dir_calls root dirs ++ (file_calls root files (numbering s)).1)
    (file_calls root files (numbering s)).2 s.
Proof.
  unfold add_level. eapply follows_bind; [apply follows_dirs|].
  intros _. apply (follows_files _ _ (Build_PackState _ _)).
Qed.

(** The whole walk. *)
Lemma follows_tree entries s :
  follows lib (for_ entries (add_level lib))
    (tree_calls entries (numbering s)).1
    (tree_calls entries (numbering s)).2 s.
Proof.
  revert s. induction entries as [|[[root dirs] files] entries IH];
    intros s.
  - apply follows_ret.
  - simpl tree_calls.
    pose proof (follows_level root dirs files s) as Hl.
    destruct (file_calls root files (numbering s)) as [fs m1].
    specialize (IH {| numbering := m1;
                      image := (attempt lib (dir_calls root dirs ++ fs)
                                  (image s)).2 |}).
    simpl numbering in IH.
    destruct (tree_calls entries m1) as [cs m2]. simpl fst in *.
    simpl snd in *. rewrite (assoc_L (++)).
    simpl for_. eapply follows_bind; [exact Hl|]. intros _. exact IH.
Qed.

(** A computation on the image that behaves as an attempt. *)
Lemma follows_on_image (m : M (list IsoCall) unit) cs s :
  m (image s) = attempted lib cs (image s) →
  follows lib (on_image m) cs (numbering s) s.
Proof.
  unfold follows, on_image, attempted. intros ->.
  destruct (fst (attempt lib cs (image s))); simpl; eauto.
Qed.

(** Limine's [make_bootable] behaves as an attempt at its four calls,
    with the identifiers the library reports. *)
Lemma limine_attempted img :
  LimineBootloader.make_bootable lib img
  = attempted lib
      (boot_calls (found lib img bios_path)
         (found lib (img ++ [iso_get_record bios_path;
                             bios_entry (found lib img bios_path)])
            uefi_path))
      img.
Proof.
  assert (Hentry : ∀ c img' cs,
            is_eltorito c = true →
            attempt lib (c :: cs) img'
            = if accepts lib img' c then attempt lib cs (img' ++ [c])
              else (false, img' ++ [c])).
  { intros c img' cs Hc. simpl. destruct c; try done. simpl.
    by destruct (accepts lib img' _). }
  assert (Hrecord : ∀ path img' cs,
            attempt lib (iso_get_record path :: cs) img'
            = match file_ident lib img' path with
              | Some _ => attempt lib cs (img' ++ [iso_get_record path])
              | None => (false, img' ++ [iso_get_record path])
              end) by done.
  rewrite limine_make_bootable_cases. unfold attempted, boot_calls, found.
  rewrite Hrecord.
  destruct (file_ident lib img bios_path) as [bios|]; [|done].
  simpl default. cbv zeta. rewrite Hentry by done.
  destruct (accepts lib _ (bios_entry bios)); [|done].
  simpl negb. cbv iota. rewrite Hrecord, <- !(assoc_L (++)). simpl app.
  destruct (file_ident lib _ uefi_path) as [uefi|]; [|done].
  simpl default. rewrite Hentry by done.
  rewrite <- !(assoc_L (++)). simpl app.
  by destruct (accepts lib _ (uefi_entry uefi)).
Qed.

(** The whole of [_package_disk_dir] with Limine: on the empty image
    it follows the planned calls. *)
Lemma follows_package (out : str) (disk : Dir) nb :
  follows lib
    (on_image (invoke lib (iso_new "1.09")) >>
     for_ (walk "disk" disk) (add_level lib) >>
     on_image (LimineBootloader.make_bootable lib) >>
     on_image (invoke lib (iso_write_fp out)) >>
     on_image (invoke lib iso_close) >>
     ret tt)
    (planned_calls lib out (tree_calls (walk "disk" disk) nb).1)
    (tree_calls (walk "disk" disk) nb).2
    {| numbering := nb; image := [] |}.
Proof.
  unfold planned_calls. cbv zeta.
  set (adds := (tree_calls (walk "disk" disk) nb).1).
  set (bios := found lib (iso_new "1.09" :: adds) bios_path).
  set (uefi := found lib _ uefi_path).
  change (iso_new "1.09" :: adds) with ([iso_new "1.09"] ++ adds).
  rewrite <- (assoc_L (++)).
  eapply follows_seq; [apply follows_invoke|]. intros _.
  eapply follows_seq.
  { apply (follows_tree _ (Build_PackState nb _)). }
  intros _. eapply follows_seq.
  { apply follows_on_image. apply limine_attempted. }
  intros _.
  change [iso_write_fp out; iso_close]
    with ([iso_write_fp out] ++ [iso_close] ++ []).
  eapply follows_seq; [apply follows_invoke|]. intros _.
  eapply follows_seq; [apply follows_invoke|]. intros _.
  apply (follows_ret tt (Build_PackState _ _)).
Qed.

End Calls.

(** ** The order of a packaging run *)

Section Order.

Implicit Types (lib : PyCdlib) (s : PackState) (m : gmap str nat).

Lemma file_calls_additions root files m :
  forallb is_addition (file_calls root files m).1 = true.
Proof.
  revert m. induction files as [|file files IH]; intros m; [done|].
  simpl. destruct (make_iso_compliant file m) as [iso_file m1].
  specialize (IH m1). by destruct (file_calls root files m1).
Qed.

Lemma dir_calls_additions root dirs :
  forallb is_addition (dir_calls root dirs) = true.
Proof. by induction dirs. Qed.

Lemma tree_calls_blocks entries m :
  (tree_calls entries m).1 = concat (level_blocks entries m).
Proof.
  revert m. induction entries as [|[[root dirs] files] entries IH];
    intros m; [done|].
  simpl. destruct (file_calls root files m) as [fs m1]. simpl.
  specialize (IH m1). destruct (tree_calls entries m1) as [cs m2].
  simpl in *. by rewrite IH, (assoc_L (++)).
Qed.

Lemma tree_calls_additions entries m :
  forallb is_addition (tree_calls entries m).1 = true.
Proof.
  rewrite tree_calls_blocks. revert m.
  induction entries as [|[[root dirs] files] entries IH]; intros m; [done|].
  simpl. rewrite !forallb_app, dir_calls_additions, file_calls_additions.
  apply IH.
Qed.

(** C5, as the code orders it.  With Limine, a run makes its calls in
    the planned order: the new image; then, for each entry of the
    top-down walk in turn, the additions of its sub-directories
    followed by the additions of its files; then the four calls of
    [make_bootable]; then one [write_fp]; then [close].  The calls
    made are always a prefix of that plan.  A run that returns has
    made all of them; a run that raises stopped at the call the
    library refused, which is the last one made, and every earlier
    call was accepted. *)
Theorem package_disk_dir_order lib (tgt out : str) (rel frc : bool)
    (disk : Dir) s :
  let self := {| target := tgt; bootloader := LimineBootloader.new;
                 release := rel; output := out; force := frc |} in
  let adds := (tree_calls (walk "disk" disk) (numbering s)).1 in
  let plan := planned_calls lib out adds in
  let run := _package_disk_dir self lib disk s in
  (∃ bios uefi,
     plan = [iso_new "1.09"] ++ adds ++ boot_calls bios uefi
              ++ [iso_write_fp out; iso_close])
  ∧ adds = concat (level_blocks (walk "disk" disk) (numbering s))
  ∧ forallb is_addition adds = true
  ∧ image run.2 `prefix_of` plan
  ∧ (raised run.1 = false →
     run = (Return tt,
            {| numbering := (tree_calls (walk "disk" disk) (numbering s)).2;
               image := plan |}))
  ∧ (raised run.1 = true →
     ∃ made c, image run.2 = made ++ [c] ∧ answer lib c made = None)
  ∧ (∀ made c rest,
       image run.2 = made ++ c :: rest → rest ≠ [] →
       is_Some (answer lib c made)).
Proof.
  intros self adds plan run.
  split; [by eexists _, _|]. split; [apply tree_calls_blocks|].
  split; [apply tree_calls_additions|].
  pose proof (follows_package lib out disk (numbering s)) as Hf.
  unfold follows in Hf.
  change (image {| numbering := numbering s; image := [] |})
    with (@nil IsoCall) in Hf.
  fold adds plan in Hf.
  destruct (attempt_spec lib plan []) as (Hpre & Hok & Hfail & Hacc).
  change ([] ++ plan) with plan in Hpre, Hok.
  change run with
    ((on_image (invoke lib (iso_new "1.09")) >>
      for_ (walk "disk" disk) (add_level lib) >>
      on_image (LimineBootloader.make_bootable lib) >>
      on_image (invoke lib (iso_write_fp out)) >>
      on_image (invoke lib iso_close) >>
      ret tt) {| numbering := numbering s; image := [] |}).
  destruct (fst (attempt lib plan [])) eqn:Hfst.
  - destruct Hf as [[] ->]. cbn [fst snd image raised].
    rewrite (Hok eq_refl). repeat split; try done.
    intros made c rest Heq ?. apply (Hacc made c rest); [|done].
    by rewrite Hok.
  - destruct Hf as [Hr ->]. rewrite Hr.
    split; [done|]. split; [done|]. split; [auto|].
    intros made c rest Heq ?. by apply (Hacc made c rest).
Qed.

Lemma package_disk_dir_order_witness :
  let s := {| numbering := ISO_NUMBERING; image := [] |} in
  let run := _package_disk_dir pack_task reference_lib staged_disk s in
  raised run.1 = false
  ∧ run.1 = Return tt
  ∧ image run.2
    = planned_calls reference_lib "microdragon.iso"
        (tree_calls (walk "disk" staged_disk) ISO_NUMBERING).1
  ∧ eltorito_entries (image run.2)
    = [ iso_add_eltorito "/LIMINE/LIMINE02.BIN;1" "noemul" 4 true false;
        iso_add_eltorito "/LIMINE/LIMINE01.BIN;1" "noemul" 4 true true ]
  ∧ List.filter (λ c, negb (is_addition c || is_eltorito c)) (image run.2)
    = [ iso_new "1.09"; iso_get_record bios_path; iso_get_record uefi_path;
        iso_write_fp "microdragon.iso"; iso_close ].
Proof.
  intros s run.
  assert (Hok : raised run.1 = false) by (vm_compute; reflexivity).
  split; [exact Hok|].
  destruct (package_disk_dir_order reference_lib "x86_64-unknown-none"
              "microdragon.iso" false false staged_disk s)
    as (_ & _ & _ & _ & Hrun & _).
  pose proof (Hrun Hok : run = _) as Heq. rewrite Heq.
  split; [reflexivity|]. split; [reflexivity|].
  split; vm_compute; reflexivity.
Defined.

(** C5 as stated fails on its first part: on this staging tree the
    run returns normally, and the directory [/EFI/BOOT] is added
    after files have been added. *)
Lemma directory_added_after_files :
  let s := {| numbering := ISO_NUMBERING; image := [] |} in
  let run := _package_disk_dir pack_task reference_lib staged_disk s in
  run.1 = Return tt
  ∧ image run.2 !! 4
    = Some (iso_add_file "disk/readme.txt" "/README.TXT;1" "readme.txt")
  ∧ image run.2 !! 5
    = Some (iso_add_file "disk/system/kernel" "/SYSTEM/KERNEL;1" "kernel")
  ∧ image run.2 !! 10 = Some (iso_add_directory "/EFI/BOOT" "BOOT").
Proof. intros s run. vm_compute. repeat split. Qed.

End Order.

(** ** The dictionary across runs *)

Section Dictionary.

Implicit Types (lib : PyCdlib) (s : PackState) (m : gmap str nat)
  (files : list str).

Lemma grows_refl m : grows m m.
Proof. intros p n Hp. eauto. Qed.

Lemma grows_trans m1 m2 m3 : grows m1 m2 → grows m2 m3 → grows m1 m3.
Proof.
  intros H12 H23 p n Hp.
  destruct (H12 _ _ Hp) as (n2 & Hp2 & ?).
  destruct (H23 _ _ Hp2) as (n3 & Hp3 & ?).
  exists n3. split; [done | lia].
Qed.

Lemma make_iso_compliant_grows file m :
  grows m (make_iso_compliant file m).2.
Proof.
  destruct (non_compliant file) eqn:Hn.
  - rewrite numbered_name by done. simpl. intros p n Hp.
    destruct (decide (prefix_of file = p)) as [<-|Hne].
    + rewrite lookup_insert_eq. unfold next_number. rewrite Hp. simpl.
      exists (n + 1). split; [done | lia].
    + rewrite lookup_insert_ne by done. eauto.
  - rewrite unnumbered_name by done. apply grows_refl.
Qed.

Lemma enlarges_ret {A} (a : A) : enlarges (ret a).
Proof. intros s. apply grows_refl. Qed.

Lemma enlarges_bind {A B} (m : M PackState A) (k : A → M PackState B) :
  enlarges m → (∀ a, enlarges (k a)) → enlarges (bind m k).
Proof.
  intros Hm Hk s. unfold bind. specialize (Hm s).
  destruct (m s) as [[a|e] s1]; [|done].
  eapply grows_trans; [exact Hm | apply Hk].
Qed.

Lemma enlarges_for {A} (xs : list A) (body : A → M PackState unit) :
  (∀ x, enlarges (body x)) → enlarges (for_ xs body).
Proof.
  intros Hb. induction xs as [|x xs IH]; simpl.
  - apply enlarges_ret.
  - apply enlarges_bind; [apply Hb | intros _; apply IH].
Qed.

Lemma enlarges_on_image {A} (m : M (list IsoCall) A) : enlarges (on_image m).
Proof.
  intros s. unfold on_image. destruct (m (image s)). apply grows_refl.
Qed.

Lemma enlarges_iso_compliant file : enlarges (iso_compliant file).
Proof.
  intros s. unfold iso_compliant.
  pose proof (make_iso_compliant_grows file (numbering s)) as Hg.
  by destruct (make_iso_compliant file (numbering s)).
Qed.

Lemma enlarges_package self lib disk :
  enlarges (_package_disk_dir self lib disk).
Proof.
  unfold _package_disk_dir.
  repeat (apply enlarges_bind; [|intros _]);
    try apply enlarges_on_image; try apply enlarges_ret.
  apply enlarges_for. intros [[root dirs] files]. unfold add_level.
  apply enlarges_bind; [|intros _]; apply enlarges_for.
  - intros dir. apply enlarges_bind; [apply enlarges_on_image|].
    intros _. apply enlarges_ret.
  - intros file. apply enlarges_bind; [apply enlarges_iso_compliant|].
    intros iso_file. apply enlarges_bind; [apply enlarges_on_image|].
    intros _. apply enlarges_ret.
Qed.

Lemma numbers_ext {A} (m : M PackState A) f g :
  numbers m f → (∀ nb, f nb = g nb) → numbers m g.
Proof. intros Hm Hfg s a s' Hs. rewrite <- Hfg. exact (Hm _ _ _ Hs). Qed.

Lemma numbers_ret {A} (a : A) : numbers (ret a) id.
Proof. by intros s a' s' [= _ <-]. Qed.

Lemma numbers_bind {A B} (m : M PackState A) (k : A → M PackState B) f g :
  numbers m f → (∀ a, numbers (k a) g) → numbers (bind m k) (g ∘ f).
Proof.
  intros Hm Hk s b s'. unfold bind.
  destruct (m s) as [[a|e] s1] eqn:Hs; [|done].
  intros Hks. simpl. rewrite <- (Hm _ _ _ Hs). exact (Hk a _ _ _ Hks).
Qed.

Lemma numbers_on_image {A} (m : M (list IsoCall) A) : numbers (on_image m) id.
Proof.
  intros s a s'. unfold on_image. destruct (m (image s)).
  by intros [= _ <-].
Qed.

Lemma numbers_iso_compliant file :
  numbers (iso_compliant file) (λ nb, (make_iso_compliant file nb).2).
Proof.
  intros s a s'. unfold iso_compliant.
  destruct (make_iso_compliant file (numbering s)). by intros [= _ <-].
Qed.

Lemma compliant_names_app files1 files2 m :
  (compliant_names (files1 ++ files2) m).2
  = (compliant_names files2 (compliant_names files1 m).2).2.
Proof.
  revert m. induction files1 as [|f files1 IH]; intros m; [done|].
  rewrite <- app_comm_cons, !compliant_names_cons. simpl. apply IH.
Qed.

Lemma numbers_level lib root dirs files :
  numbers (add_level lib (root, dirs, files))
    (λ nb, (compliant_names files nb).2).
Proof.
  unfold add_level.
  eapply numbers_ext; [eapply numbers_bind|].
  - instantiate (1 := id). induction dirs as [|dir dirs IH]; simpl.
    + apply numbers_ret.
    + eapply numbers_ext; [eapply numbers_bind|].
      * eapply numbers_ext; [eapply numbers_bind|].
        -- apply numbers_on_image.
        -- intros _. apply numbers_ret.
        -- done.
      * intros _. apply IH.
      * done.
  - intros _. instantiate (1 := λ nb, (compliant_names files nb).2).
    induction files as [|file files IH]; simpl for_.
    + apply numbers_ret.
    + eapply numbers_ext; [eapply numbers_bind|].
      * eapply numbers_ext; [eapply numbers_bind|].
        -- apply numbers_iso_compliant.
        -- intros iso_file. eapply numbers_ext; [eapply numbers_bind|].
           ++ apply numbers_on_image.
           ++ intros _. apply numbers_ret.
           ++ done.
        -- done.
      * intros _. apply IH.
      * intros nb. by rewrite compliant_names_cons.
  - done.
Qed.

Lemma numbers_tree lib entries :
  numbers (for_ entries (add_level lib))
    (λ nb, (compliant_names (walk_files entries) nb).2).
Proof.
  induction entries as [|[[root dirs] files] entries IH]; simpl for_.
  - apply numbers_ret.
  - eapply numbers_ext; [eapply numbers_bind|].
    + apply numbers_level.
    + intros _. apply IH.
    + intros nb. unfold walk_files. simpl flat_map.
      by rewrite compliant_names_app.
Qed.

Lemma numbers_package self lib disk :
  numbers (_package_disk_dir self lib disk)
    (λ nb, (compliant_names (walk_files (walk "disk" disk)) nb).2).
Proof.
  unfold _package_disk_dir.
  eapply numbers_ext; [eapply numbers_bind; [apply numbers_on_image|]|].
  - intros _. eapply numbers_bind; [apply numbers_on_image|].
    intros _. eapply numbers_bind; [apply numbers_tree|].
    intros _. eapply numbers_bind; [apply numbers_on_image|].
    intros _. eapply numbers_bind; [apply numbers_on_image|].
    intros _. eapply numbers_bind; [apply numbers_on_image|].
    intros _. apply numbers_ret.
  - done.
Qed.

(** C6, as the code has it.  The dictionary is empty when the module
    is loaded, and nothing ever resets it: a run starts from the
    dictionary it finds.  Whatever the outcome of a run, every
    counter present before it is present after it and is at least as
    large; and when the run returns, the dictionary is the one
    obtained by naming the files of the walk in order, so each
    counter has advanced by the number of files numbered under its
    prefix, and the next run in the process numbers on from there. *)
Theorem numbering_carries_over self lib disk s :
  let run := _package_disk_dir self lib disk s in
  let files := walk_files (walk "disk" disk) in
  ISO_NUMBERING = ∅
  ∧ (∀ prefix n,
       numbering s !! prefix = Some n →
       ∃ n', numbering run.2 !! prefix = Some n' ∧ n ≤ n')
  ∧ (raised run.1 = false →
     numbering run.2 = (compliant_names files (numbering s)).2
     ∧ ∀ prefix,
         next_number (numbering run.2) prefix
         = next_number (numbering s) prefix + uses prefix files).
Proof.
  intros run files. split; [done|]. split.
  - apply (enlarges_package self lib disk s).
  - intros Hok.
    assert (Hnb : numbering run.2 = (compliant_names files (numbering s)).2).
    { subst run.
      destruct (_package_disk_dir self lib disk s) as [[a|e] s'] eqn:Hrun;
        [|done].
      exact (numbers_package self lib disk _ _ _ Hrun). }
    split; [exact Hnb|]. intros prefix. rewrite Hnb.
    apply next_number_after.
Qed.

Lemma numbering_carries_over_witness :
  let s := {| numbering := ISO_NUMBERING; image := [] |} in
  let run1 := _package_disk_dir pack_task reference_lib staged_disk s in
  let run2 := _package_disk_dir pack_task reference_lib staged_disk run1.2 in
  (raised run1.1 = false ∧ raised run2.1 = false
   ∧ uses "LIMINE" (walk_files (walk "disk" staged_disk)) = 3)
  ∧ next_number (numbering run1.2) "LIMINE" = 4
  ∧ next_number (numbering run2.2) "LIMINE" = 7.
Proof.
  intros s run1 run2.
  assert (Hok1 : raised run1.1 = false) by (vm_compute; reflexivity).
  assert (Hok2 : raised run2.1 = false) by (vm_compute; reflexivity).
  assert (Huses : uses "LIMINE" (walk_files (walk "disk" staged_disk)) = 3)
    by (vm_compute; reflexivity).
  split; [exact (conj Hok1 (conj Hok2 Huses))|].
  destruct (numbering_carries_over pack_task reference_lib staged_disk s)
    as (_ & _ & Hrun1).
  destruct (Hrun1 Hok1) as [_ Hnext1].
  destruct (numbering_carries_over pack_task reference_lib staged_disk
              run1.2) as (_ & _ & Hrun2).
  destruct (Hrun2 Hok2) as [_ Hnext2].
  pose proof (Hnext1 "LIMINE"
              : next_number (numbering run1.2) "LIMINE" = _) as E1.
  pose proof (Hnext2 "LIMINE"
              : next_number (numbering run2.2) "LIMINE" = _) as E2.
  rewrite E2, E1, Huses.
  unfold next_number, s, ISO_NUMBERING. cbn [numbering].
  rewrite lookup_empty. split; reflexivity.
Defined.

(** C6 as stated fails: a second run in the same process does not
    start from an empty dictionary, and the names it produces for the
    same staging tree differ from those of the first run. *)
Lemma later_run_continues_numbering :
  let s := {| numbering := ISO_NUMBERING; image := [] |} in
  let run1 := _package_disk_dir pack_task reference_lib staged_disk s in
  let run2 := _package_disk_dir pack_task reference_lib staged_disk run1.2 in
  run1.1 = Return tt ∧ run2.1 = Return tt
  ∧ numbering run1.2 !! ("LIMINE" : str) = Some 4
  ∧ eltorito_entries (image run1.2)
    = [ iso_add_eltorito "/LIMINE/LIMINE02.BIN;1" "noemul" 4 true false;
        iso_add_eltorito "/LIMINE/LIMINE01.BIN;1" "noemul" 4 true true ]
  ∧ eltorito_entries (image run2.2)
    = [ iso_add_eltorito "/LIMINE/LIMINE05.BIN;1" "noemul" 4 true false;
        iso_add_eltorito "/LIMINE/LIMINE04.BIN;1" "noemul" 4 true true ]
  ∧ image run2.2 ≠ image run1.2.
Proof.
  intros s run1 run2.
  assert (H1 : eltorito_entries (image run1.2)
    = [ iso_add_eltorito "/LIMINE/LIMINE02.BIN;1" "noemul" 4 true false;
        iso_add_eltorito "/LIMINE/LIMINE01.BIN;1" "noemul" 4 true true ])
    by (vm_compute; reflexivity).
  assert (H2 : eltorito_entries (image run2.2)
    = [ iso_add_eltorito "/LIMINE/LIMINE05.BIN;1" "noemul" 4 true false;
        iso_add_eltorito "/LIMINE/LIMINE04.BIN;1" "noemul" 4 true true ])
    by (vm_compute; reflexivity).
  split; [vm_compute; reflexivity|]. split; [vm_compute; reflexivity|].
  split; [vm_compute; reflexivity|]. split; [exact H1|]. split; [exact H2|].
  intros Heq. rewrite Heq, H1 in H2. discriminate H2.
Qed.

End Dictionary.

(** ** More on file-name compliance *)

Section Case.

Implicit Types (file : str) (m : gmap str nat).

Lemma upper_char_idemp (c : ascii) :
  Py.upper_char (Py.upper_char c) = Py.upper_char c.
Proof. by destruct c as [[] [] [] [] [] [] [] []]. Qed.

Lemma upper_idemp (s : str) : Py.upper (Py.upper s) = Py.upper s.
Proof.
  unfold Py.upper. rewrite <- list_fmap_compose. apply list_fmap_ext.
  intros i c _. apply upper_char_idemp.
Qed.

(** Upper-casing neither creates nor removes a dot or a slash. *)
Lemma upper_char_dot (c : ascii) :
  Ascii.eqb (Py.upper_char c) "." = Ascii.eqb c "."
  ∧ Ascii.eqb (Py.upper_char c) "/" = Ascii.eqb c "/".
Proof. by destruct c as [[] [] [] [] [] [] [] []]. Qed.

Lemma rfind_upper_dot (s : str) : Py.rfind "." (Py.upper s) = Py.rfind "." s.
Proof.
  induction s as [|a s IH]; [done|]. simpl. fold (Py.upper s).
  by rewrite IH, (proj1 (upper_char_dot a)).
Qed.

Lemma rfind_upper_slash (s : str) : Py.rfind "/" (Py.upper s) = Py.rfind "/" s.
Proof.
  induction s as [|a s IH]; [done|]. simpl. fold (Py.upper s).
  by rewrite IH, (proj2 (upper_char_dot a)).
Qed.

Lemma skip_leading_dots_upper (p : str) (i n : nat) :
  OsPath.skip_leading_dots (Py.upper p) "." i n
  = OsPath.skip_leading_dots p "." i n.
Proof.
  revert i. induction n as [|n IH]; intros i; [done|]. simpl.
  unfold Py.upper at 1. rewrite list_lookup_fmap.
  destruct (p !! i) as [c|]; [|done]. simpl.
  rewrite (proj1 (upper_char_dot c)). by rewrite IH.
Qed.

Lemma splitext_upper (p : str) :
  OsPath.splitext (Py.upper p)
  = (Py.upper (OsPath.splitext p).1, Py.upper (OsPath.splitext p).2).
Proof.
  unfold OsPath.splitext.
  rewrite rfind_upper_dot, rfind_upper_slash, skip_leading_dots_upper.
  destruct (_ <? _)%Z; [|done].
  destruct (OsPath.skip_leading_dots _ _ _ _); [|done].
  unfold Py.upper. by rewrite <- fmap_take, <- fmap_drop.
Qed.

Lemma make_iso_compliant_upper file m :
  make_iso_compliant (Py.upper file) m = make_iso_compliant file m.
Proof.
  rewrite !make_iso_compliant_eq. unfold base_of, ext_of.
  rewrite splitext_upper. simpl. by rewrite !upper_idemp.
Qed.

(** X1: [make_iso_compliant] sees only the upper-cased file name: two
    names that differ only in the case of their letters receive the
    same ISO name and leave the same dictionary. *)
Theorem make_iso_compliant_ignores_case file1 file2 m :
  Py.upper file1 = Py.upper file2 →
  make_iso_compliant file1 m = make_iso_compliant file2 m.
Proof.
  intros Heq.
  by rewrite <- (make_iso_compliant_upper file1),
             <- (make_iso_compliant_upper file2), Heq.
Qed.

Lemma make_iso_compliant_ignores_case_witness :
  Py.upper "Kernel.Elf" = Py.upper "kernel.elf"
  ∧ make_iso_compliant "Kernel.Elf" ISO_NUMBERING
    = make_iso_compliant "kernel.elf" ISO_NUMBERING.
Proof.
  assert (H : Py.upper "Kernel.Elf" = Py.upper "kernel.elf") by reflexivity.
  split; [exact H|].
  exact (make_iso_compliant_ignores_case "Kernel.Elf" "kernel.elf"
           ISO_NUMBERING H).
Defined.

End Case.

Section Shape.

Implicit Types (file ext : str) (m : gmap str nat).

Lemma format_02d_long (n : nat) : 100 ≤ n → 3 ≤ length (Py.format_02d n).
Proof.
  intros H. rewrite <- (Unsigned.of_to n) in H.
  unfold Py.format_02d, Py.decimal. rewrite length_app.
  destruct (Nat.to_uint n) as [|d|d|d|d|d|d|d|d|d|d];
    [vm_compute in H; lia|..];
    (destruct d as [|d|d|d|d|d|d|d|d|d|d]; [vm_compute in H; lia|..]);
    (destruct d as [|d|d|d|d|d|d|d|d|d|d]; [vm_compute in H; lia|..]);
    simpl; lia.
Qed.

Lemma checked_ext_good ext : bad_extension (checked_ext ext) = false.
Proof.
  unfold checked_ext. destruct (bad_extension ext) eqn:Hb; [done|exact Hb].
Qed.

Lemma bad_extension_false_inv ext :
  bad_extension ext = false →
  length ext ≤ 4 ∧ forallb valid_iso_char (drop 1 ext) = true.
Proof.
  unfold bad_extension. intros [Hl He]%orb_false_iff.
  apply Nat.ltb_ge in Hl. split; [done|].
  apply forallb_forall. intros c Hc. apply not_false_iff_true. intros Hv.
  assert (existsb (λ c, negb (valid_iso_char c)) (drop 1 ext) = true)
    as Hex; [|congruence].
  apply existsb_exists. exists c. by rewrite Hv.
Qed.

Lemma named_valid file m :
  forallb valid_iso_char
    (number_name (sanitize (base_of file)) (base_of file) m).1 = true.
Proof.
  apply forallb_forall. intros c Hc. apply list_elem_of_In in Hc.
  pose proof (number_name_valid (base_of file) m) as Hv.
  rewrite Forall_forall in Hv. exact (Hv c Hc).
Qed.

Lemma named_short file m :
  non_compliant file = false ∨ next_number m (prefix_of file) < 100 →
  length (number_name (sanitize (base_of file)) (base_of file) m).1 ≤ 8.
Proof.
  unfold non_compliant.
  destruct (needs_numbering (sanitize (base_of file)) (base_of file)) eqn:Hn.
  - intros [?|Hlt]; [done|]. rewrite number_name_cut by done. simpl.
    unfold prefix_of in Hlt.
    rewrite length_app, length_take, (format_02d_length _ Hlt). lia.
  - intros _. rewrite number_name_pass by done. simpl.
    apply not_true_iff_false in Hn. rewrite needs_numbering_true in Hn. lia.
Qed.

Lemma checked_ext_shape file :
  checked_ext (ext_of file) = []
  ∨ ∃ e, checked_ext (ext_of file) = "."%char :: e ∧ length e ≤ 3
         ∧ forallb valid_iso_char e = true.
Proof.
  destruct (bad_extension_false_inv _ (checked_ext_good (ext_of file)))
    as [Hl Hv].
  destruct (checked_ext_dot file) as [Hnil|[e He]]; [by left|right].
  exists e. rewrite He in Hl, Hv. simpl in Hl, Hv.
  rewrite drop_0 in Hv. split; [done|]. split; [lia|done].
Qed.

(** X2: what [make_iso_compliant] returns is a short name: a name part
    of valid characters, of at most 8 characters unless the counter of
    its prefix has reached 100, followed by an extension part that is
    empty or a dot with at most three valid characters after it. *)
Theorem iso_name_is_short file m :
  let named := number_name (sanitize (base_of file)) (base_of file) m in
  let ext := checked_ext (ext_of file) in
  (make_iso_compliant file m).1 = named.1 ++ ext
  ∧ forallb valid_iso_char named.1 = true
  ∧ (non_compliant file = false ∨ next_number m (prefix_of file) < 100 →
     length named.1 ≤ 8)
  ∧ (ext = [] ∨ ∃ e, ext = "."%char :: e ∧ length e ≤ 3
                     ∧ forallb valid_iso_char e = true).
Proof.
  intros named ext. split; [by rewrite make_iso_compliant_eq|].
  split; [apply named_valid|]. split; [apply named_short|].
  apply checked_ext_shape.
Qed.

Lemma iso_name_is_short_witness :
  next_number ISO_NUMBERING (prefix_of "longfilename.config") < 100
  ∧ (make_iso_compliant "longfilename.config" ISO_NUMBERING).1
    = ("LONGFI01." : str)
  ∧ length ("LONGFI01" : str) ≤ 8.
Proof.
  assert (H : next_number ISO_NUMBERING (prefix_of "longfilename.config") < 100)
    by (vm_compute; lia).
  split; [exact H|].
  destruct (iso_name_is_short "longfilename.config" ISO_NUMBERING)
    as (Heq & _ & Hlen & _).
  split; [rewrite Heq; reflexivity|].
  exact (Hlen (or_intror H)).
Defined.

(** X3: the numbering does not stop at 99.  Once the counter of a
    six-character prefix has reached 100, the name part returned has
    more than 8 characters. *)
Theorem hundredth_name_is_too_long file m :
  non_compliant file = true →
  length (prefix_of file) = 6 →
  100 ≤ next_number m (prefix_of file) →
  8 < length (number_name (sanitize (base_of file)) (base_of file) m).1
  ∧ (make_iso_compliant file m).1
    = prefix_of file ++ Py.format_02d (next_number m (prefix_of file))
        ++ checked_ext (ext_of file).
Proof.
  intros Hn Hp Hc. split.
  - rewrite number_name_cut by done. simpl. rewrite length_app.
    pose proof (format_02d_long _ Hc) as Hd. unfold prefix_of in Hp, Hd. lia.
  - by rewrite numbered_name.
Qed.

Lemma hundredth_name_is_too_long_witness :
  let m : gmap str nat := {[ ("LONGFI" : str) := 100 ]} in
  (non_compliant "longfilename.bin" = true
   ∧ length (prefix_of "longfilename.bin") = 6
   ∧ 100 ≤ next_number m (prefix_of "longfilename.bin"))
  ∧ (make_iso_compliant "longfilename.bin" m).1 = ("LONGFI100.BIN" : str).
Proof.
  intros m.
  assert (Hm : next_number m (prefix_of "longfilename.bin") = 100).
  { unfold next_number. change (prefix_of "longfilename.bin")
      with ("LONGFI" : str). unfold m. by rewrite lookup_singleton_eq. }
  assert (Hc : 100 ≤ next_number m (prefix_of "longfilename.bin"))
    by (rewrite Hm; lia).
  split; [by repeat split|].
  destruct (hundredth_name_is_too_long "longfilename.bin" m eq_refl eq_refl Hc)
    as [_ ->].
  rewrite Hm. reflexivity.
Defined.

End Shape.

Section FixedPoint.

Implicit Types (file name ext : str) (m : gmap str nat).

Lemma valid_upper_char (c : ascii) :
  valid_iso_char c = true → Py.upper_char c = c.
Proof.
  destruct c as [[] [] [] [] [] [] [] []]; intros H;
    (reflexivity || (vm_compute in H; discriminate H)).
Qed.

Lemma valid_not_sep (c : ascii) :
  valid_iso_char c = true →
  Ascii.eqb c "." = false ∧ Ascii.eqb c "/" = false.
Proof.
  destruct c as [[] [] [] [] [] [] [] []]; intros H;
    ((split; reflexivity) || (vm_compute in H; discriminate H)).
Qed.

Lemma valid_upper (s : str) :
  forallb valid_iso_char s = true → Py.upper s = s.
Proof.
  induction s as [|c s IH]; [done|]. simpl.
  intros [Hc Hs]%andb_true_iff. fold (Py.upper s).
  by rewrite (valid_upper_char _ Hc), IH.
Qed.

Lemma rfind_absent (c : ascii) (s : str) :
  forallb (λ a, negb (Ascii.eqb a c)) s = true → Py.rfind c s = (-1)%Z.
Proof.
  induction s as [|a s IH]; [done|]. simpl.
  intros [Ha Hs]%andb_true_iff. rewrite (IH Hs). simpl.
  by apply negb_true_iff in Ha as ->.
Qed.

Lemma rfind_last (c : ascii) (a e : str) :
  forallb (λ x, negb (Ascii.eqb x c)) e = true →
  Py.rfind c (a ++ c :: e) = Z.of_nat (length a).
Proof.
  intros He. induction a as [|x a IH]; simpl.
  - rewrite (rfind_absent _ _ He). simpl. by rewrite Ascii.eqb_refl.
  - rewrite IH. destruct (Z.leb_spec 0 (Z.of_nat (length a))); lia.
Qed.

Lemma valid_no_sep (s : str) :
  forallb valid_iso_char s = true →
  forallb (λ a, negb (Ascii.eqb a ".")) s = true
  ∧ forallb (λ a, negb (Ascii.eqb a "/")) s = true.
Proof.
  induction s as [|c s IH]; [done|]. simpl.
  intros [Hc Hs]%andb_true_iff. destruct (valid_not_sep _ Hc) as [-> ->].
  simpl. by apply IH.
Qed.

(** A name of valid characters has no extension. *)
Lemma splitext_plain name :
  forallb valid_iso_char name = true → OsPath.splitext name = (name, []).
Proof.
  intros [Hd Hs]%valid_no_sep. unfold OsPath.splitext.
  by rewrite (rfind_absent _ _ Hd), (rfind_absent _ _ Hs).
Qed.

(** A non-empty name of valid characters, a dot and valid characters
    split at the dot. *)
Lemma splitext_dotted name e :
  name ≠ [] →
  forallb valid_iso_char name = true → forallb valid_iso_char e = true →
  OsPath.splitext (name ++ "."%char :: e) = (name, "."%char :: e).
Proof.
  intros Hne Hn He. destruct (valid_no_sep _ Hn) as [Hnd Hns].
  destruct (valid_no_sep _ He) as [Hed Hes].
  unfold OsPath.splitext. rewrite (rfind_last "." name e Hed).
  rewrite (rfind_absent "/" (name ++ "."%char :: e)).
  2:{ rewrite forallb_app. simpl. by rewrite Hns, Hes. }
  destruct name as [|c name]; [done|].
  destruct (Z.ltb_spec (-1) (Z.of_nat (length (c :: name)))); [|simpl in *; lia].
  rewrite Nat2Z.id.
  replace (length (c :: name) - Z.to_nat (-1 + 1)) with (S (length name))
    by (simpl; lia).
  simpl OsPath.skip_leading_dots.
  simpl in Hnd. apply andb_true_iff in Hnd as [Hc _].
  apply negb_true_iff in Hc. rewrite Hc.
  rewrite take_app_length, drop_app_length. done.
Qed.

Lemma skip_leading_dots_true (p : str) (c : ascii) (i n : nat) :
  OsPath.skip_leading_dots p c i n = true → 0 < n ∧ p ≠ [].
Proof.
  destruct n as [|n]; [done|]. simpl.
  destruct (p !! i) eqn:Hp; [|done]. intros _. split; [lia|].
  by destruct p.
Qed.

(** An extension is split off only from a non-empty base. *)
Lemma splitext_base_nonempty (p ext : str) :
  OsPath.splitext p = ([], ext) → ext = [].
Proof.
  unfold OsPath.splitext.
  destruct (Z.ltb_spec (Py.rfind "/" p) (Py.rfind "." p)) as [Hlt|];
    [|by intros [= _ <-]].
  destruct (OsPath.skip_leading_dots _ _ _ _) eqn:Hs; [|by intros [= _ <-]].
  apply skip_leading_dots_true in Hs as [Hpos Hp].
  intros [= Ht _]. exfalso.
  destruct p as [|a p]; [done|].
  destruct (Z.to_nat (Py.rfind "." (a :: p))) eqn:Hd; [lia|done].
Qed.

Lemma named_nonempty file m :
  checked_ext (ext_of file) ≠ [] →
  (number_name (sanitize (base_of file)) (base_of file) m).1 ≠ [].
Proof.
  intros Hext Hnil.
  destruct (needs_numbering (sanitize (base_of file)) (base_of file)) eqn:Hn.
  - rewrite number_name_cut in Hnil by done. simpl in Hnil.
    apply app_eq_nil in Hnil as [_ Hf].
    pose proof (format_02d_min_length
                  (next_number m (take 6 (sanitize (base_of file))))) as Hl.
    rewrite Hf in Hl. simpl in Hl. lia.
  - rewrite number_name_pass in Hnil by done. simpl in Hnil.
    apply fmap_nil_inv in Hnil. unfold base_of in Hnil.
    apply fmap_nil_inv in Hnil. apply Hext.
    unfold ext_of. destruct (OsPath.splitext file) as [b e] eqn:Hs.
    simpl in Hnil. subst b. by rewrite (splitext_base_nonempty _ _ Hs).
Qed.

(** A short name is returned as it is. *)
Lemma short_name_unchanged name ext m :
  forallb valid_iso_char name = true → length name ≤ 8 →
  bad_extension ext = false →
  OsPath.splitext (name ++ ext) = (name, ext) →
  Py.upper ext = ext →
  make_iso_compliant (name ++ ext) m = (name ++ ext, m).
Proof.
  intros Hv Hl Hb Hs Hu. rewrite make_iso_compliant_eq.
  unfold base_of, ext_of. rewrite Hs. simpl.
  rewrite (valid_upper _ Hv), Hu.
  rewrite (sanitize_valid name) by (by apply forallb_valid).
  rewrite number_name_pass.
  - unfold checked_ext. by rewrite Hb.
  - apply not_true_is_false. rewrite needs_numbering_true. intros [?|?]; [lia|done].
Qed.

(** X4: the names [make_iso_compliant] produces are fixed points.  As
    long as the counter of the prefix is below 100, the name returned
    for a file is itself returned unchanged, with the dictionary left
    alone: a staged file that already bears that name receives the
    same ISO name. *)
Theorem iso_name_is_fixed_point file m m' :
  (non_compliant file = true → next_number m (prefix_of file) < 100) →
  make_iso_compliant (make_iso_compliant file m).1 m'
  = ((make_iso_compliant file m).1, m').
Proof.
  intros Hcount. rewrite (make_iso_compliant_eq file m). simpl.
  set (name := (number_name (sanitize (base_of file)) (base_of file) m).1).
  pose proof (named_valid file m) as Hv. fold name in Hv.
  assert (Hl : length name ≤ 8).
  { apply named_short. destruct (non_compliant file); auto. }
  pose proof (checked_ext_good (ext_of file)) as Hb.
  destruct (checked_ext_shape file) as [Hnil|(e & He & _ & Hev)].
  - rewrite Hnil in *. apply short_name_unchanged; try done.
    rewrite app_nil_r. by apply splitext_plain.
  - assert (Hne : name ≠ []).
    { apply named_nonempty. by rewrite He. }
    rewrite He in *. apply short_name_unchanged; try done.
    + by apply splitext_dotted.
    + change (Py.upper ("."%char :: e)) with ("."%char :: Py.upper e).
      by rewrite (valid_upper _ Hev).
Qed.

Lemma iso_name_is_fixed_point_witness :
  (non_compliant "longfilename.bin" = true →
   next_number ISO_NUMBERING (prefix_of "longfilename.bin") < 100)
  ∧ (make_iso_compliant "longfilename.bin" ISO_NUMBERING).1
    = ("LONGFI01.BIN" : str)
  ∧ make_iso_compliant "LONGFI01.BIN" {[ ("LONGFI" : str) := 2 ]}
    = ("LONGFI01.BIN" : str, {[ ("LONGFI" : str) := 2 ]}).
Proof.
  assert (H : non_compliant "longfilename.bin" = true →
              next_number ISO_NUMBERING (prefix_of "longfilename.bin") < 100)
    by (intros _; vm_compute; lia).
  assert (Hout : (make_iso_compliant "longfilename.bin" ISO_NUMBERING).1
                 = ("LONGFI01.BIN" : str))
    by (rewrite make_iso_compliant_eq; reflexivity).
  split; [exact H|]. split; [exact Hout|].
  rewrite <- Hout at 1 2.
  exact (iso_name_is_fixed_point "longfilename.bin" ISO_NUMBERING
           {[ ("LONGFI" : str) := 2 ]} H).
Defined.

End FixedPoint.

(** ** More on the packaging run *)

Section Paths.

(** Splitting at a separator, mapping the characters of the parts by a
    function that keeps the separator, and joining again maps the whole
    string. *)
Lemma join_cons_head (sep : str) (a : ascii) (w : str) (ws : list str) :
  Py.join sep ((a :: w) :: ws) = a :: Py.join sep (w :: ws).
Proof. by destruct ws. Qed.

Lemma split_nonempty (sep : ascii) (s : str) : Py.split sep s ≠ [].
Proof.
  destruct s as [|a s]; [done|]. simpl.
  destruct (Ascii.eqb a sep); [done|]. by destruct (Py.split sep s).
Qed.

Lemma join_map_split (f : ascii → ascii) (s : str) :
  f "/"%char = "/"%char →
  Py.join "/" ((λ w : str, f <$> w) <$> Py.split "/" s) = (f <$> s).
Proof.
  intros Hf. induction s as [|a s IH]; [done|]. simpl Py.split.
  pose proof (split_nonempty "/" s) as Hne.
  destruct (Ascii.eqb_spec a "/") as [->|Ha].
  - rewrite (fmap_cons f), Hf, <- IH.
    by destruct (Py.split "/" s) as [|w ws].
  - rewrite (fmap_cons f), <- IH.
    destruct (Py.split "/" s) as [|w ws]; [done|].
    rewrite !fmap_cons. apply join_cons_head.
Qed.

(** X5: the ISO directory of a walk entry is the upper-cased path of
    the entry with its first four characters, the name of the staging
    root, cut off; and joining what [split] returns gives the string
    back. *)
Theorem iso_disk_root_is_upper (root s : str) :
  iso_disk_root root = Py.upper (drop 4 root)
  ∧ Py.join "/" (Py.split "/" s) = s.
Proof.
  split.
  - unfold iso_disk_root. apply (join_map_split Py.upper_char). reflexivity.
  - pose proof (join_map_split id s eq_refl) as H.
    rewrite list_fmap_id in H.
    assert (Hid : (λ w : str, id <$> w) <$> Py.split "/" s = Py.split "/" s).
    { clear H. induction (Py.split "/" s) as [|w ws IH]; [done|].
      rewrite fmap_cons. f_equal; [apply list_fmap_id | exact IH]. }
    by rewrite Hid in H.
Qed.

End Paths.

Section Added.

Implicit Types (lib : PyCdlib) (s : PackState) (m : gmap str nat).

(** A run with Limine that returns has made the planned calls. *)
Lemma limine_run_returns lib (self : PackagingTask) (disk : Dir) s :
  bootloader self = LimineBootloader.new →
  raised (_package_disk_dir self lib disk s).1 = false →
  image (_package_disk_dir self lib disk s).2
  = planned_calls lib (output self)
      (tree_calls (walk "disk" disk) (numbering s)).1.
Proof.
  destruct self as [tgt loader rel out frc]. simpl. intros ->.
  pose proof (follows_package lib out disk (numbering s)) as Hf.
  unfold follows in Hf.
  change (image {| numbering := numbering s; image := [] |})
    with (@nil IsoCall) in Hf.
  set (plan := planned_calls lib out _) in *.
  destruct (attempt_spec lib plan []) as (_ & Hok & _).
  change ([] ++ plan) with plan in Hok.
  change (_package_disk_dir _ lib disk s) with
    ((on_image (invoke lib (iso_new "1.09")) >>
      for_ (walk "disk" disk) (add_level lib) >>
      on_image (LimineBootloader.make_bootable lib) >>
      on_image (invoke lib (iso_write_fp out)) >>
      on_image (invoke lib iso_close) >>
      ret tt) {| numbering := numbering s; image := [] |}).
  destruct (fst (attempt lib plan [])) eqn:Hfst.
  - destruct Hf as [[] ->]. intros _. simpl. by apply Hok.
  - destruct Hf as [Hr _]. rewrite Hr. done.
Qed.

Lemma omap_dir_calls root dirs :
  omap added_dir_name (dir_calls root dirs) = dirs
  ∧ omap added_file_name (dir_calls root dirs) = []
  ∧ omap added_file_source (dir_calls root dirs) = [].
Proof.
  induction dirs as [|dir dirs (IH1 & IH2 & IH3)]; [done|].
  split; [|split]; simpl; [f_equal; exact IH1 | exact IH2 | exact IH3].
Qed.

Lemma omap_file_calls root files m :
  omap added_dir_name (file_calls root files m).1 = []
  ∧ omap added_file_name (file_calls root files m).1 = files
  ∧ omap added_file_source (file_calls root files m).1
    = (OsPath.join root <$> files).
Proof.
  revert m. induction files as [|file files IH]; intros m; [done|].
  simpl. destruct (make_iso_compliant file m) as [iso_file m1].
  specialize (IH m1). destruct (file_calls root files m1) as [cs m2].
  destruct IH as (IH1 & IH2 & IH3).
  split; [|split]; simpl; [exact IH1 | f_equal; exact IH2 | f_equal; exact IH3].
Qed.

Lemma omap_tree_calls entries m :
  omap added_dir_name (tree_calls entries m).1 = walk_dirs entries
  ∧ omap added_file_name (tree_calls entries m).1 = walk_files entries
  ∧ omap added_file_source (tree_calls entries m).1 = walk_paths entries.
Proof.
  revert m. induction entries as [|[[root dirs] files] entries IH];
    intros m; [done|].
  simpl tree_calls.
  pose proof (omap_file_calls root files m) as (Hf1 & Hf2 & Hf3).
  destruct (file_calls root files m) as [fs m1].
  specialize (IH m1). destruct (tree_calls entries m1) as [cs m2].
  destruct (omap_dir_calls root dirs) as (Hd1 & Hd2 & Hd3).
  simpl fst in *. rewrite !omap_app.
  destruct IH as (-> & -> & ->).
  rewrite Hf1, Hf2, Hf3, Hd1, Hd2, Hd3.
  unfold walk_dirs, walk_files, walk_paths. simpl.
  by rewrite ?app_nil_r, ?app_nil_l.
Qed.

(** X6: a run with Limine that returns has added every sub-directory
    and every file of the walk exactly once, in the order of the walk:
    each under its own name as Rock Ridge name, and each file from its
    path below the walked directory. *)
Theorem staged_entries_added_once lib (self : PackagingTask) (disk : Dir) s :
  bootloader self = LimineBootloader.new →
  raised (_package_disk_dir self lib disk s).1 = false →
  let img := image (_package_disk_dir self lib disk s).2 in
  omap added_dir_name img = walk_dirs (walk "disk" disk)
  ∧ omap added_file_name img = walk_files (walk "disk" disk)
  ∧ omap added_file_source img = walk_paths (walk "disk" disk).
Proof.
  intros Hl Hok img. subst img. rewrite (limine_run_returns _ _ _ _ Hl Hok).
  unfold planned_calls. cbv zeta.
  set (adds := (tree_calls (walk "disk" disk) (numbering s)).1).
  change (iso_new "1.09" :: adds) with ([iso_new "1.09"] ++ adds).
  rewrite !omap_app.
  destruct (omap_tree_calls (walk "disk" disk) (numbering s))
    as (Hd & Hf & Hs).
  fold adds in Hd, Hf, Hs. rewrite Hd, Hf, Hs. simpl.
  by rewrite !app_nil_r.
Qed.

Lemma staged_entries_added_once_witness :
  let s := {| numbering := ISO_NUMBERING; image := [] |} in
  let img := image (_package_disk_dir pack_task reference_lib staged_disk s).2 in
  (bootloader pack_task = LimineBootloader.new
   ∧ raised (_package_disk_dir pack_task reference_lib staged_disk s).1 = false)
  ∧ omap added_dir_name img
    = ["system" : str; "limine" : str; "EFI" : str; "BOOT" : str]
  ∧ length (omap added_file_name img) = 7.
Proof.
  intros s img.
  assert (Hok : raised (_package_disk_dir pack_task reference_lib staged_disk
                          s).1 = false) by (vm_compute; reflexivity).
  split; [exact (conj eq_refl Hok)|].
  destruct (staged_entries_added_once reference_lib pack_task staged_disk s
              eq_refl Hok) as (Hd & Hf & _).
  subst img. rewrite Hd, Hf. split; reflexivity.
Defined.

End Added.

Section ParentFirst.

(** Induction on a staged directory, with the property available for
    every sub-directory. *)
Lemma Dir_nested_ind (P : Dir → Prop) :
  (∀ dirs files, Forall (λ sub, P sub.2) dirs → P (MkDir dirs files)) →
  ∀ d, P d.
Proof.
  intros H. fix IH 1. intros [dirs files]. apply H.
  induction dirs as [|[name sub] dirs IHd]; constructor; [apply IH | apply IHd].
Qed.

Lemma flat_map_lookup {A B} (g : A → list B) (l : list A) (j : nat) (x : B) :
  flat_map g l !! j = Some x →
  ∃ pre y post k,
    l = pre ++ y :: post ∧ g y !! k = Some x
    ∧ j = length (flat_map g pre) + k.
Proof.
  revert j. induction l as [|y l IH]; intros j; [done|]. simpl.
  intros Hj. apply lookup_app_Some in Hj as [Hj|[Hge Hj]].
  - exists [], y, l, j. by repeat split.
  - destruct (IH _ Hj) as (pre & y' & post & k & -> & Hk & Hjk).
    exists (y :: pre), y', post, k. repeat split; [done|].
    simpl. rewrite length_app. lia.
Qed.

Lemma flat_map_lookup_at {A B} (g : A → list B) (pre post : list A) (y : A)
    (k : nat) (x : B) :
  g y !! k = Some x →
  flat_map g (pre ++ y :: post) !! (length (flat_map g pre) + k) = Some x.
Proof.
  intros Hk. rewrite flat_map_app. rewrite lookup_app_r by lia.
  replace (length (flat_map g pre) + k - length (flat_map g pre)) with k by lia.
  simpl. by apply lookup_app_l_Some.
Qed.

(** Every entry of a walk but the first is listed, as a sub-directory,
    by an entry before it. *)
Lemma walk_parent_first (d : Dir) :
  ∀ top j root dirs files,
    walk top d !! j = Some (root, dirs, files) →
    (j = 0 ∧ root = top)
    ∨ ∃ i root_i dirs_i files_i dir,
        i < j ∧ walk top d !! i = Some (root_i, dirs_i, files_i)
        ∧ dir ∈ dirs_i ∧ root = OsPath.join root_i dir.
Proof.
  induction d as [subs fs IH] using Dir_nested_ind.
  intros top [|j] root dirs files Hj.
  - left. simpl in Hj. by injection Hj as <- _ _.
  - right. simpl in Hj.
    destruct (flat_map_lookup _ _ _ _ Hj)
      as (pre & [name sub] & post & k & Hsubs & Hk & Hjk).
    simpl in Hk. rewrite Forall_forall in IH.
    assert (Hin : (name, sub) ∈ subs).
    { rewrite Hsubs. apply elem_of_app. right. apply list_elem_of_here. }
    destruct (IH _ Hin (OsPath.join top name) k root dirs files Hk)
      as [[-> ->]|(i & ri & di & fi & dir & Hik & Hi & Hdir & Hroot)].
    + exists 0, top, (fst <$> subs), fs, name. split; [lia|].
      split; [done|]. split; [|done].
      apply list_elem_of_fmap. by exists (name, sub).
    + exists (S (length (flat_map
                 (λ sub, walk (OsPath.join top sub.1) sub.2) pre) + i)),
        ri, di, fi, dir.
      split; [lia|]. split; [|done].
      simpl. rewrite Hsubs.
      by apply (flat_map_lookup_at
                  (λ sub, walk (OsPath.join top sub.1) sub.2)
                  pre post (name, sub)).
Qed.

Lemma level_blocks_lookup entries m i root dirs files :
  entries !! i = Some (root, dirs, files) →
  ∃ m_i, level_blocks entries m !! i
         = Some (dir_calls root dirs ++ (file_calls root files m_i).1).
Proof.
  revert m i. induction entries as [|[[r ds] fs] entries IH];
    intros m [|i] Hi; try done.
  - injection Hi as -> -> ->. by exists m.
  - simpl. apply IH. exact Hi.
Qed.

(** X7: parents come first.  Every directory the walk visits, other
    than the staging root, is a sub-directory listed by an entry
    visited before it, and the block of additions of that earlier
    entry holds the [add_directory] call that creates it. *)
Theorem directory_added_before_visited (disk : Dir) (m : gmap str nat)
    (j : nat) (root : str) (dirs files : list str) :
  walk "disk" disk !! j = Some (root, dirs, files) →
  0 < j →
  ∃ i root_i dirs_i files_i dir block,
    i < j
    ∧ walk "disk" disk !! i = Some (root_i, dirs_i, files_i)
    ∧ dir ∈ dirs_i ∧ root = OsPath.join root_i dir
    ∧ level_blocks (walk "disk" disk) m !! i = Some block
    ∧ iso_add_directory (iso_disk_root root_i ++ "/" ++ Py.upper dir) dir
      ∈ block.
Proof.
  intros Hj Hpos.
  destruct (walk_parent_first disk "disk" j root dirs files Hj)
    as [[-> _]|(i & ri & di & fi & dir & Hij & Hi & Hdir & Hroot)]; [lia|].
  destruct (level_blocks_lookup _ m _ _ _ _ Hi) as [m_i Hblock].
  exists i, ri, di, fi, dir, (dir_calls ri di ++ (file_calls ri fi m_i).1).
  repeat split; try done.
  apply elem_of_app. left. unfold dir_calls.
  apply list_elem_of_fmap. by exists dir.
Qed.

Lemma directory_added_before_visited_witness :
  (walk "disk" staged_disk !! 4
   = Some ("disk/EFI/BOOT" : str, [], ["BOOTX64.EFI" : str])
   ∧ 0 < 4)
  ∧ ∃ i root_i dir block,
      i < 4
      ∧ ("disk/EFI/BOOT" : str) = OsPath.join root_i dir
      ∧ level_blocks (walk "disk" staged_disk) ISO_NUMBERING !! i = Some block
      ∧ iso_add_directory (iso_disk_root root_i ++ "/" ++ Py.upper dir) dir
        ∈ block.
Proof.
  assert (H : walk "disk" staged_disk !! 4
              = Some ("disk/EFI/BOOT" : str, [], ["BOOTX64.EFI" : str]))
    by reflexivity.
  split; [split; [exact H | lia]|].
  destruct (directory_added_before_visited staged_disk ISO_NUMBERING 4
              _ _ _ H ltac:(lia))
    as (i & ri & di & fi & dir & block & Hi & Hw & Hdir & Hroot & Hb & Hin).
  exists i, ri, dir, block. repeat split; assumption.
Defined.

End ParentFirst.

(** ** More on the registries *)

Section RegistryUse.

Implicit Types (name : str) (w : Registries).

Lemma task_register_ok name c w :
  tasks w !! name = None → derives_from_task (PyClassObj c) = true →
  TaskRegistry.register name (PyClassObj c) w = (Return tt, with_task name c w).
Proof.
  intros Hfree Hcap. unfold TaskRegistry.register.
  rewrite Hfree. unfold derives_from_task in Hcap.
  rewrite bool_decide_eq_false_2 by (by intros [? ?]).
  by rewrite Hcap.
Qed.

Lemma bootloader_register_ok name addr w :
  bootloaders w !! name = None →
  instance_of_bootloader (PyRef addr) w = true →
  BootloaderRegistry.register name (PyRef addr) w
  = (Return tt, with_bootloader name addr w).
Proof.
  intros Hfree Hcap.
  unfold BootloaderRegistry.register, BootloaderRegistry.is_bootloader.
  rewrite Hfree. unfold instance_of_bootloader in Hcap.
  rewrite bool_decide_eq_false_2 by (by intros [? ?]).
  destruct (heap w !! addr) as [i|]; [|done]. by rewrite Hcap.
Qed.

(** X8: what is registered is what is found.  After a class has been
    registered under a free name, [create_task] of that name
    instantiates that class, and every other name resolves as before;
    after an object has been registered as a bootloader under a free
    name, [get_bootloader] of that name returns that very object and
    changes nothing. *)
Theorem registered_entry_is_found name w :
  (∀ c,
     tasks w !! name = None → derives_from_task (PyClassObj c) = true →
     let w1 := (TaskRegistry.register name (PyClassObj c) w).2 in
     TaskRegistry.create_task name w1 = instantiate c w1
     ∧ (∀ other, other ≠ name → tasks w1 !! other = tasks w !! other)
     ∧ bootloaders w1 = bootloaders w ∧ heap w1 = heap w)
  ∧ (∀ addr,
       bootloaders w !! name = None →
       instance_of_bootloader (PyRef addr) w = true →
       let w1 := (BootloaderRegistry.register name (PyRef addr) w).2 in
       BootloaderRegistry.get_bootloader name w1 = (Return addr, w1)
       ∧ (∀ other, other ≠ name →
            bootloaders w1 !! other = bootloaders w !! other)
       ∧ tasks w1 = tasks w ∧ heap w1 = heap w).
Proof.
  split.
  - intros c Hfree Hcap w1. subst w1.
    rewrite (task_register_ok _ _ _ Hfree Hcap). simpl.
    unfold TaskRegistry.create_task. simpl.
    rewrite lookup_insert_eq. split; [done|]. split; [|done].
    intros other Hne. by rewrite lookup_insert_ne.
  - intros addr Hfree Hcap w1. subst w1.
    rewrite (bootloader_register_ok _ _ _ Hfree Hcap). simpl.
    unfold BootloaderRegistry.get_bootloader. simpl.
    rewrite lookup_insert_eq. split; [done|]. split; [|done].
    intros other Hne. by rewrite lookup_insert_ne.
Qed.

Lemma registered_entry_is_found_witness :
  let w : Registries :=
    {| tasks := ∅; bootloaders := ∅;
       heap := {[ 0 := {| inst_type := Cls.LimineBootloader;
                          inst_attrs := [] |} ]} |} in
  let w1 := (BootloaderRegistry.register "Limine" (PyRef 0) w).2 in
  (bootloaders w !! ("Limine" : str) = None
   ∧ instance_of_bootloader (PyRef 0) w = true)
  ∧ BootloaderRegistry.get_bootloader "Limine" w1 = (Return 0, w1).
Proof.
  intros w w1.
  assert (Hfree : bootloaders w !! ("Limine" : str) = None) by done.
  assert (Hcap : instance_of_bootloader (PyRef 0) w = true).
  { unfold instance_of_bootloader. simpl. by rewrite lookup_singleton_eq. }
  split; [by split|].
  destruct (registered_entry_is_found "Limine" w) as [_ Hboot].
  by destruct (Hboot 0 Hfree Hcap) as [Hget _].
Defined.

(** Each operation keeps every entry of both dictionaries and every
    object of the heap. *)
Lemma run_op_keeps (op : RegistryOp) w :
  tasks w ⊆ tasks (run_op w op)
  ∧ bootloaders w ⊆ bootloaders (run_op w op)
  ∧ heap w ⊆ heap (run_op w op).
Proof.
  destruct op as [name task|name|name loader|name]; simpl.
  - destruct (raised (TaskRegistry.register name task w).1) eqn:Hr.
    + by rewrite (task_register_atomic _ _ _ Hr).
    + rewrite task_register_raised in Hr.
      apply orb_false_iff in Hr as [Hfree Hcap].
      apply bool_decide_eq_false in Hfree. apply negb_false_iff in Hcap.
      destruct task as [c| |]; try done.
      rewrite task_register_ok; [|by apply eq_None_not_Some|done].
      simpl. split; [|done]. apply insert_subseteq.
      by apply eq_None_not_Some.
  - unfold TaskRegistry.create_task.
    destruct (tasks w !! name) as [cls|]; [|done].
    pose proof (instantiate_spec cls w) as Hi.
    destruct (instantiate cls w) as [[addr|e] w']; simpl.
    + destruct Hi as (Hfresh & -> & -> & attrs & _ & ->).
      split; [done|]. split; [done|]. by apply insert_subseteq.
    + by subst w'.
  - destruct (raised (BootloaderRegistry.register name loader w).1) eqn:Hr.
    + by rewrite (bootloader_register_atomic _ _ _ Hr).
    + rewrite bootloader_register_raised in Hr.
      apply orb_false_iff in Hr as [Hfree Hcap].
      apply bool_decide_eq_false in Hfree. apply negb_false_iff in Hcap.
      destruct loader as [c|addr|]; try done.
      rewrite bootloader_register_ok; [|by apply eq_None_not_Some|done].
      simpl. split; [done|]. split; [|done]. apply insert_subseteq.
      by apply eq_None_not_Some.
  - unfold BootloaderRegistry.get_bootloader.
    by destruct (bootloaders w !! name).
Qed.

(** X9: nothing is ever unregistered, replaced or altered.  Whatever
    sequence of registrations, creations and look-ups a program makes,
    and whichever of them raise, a name that resolves to a class or to
    a bootloader keeps resolving to it, and an object on the heap stays
    as it is. *)
Theorem registry_entries_are_permanent (ops : list RegistryOp) w :
  (∀ name cls, tasks w !! name = Some cls →
     tasks (run_ops ops w) !! name = Some cls)
  ∧ (∀ name loader, bootloaders w !! name = Some loader →
       bootloaders (run_ops ops w) !! name = Some loader)
  ∧ (∀ addr obj, heap w !! addr = Some obj →
       heap (run_ops ops w) !! addr = Some obj).
Proof.
  assert (H : tasks w ⊆ tasks (run_ops ops w)
              ∧ bootloaders w ⊆ bootloaders (run_ops ops w)
              ∧ heap w ⊆ heap (run_ops ops w)).
  { revert w. induction ops as [|op ops IH]; intros w; [done|].
    simpl. destruct (run_op_keeps op w) as (H1 & H2 & H3).
    destruct (IH (run_op w op)) as (H1' & H2' & H3').
    repeat split; etrans; eauto. }
  destruct H as (H1 & H2 & H3).
  repeat split; intros ? ? Hl; eapply lookup_weaken; eauto.
Qed.

Lemma registry_entries_are_permanent_witness :
  let w : Registries :=
    {| tasks := {[ ("pack" : str) := Cls.PackagingTask ]};
       bootloaders := {[ ("Limine" : str) := 0 ]};
       heap := {[ 0 := {| inst_type := Cls.LimineBootloader;
                          inst_attrs := [] |} ]} |} in
  let ops := [ OpRegisterTask "pack" (PyClassObj Cls.BuildTask);
               OpCreateTask "pack";
               OpRegisterBootloader "Limine" (PyRef 1) ] in
  tasks w !! ("pack" : str) = Some Cls.PackagingTask
  ∧ tasks (run_ops ops w) !! ("pack" : str) = Some Cls.PackagingTask
  ∧ bootloaders (run_ops ops w) !! ("Limine" : str) = Some 0.
Proof.
  intros w ops.
  assert (Hp : tasks w !! ("pack" : str) = Some Cls.PackagingTask)
    by apply lookup_singleton_eq.
  assert (Hl : bootloaders w !! ("Limine" : str) = Some 0)
    by apply lookup_singleton_eq.
  destruct (registry_entries_are_permanent ops w) as (Ht & Hb & _).
  split; [exact Hp|]. split; [exact (Ht _ _ Hp) | exact (Hb _ _ Hl)].
Defined.

(** X10: a task is new each time, a bootloader is shared.  When
    [create_task] has returned an object, creating the same name once
    more returns another object, of the same class and with the same
    attributes; when [get_bootloader] has returned an object, asking
    again returns the same one. *)
Theorem tasks_are_fresh_bootloaders_shared name w :
  (∀ addr1 w1,
     TaskRegistry.create_task name w = (Return addr1, w1) →
     ∃ addr2 w2 obj,
       TaskRegistry.create_task name w1 = (Return addr2, w2)
       ∧ addr2 ≠ addr1
       ∧ heap w2 !! addr1 = Some obj ∧ heap w2 !! addr2 = Some obj)
  ∧ (∀ loader w1,
       BootloaderRegistry.get_bootloader name w = (Return loader, w1) →
       w1 = w
       ∧ BootloaderRegistry.get_bootloader name w1 = (Return loader, w1)).
Proof.
  split.
  - intros addr1 w1 Hc1. unfold TaskRegistry.create_task in *.
    destruct (tasks w !! name) as [cls|] eqn:Hcls; [|done].
    pose proof (instantiate_spec cls w) as Hi. rewrite Hc1 in Hi.
    destruct Hi as (Hfresh & Ht & Hb & attrs & Hinit & Hh).
    rewrite Ht, Hcls.
    pose proof (instantiate_spec cls w1) as Hi2.
    unfold instantiate in Hi2 |- *. unfold instantiate in Hc1.
    destruct (cls_abstract cls); [done|]. rewrite Hb, Hinit in Hi2 |- *.
    destruct Hi2 as (Hfresh2 & _ & _ & _ & _ & _).
    eexists _, _, _. split; [reflexivity|]. simpl.
    assert (Hne : fresh (dom (heap w1)) ≠ addr1).
    { intros Heq. rewrite Heq, Hh, lookup_insert_eq in Hfresh2. done. }
    split; [exact Hne|]. rewrite lookup_insert_eq.
    rewrite lookup_insert_ne by done. by rewrite Hh, lookup_insert_eq.
  - intros loader w1 Hg. unfold BootloaderRegistry.get_bootloader in *.
    destruct (bootloaders w !! name) as [l|] eqn:Hl; [|done].
    injection Hg as <- <-. by rewrite Hl.
Qed.

Lemma tasks_are_fresh_bootloaders_shared_witness :
  let w : Registries :=
    {| tasks := {[ ("pack" : str) := Cls.PackagingTask ]};
       bootloaders := {[ ("Limine" : str) := 0 ]};
       heap := {[ 0 := {| inst_type := Cls.LimineBootloader;
                          inst_attrs := [] |} ]} |} in
  ∃ addr1 w1 addr2 w2,
    TaskRegistry.create_task "pack" w = (Return addr1, w1)
    ∧ TaskRegistry.create_task "pack" w1 = (Return addr2, w2)
    ∧ addr2 ≠ addr1.
Proof.
  intros w.
  destruct (TaskRegistry.create_task "pack" w) as [[addr1|e] w1] eqn:Hc.
  - destruct (tasks_are_fresh_bootloaders_shared "pack" w) as [Hfresh _].
    destruct (Hfresh addr1 w1 Hc) as (addr2 & w2 & obj & Hc2 & Hne & _).
    by exists addr1, w1, addr2, w2.
  - exfalso. unfold TaskRegistry.create_task in Hc.
    change (tasks w !! ("pack" : str))
      with (({[ ("pack" : str) := Cls.PackagingTask ]} : gmap str PyClass)
              !! ("pack" : str)) in Hc.
    rewrite lookup_singleton_eq in Hc.
    unfold instantiate in Hc. simpl in Hc.
    unfold Cls.PackagingTask_init, Cls.BuildTask_init in Hc.
    change (bootloaders w) with ({[ ("Limine" : str) := 0 ]} : gmap str nat)
      in Hc.
    rewrite lookup_singleton_eq in Hc. discriminate Hc.
Defined.

(** X11: a build or packaging task can only be created once the Limine
    bootloader is registered.  Without it [create_task] raises and
    changes nothing; with it the new task holds a reference to the
    registered bootloader object and the default target and flags. *)
Theorem task_creation_needs_limine name cls w :
  tasks w !! name = Some cls →
  cls = Cls.BuildTask ∨ cls = Cls.PackagingTask →
  (bootloaders w !! ("Limine" : str) = None →
   ∃ msg, TaskRegistry.create_task name w = (Raise (RuntimeError msg), w))
  ∧ (∀ loader,
       bootloaders w !! ("Limine" : str) = Some loader →
       ∃ addr w' obj,
         TaskRegistry.create_task name w = (Return addr, w')
         ∧ heap w !! addr = None
         ∧ heap w' !! addr = Some obj
         ∧ inst_type obj = cls_type cls
         ∧ ("target" : str, AStr "x86_64-unknown-none") ∈ inst_attrs obj
         ∧ ("bootloader" : str, ARef loader) ∈ inst_attrs obj
         ∧ ("release" : str, ABool false) ∈ inst_attrs obj
         ∧ (cls = Cls.PackagingTask →
            ("output" : str, ANone) ∈ inst_attrs obj
            ∧ ("force" : str, ABool false) ∈ inst_attrs obj)).
Proof.
  intros Hcls Hkind. unfold TaskRegistry.create_task. rewrite Hcls. split.
  - intros Hnone. unfold instantiate.
    destruct Hkind as [-> | ->]; simpl;
      unfold Cls.PackagingTask_init, Cls.BuildTask_init; rewrite Hnone;
      by eexists.
  - intros loader Hl. unfold instantiate.
    destruct Hkind as [-> | ->]; simpl;
      unfold Cls.PackagingTask_init, Cls.BuildTask_init; rewrite Hl;
      eexists _, _, _; (split; [reflexivity|]); simpl;
      (split; [apply not_elem_of_dom, is_fresh|]);
      rewrite lookup_insert_eq; (split; [reflexivity|]); simpl;
      (split; [reflexivity|]);
      repeat split; try discriminate; set_solver.
Qed.

Lemma task_creation_needs_limine_witness :
  let w : Registries :=
    {| tasks := {[ ("build" : str) := Cls.BuildTask ]};
       bootloaders := ∅; heap := ∅ |} in
  tasks w !! ("build" : str) = Some Cls.BuildTask
  ∧ bootloaders w !! ("Limine" : str) = None
  ∧ ∃ msg, TaskRegistry.create_task "build" w = (Raise (RuntimeError msg), w).
Proof.
  intros w.
  assert (Hb : tasks w !! ("build" : str) = Some Cls.BuildTask)
    by apply lookup_singleton_eq.
  assert (Hn : bootloaders w !! ("Limine" : str) = None) by done.
  split; [exact Hb|]. split; [exact Hn|].
  destruct (task_creation_needs_limine "build" Cls.BuildTask w Hb
              (or_introl eq_refl)) as [Hraise _].
  exact (Hraise Hn).
Defined.

End RegistryUse.

(** ** More on copying *)

Section CopyEffect.

Implicit Types (target copy : str) (s : FsState).



End CopyEffect.

(** ** The target of a build *)

Section Target.

Lemma to_rust_arch_cases (arch : str) :
  to_rust_arch arch =
  if bool_decide (arch = ("x86_64" : str)) then
    Some ("x86_64-unknown-none" : str)
  else if bool_decide (arch = ("aarch64" : str)) then
    Some ("arch64-unknown-none-softfloat" : str)
  else if bool_decide (arch = ("riscv" : str)) then
    Some ("riscv64imac-unknown-none-elf" : str)
  else None.
Proof.
  unfold to_rust_arch, RUST_ARCH_MAPPING. simpl list_to_map.
  repeat case_bool_decide; subst;
    rewrite ?lookup_insert_eq, ?lookup_insert_ne, ?lookup_empty in * by done;
    try done; exfalso; eauto using is_Some_None.
Qed.

(** X13: [to_rust_arch] accepts exactly the architectures that the
    command line offers for [--target], maps different architectures
    to different targets, and maps the default architecture to the
    target a new build task starts with. *)
Theorem to_rust_arch_covers_choices :
  (∀ arch, is_Some (to_rust_arch arch) ↔ arch ∈ target_choices)
  ∧ (∀ arch1 arch2 triple,
       to_rust_arch arch1 = Some triple → to_rust_arch arch2 = Some triple →
       arch1 = arch2)
  ∧ (∀ loaders attrs,
       Cls.BuildTask_init loaders = Return attrs →
       ∃ triple, to_rust_arch target_default = Some triple
                 ∧ ("target" : str, AStr triple) ∈ attrs).
Proof.
  split; [|split].
  - intros arch. rewrite to_rust_arch_cases. unfold target_choices.
    repeat case_bool_decide; subst; (split; intros Hx;
      [ first [ by destruct Hx as [? [=]]
              | repeat first [apply list_elem_of_here
                             | apply list_elem_of_further] ]
      | first [ by eauto
              | exfalso;
                repeat (apply elem_of_cons in Hx as [?|Hx]; [done|]);
                by apply elem_of_nil in Hx ] ]).
  - intros arch1 arch2 triple. rewrite !to_rust_arch_cases.
    repeat case_bool_decide; subst; intros [= <-] Hx; try done;
      try discriminate Hx.
  - intros loaders attrs. unfold Cls.BuildTask_init.
    destruct (loaders !! _) as [loader|]; [|done].
    intros [= <-]. exists ("x86_64-unknown-none" : str).
    split; [reflexivity | apply list_elem_of_here].
Qed.

Lemma to_rust_arch_covers_choices_witness :
  to_rust_arch "riscv" = Some ("riscv64imac-unknown-none-elf" : str)
  ∧ ("riscv" : str) ∈ target_choices.
Proof.
  destruct to_rust_arch_covers_choices as (Hiff & _ & _).
  assert (H : to_rust_arch "riscv"
              = Some ("riscv64imac-unknown-none-elf" : str))
    by (rewrite to_rust_arch_cases; reflexivity).
  split; [exact H|]. apply Hiff. rewrite H. eauto.
Defined.

End Target.

(** * The staging tree *)

Section Footprint.

Implicit Types (d : Disk) (W : list str) (ns : gmap str Node).

Lemma changes_only_refl W d : changes_only W d d.
Proof.
  split; [reflexivity|]. split; [reflexivity|]. split.
  - intros path n H. exists n. split; [exact H | reflexivity].
  - intros path n H. left. exact H.
Qed.

Lemma changes_only_printed W d lines :
  changes_only W d {| nodes := nodes d; now := now d; printed := lines |}.
Proof.
  split; [reflexivity|]. split; [reflexivity|]. split.
  - intros path n H. exists n. split; [exact H | reflexivity].
  - intros path n H. left. exact H.
Qed.

Lemma changes_only_trans W d1 d2 d3 :
  changes_only W d1 d2 → changes_only W d2 d3 → changes_only W d1 d3.
Proof.
  intros (Hn1 & Ho1 & Hk1 & Hs1) (Hn2 & Ho2 & Hk2 & Hs2).
  split; [congruence|]. split; [|split].
  - intros path Hp. rewrite (Ho2 path Hp). apply Ho1. exact Hp.
  - intros path n H. destruct (Hk1 path n H) as (n1 & H1 & E1).
    destruct (Hk2 path n1 H1) as (n2 & H2 & E2).
    exists n2. split; [exact H2 | congruence].
  - intros path n H. destruct (Hs2 path n H) as [H2 | H2].
    + apply Hs1. exact H2.
    + right. congruence.
Qed.

Lemma changes_only_mono W W' d d' :
  W ⊆ W' → changes_only W d d' → changes_only W' d d'.
Proof.
  intros Hsub (Hn & Ho & Hk & Hs).
  split; [exact Hn|]. split; [|split; assumption].
  intros path Hp. apply Ho. intros Hin. apply Hp, Hsub, Hin.
Qed.

Lemma writes_mono {A} W W' (m : Sys A) : W ⊆ W' → writes W m → writes W' m.
Proof. intros Hsub H d. eapply changes_only_mono; [exact Hsub | apply H]. Qed.

Lemma writes_ret {A} W (a : A) : writes W (sys_ret a).
Proof. intros d. apply changes_only_refl. Qed.

Lemma writes_bind {A B} W (m : Sys A) (k : A → Sys B) :
  writes W m → (∀ a, writes W (k a)) → writes W (sys_bind m k).
Proof.
  intros Hm Hk d. unfold sys_bind. specialize (Hm d).
  destruct (m d) as [[a | e] d1]; simpl in *.
  - eapply changes_only_trans; [exact Hm | apply Hk].
  - exact Hm.
Qed.

Lemma writes_path_exists W path : writes W (Os.path_exists path).
Proof. intros d. apply changes_only_refl. Qed.

Lemma writes_getmtime W path : writes W (Os.getmtime path).
Proof.
  intros d. unfold Os.getmtime.
  destruct (nodes d !! path); apply changes_only_refl.
Qed.

Lemma writes_print W line : writes W (Os.print line).
Proof. intros d. apply changes_only_printed. Qed.

Lemma touched_lookup dir d ns path :
  Os.touched dir d ns !! path = ns !! path ∨
  (dir = Some path ∧ (∃ t, ns !! path = Some (DirNode t)) ∧
   Os.touched dir d ns !! path = Some (DirNode (now d))).
Proof.
  unfold Os.touched. destruct dir as [dir|]; [|left; reflexivity].
  destruct (ns !! dir) as [[f | t]|] eqn:E; try (left; reflexivity).
  destruct (decide (dir = path)) as [-> | Hne].
  - right. split; [reflexivity|]. split; [exists t; exact E|].
    apply lookup_insert_eq.
  - left. apply lookup_insert_ne. exact Hne.
Qed.

Lemma elem_of_with_parent path p :
  p ∈ with_parent path ↔ p = path ∨ Os.parent path = Some p.
Proof.
  unfold with_parent. destruct (Os.parent path) as [dir|].
  - rewrite !elem_of_cons, elem_of_nil. split.
    + intros [-> | [-> | []]]; [left | right]; reflexivity.
    + intros [-> | [= ->]]; [left | right; left]; reflexivity.
  - rewrite elem_of_cons, elem_of_nil. split.
    + intros [-> | []]. left. reflexivity.
    + intros [-> | [=]]. left. reflexivity.
Qed.

(** Creating an entry changes it and stamps the directory that holds
    it. *)
Lemma changes_only_create path n d :
  nodes d !! path = None → stamp n = now d →
  changes_only (with_parent path) d
    {| nodes := Os.touched (Os.parent path) d (<[path := n]> (nodes d));
       now := now d; printed := printed d |}.
Proof.
  intros Habs Hst. split; [reflexivity|]. cbn [nodes now]. split; [|split].
  - intros p Hp. rewrite elem_of_with_parent in Hp.
    destruct (touched_lookup (Os.parent path) d (<[path := n]> (nodes d)) p)
      as [-> | (Hd & _ & _)].
    + apply lookup_insert_ne. intros ->. apply Hp. left. reflexivity.
    + exfalso. apply Hp. right. exact Hd.
  - intros p n0 H0.
    assert (Hne : path ≠ p) by (intros ->; congruence).
    destruct (touched_lookup (Os.parent path) d (<[path := n]> (nodes d)) p)
      as [-> | (_ & (t & Ht) & ->)].
    + exists n0. split; [|reflexivity].
      rewrite lookup_insert_ne by exact Hne. exact H0.
    + exists (DirNode (now d)). split; [reflexivity|].
      rewrite lookup_insert_ne in Ht by exact Hne.
      rewrite H0 in Ht. injection Ht as ->. reflexivity.
  - intros p n' H'.
    destruct (touched_lookup (Os.parent path) d (<[path := n]> (nodes d)) p)
      as [E | (_ & _ & E)]; rewrite E in H'.
    + destruct (decide (path = p)) as [-> | Hne].
      * rewrite lookup_insert_eq in H'. injection H' as <-. right. exact Hst.
      * rewrite lookup_insert_ne in H' by exact Hne. left. exact H'.
    + injection H' as <-. right. reflexivity.
Qed.

(** Writing over a file changes that file only. *)
Lemma changes_only_overwrite path f0 text d :
  nodes d !! path = Some (FileNode f0) →
  changes_only (with_parent path) d
    {| nodes := <[path := FileNode {| mtime := now d; data := text |}]>
                  (nodes d);
       now := now d; printed := printed d |}.
Proof.
  intros Hf. split; [reflexivity|]. cbn [nodes now]. split; [|split].
  - intros p Hp. apply lookup_insert_ne. intros ->. apply Hp.
    apply elem_of_with_parent. left. reflexivity.
  - intros p n0 H0. destruct (decide (path = p)) as [-> | Hne].
    + rewrite lookup_insert_eq. eexists. split; [reflexivity|].
      rewrite Hf in H0. injection H0 as <-. reflexivity.
    + rewrite lookup_insert_ne by exact Hne. exists n0. split; done.
  - intros p n' H'. destruct (decide (path = p)) as [-> | Hne].
    + rewrite lookup_insert_eq in H'. injection H' as <-. right. reflexivity.
    + rewrite lookup_insert_ne in H' by exact Hne. left. exact H'.
Qed.

Lemma writes_mkdir path : writes (with_parent path) (Os.mkdir path).
Proof.
  intros d. unfold Os.mkdir. case_bool_decide as Hex.
  - apply changes_only_refl.
  - destruct (Os.blocked path d); [apply changes_only_refl|].
    apply changes_only_create; [|reflexivity].
    apply eq_None_not_Some. exact Hex.
Qed.

Lemma writes_copyfile src dst : writes (with_parent dst) (Os.copyfile src dst).
Proof.
  intros d. unfold Os.copyfile.
  destruct (bool_decide (src = dst) && _); [apply changes_only_refl|].
  destruct (nodes d !! src) as [[f | t]|]; try apply changes_only_refl.
  destruct (nodes d !! dst) as [[f0 | t0]|] eqn:Hdst.
  - eapply changes_only_overwrite. exact Hdst.
  - apply changes_only_refl.
  - destruct (Os.blocked dst d); [apply changes_only_refl|].
    apply changes_only_create; [exact Hdst | reflexivity].
Qed.

Lemma writes_except_exists W m : writes W m → writes W (Os.except_exists m).
Proof.
  intros H d. unfold Os.except_exists. specialize (H d).
  destruct (m d) as [[[] | []] d1]; exact H.
Qed.

Lemma writes_makedirs_from fuel : ∀ name,
  writes (flat_map with_parent (makedirs_chain fuel name))
    (Os.makedirs_from fuel name).
Proof.
  induction fuel as [|fuel IH]; intros name.
  - cbn [makedirs_chain Os.makedirs_from flat_map].
    destruct (Os.makedirs_split name).
    rewrite app_nil_r. apply writes_mkdir.
  - cbn [makedirs_chain Os.makedirs_from flat_map].
    destruct (Os.makedirs_split name) as [head tail].
    apply writes_bind; [apply writes_path_exists|]. intros present.
    destruct (negb (bool_decide (head = [])) && negb (bool_decide (tail = [])))
      eqn:Hc; [destruct present|]; cbn [negb andb].
    + eapply writes_mono; [|apply writes_mkdir].
      intros p Hp. apply elem_of_app. left. exact Hp.
    + apply writes_bind.
      * apply writes_except_exists. eapply writes_mono; [|apply IH].
        intros p Hp. apply elem_of_app. right. exact Hp.
      * intros _. destruct (bool_decide (tail = "."%string :> str)).
        -- apply writes_ret.
        -- eapply writes_mono; [|apply writes_mkdir].
           intros p Hp. apply elem_of_app. left. exact Hp.
    + eapply writes_mono; [|apply writes_mkdir].
      intros p Hp. apply elem_of_app. left. exact Hp.
Qed.

Lemma writes_stage op : writes (written op) (stage op).
Proof.
  destruct op as [dir | dir | target copy | target copy]; cbn [written stage].
  - apply writes_bind; [apply writes_path_exists|]. intros [|]; cbn [negb].
    + apply writes_ret.
    + apply writes_mkdir.
  - unfold Staging.ensure_directory.
    apply writes_bind; [apply writes_path_exists|]. intros [|]; cbn [negb].
    + apply writes_ret.
    + apply writes_makedirs_from.
  - unfold Staging.test_or_copy.
    apply writes_bind; [apply writes_path_exists|]. intros present.
    apply writes_bind.
    + destruct present; cbn [negb]; [|apply writes_ret].
      apply writes_bind; [apply writes_getmtime|]. intros mc.
      apply writes_bind; [apply writes_getmtime|]. intros mt.
      apply writes_ret.
    + intros [|]; [|apply writes_ret].
      apply writes_bind; [apply writes_print|]. intros _.
      apply writes_copyfile.
  - apply writes_bind; [apply writes_print|]. intros _. apply writes_copyfile.
Qed.

Lemma stage_all_cons op ops d :
  stage_all (op :: ops) d = sys_bind (stage op) (λ _, stage_all ops) d.
Proof.
  destruct ops as [|op' ops]; [|reflexivity].
  cbn [stage_all]. unfold sys_bind, sys_ret.
  destruct (stage op d) as [[[] | e] d1]; reflexivity.
Qed.

Lemma writes_stage_all ops : writes (flat_map written ops) (stage_all ops).
Proof.
  induction ops as [|op ops IH]; [apply writes_ret|].
  intros d. rewrite stage_all_cons. revert d.
  change (writes (flat_map written (op :: ops))
            (sys_bind (stage op) (λ _, stage_all ops))).
  apply writes_bind.
  - eapply writes_mono; [|apply writes_stage].
    intros p Hp. cbn [flat_map]. apply elem_of_app. left. exact Hp.
  - intros _. eapply writes_mono; [|apply IH].
    intros p Hp. cbn [flat_map]. apply elem_of_app. right. exact Hp.
Qed.

End Footprint.

Section Steps.

Implicit Types (d : Disk) (self : PackagingTask).

Lemma sys_bind_assoc {A B C} (m : Sys A) (k : A → Sys B) (k' : B → Sys C) d :
  sys_bind (sys_bind m k) k' d = sys_bind m (λ a, sys_bind (k a) k') d.
Proof. unfold sys_bind. destruct (m d) as [[a | e] d1]; reflexivity. Qed.

Lemma sys_bind_ext {A B} (m : Sys A) (k k' : A → Sys B) d :
  (∀ a d1, k a d1 = k' a d1) → sys_bind m k d = sys_bind m k' d.
Proof.
  intros H. unfold sys_bind. destruct (m d) as [[a | e] d1]; [apply H | reflexivity].
Qed.

Lemma copy_files_steps : Staging.copy_files = stage_all limine_steps.
Proof. reflexivity. Qed.

Lemma copy_kernel_steps self d :
  Staging._copy_kernel self d =
  stage_all [Mkdir "disk/system";
             CopyKernel "disk/system/kernel" (Staging.kernel_binary self)] d.
Proof.
  unfold Staging._copy_kernel. cbn [stage_all stage].
  rewrite sys_bind_assoc. reflexivity.
Qed.

Lemma assemble_disk_steps self d :
  Staging._assemble_disk self Staging.copy_files d =
  sys_bind (clean_disk self) (λ _, stage_all (assemble_steps self)) d.
Proof.
  unfold Staging._assemble_disk, clean_disk.
  rewrite sys_bind_assoc. apply sys_bind_ext. intros clean d1.
  apply sys_bind_ext. intros [] d2.
  unfold assemble_steps. rewrite stage_all_cons. cbn [stage].
  rewrite sys_bind_assoc. apply sys_bind_ext. intros present d3.
  apply sys_bind_ext. intros [] d4.
  rewrite stage_all_cons. unfold Staging._copy_kernel. cbn [stage].
  rewrite !sys_bind_assoc. apply sys_bind_ext. intros present' d5.
  rewrite sys_bind_assoc. apply sys_bind_ext. intros [] d6.
  rewrite stage_all_cons. cbn [stage].
  rewrite !sys_bind_assoc. reflexivity.
Qed.

Lemma written_within_disk self :
  forallb (Os.within "disk") (flat_map written (assemble_steps self)) = true.
Proof. vm_compute. reflexivity. Qed.

Lemma outside_not_written self path :
  Os.within "disk" path = false →
  path ∉ flat_map written (assemble_steps self).
Proof.
  intros Hout Hin. pose proof (written_within_disk self) as H.
  rewrite forallb_forall in H. apply list_elem_of_In in Hin.
  rewrite (H path Hin) in Hout. discriminate.
Qed.

(** Cleaning removes the tree at [disk] and nothing else; without
    [force] it does nothing. *)
Lemma clean_disk_spec self d :
  let r := clean_disk self d in
  now r.2 = now d ∧
  (∀ path, Os.within "disk" path = false →
     nodes r.2 !! path = nodes d !! path) ∧
  (force self = false → r = (Done tt, d)).
Proof.
  unfold clean_disk, sys_bind, Os.path_exists, sys_ret.
  destruct (force self); cbn [fst snd].
  - case_bool_decide as Hex; [|done].
    unfold Os.print, Os.rmtree. cbn [nodes now printed].
    destruct (nodes d !! ("disk"%string : str)) as [[f | t]|] eqn:Hdisk;
      cbn [fst snd nodes now]; try done.
    split; [reflexivity|]. split; [|discriminate].
    intros path Hout. change (Os.parent "disk") with (@None str).
    cbn [Os.touched]. 
    destruct (nodes d !! path) as [n|] eqn:Hn.
    + apply map_lookup_filter_Some. split; [exact Hn | exact Hout].
    + apply map_lookup_filter_None. left. exact Hn.
  - done.
Qed.

End Steps.

Section Done.

Implicit Types (d : Disk) (ns : gmap str Node).

Lemma is_dir_true n : is_dir n = true → ∃ t, n = DirNode t.
Proof. destruct n as [f | t]; [discriminate|]. intros _. exists t. reflexivity. Qed.

Lemma blocked_at_None path dirs ns :
  Os.blocked_at path dirs ns = None →
  ∀ a, a ∈ dirs → ∃ t, ns !! a = Some (DirNode t).
Proof.
  induction dirs as [|dir dirs IH]; intros H a Ha.
  - apply elem_of_nil in Ha. destruct Ha.
  - cbn [Os.blocked_at] in H.
    destruct (ns !! dir) as [[f | t]|] eqn:E; try discriminate.
    apply elem_of_cons in Ha. destruct Ha as [-> | Ha].
    + exists t. exact E.
    + apply IH; assumption.
Qed.

Lemma blocked_None path d :
  Os.blocked path d = None →
  ∀ a, a ∈ Os.ancestors path → ∃ t, nodes d !! a = Some (DirNode t).
Proof.
  unfold Os.blocked. case_bool_decide; [discriminate|]. apply blocked_at_None.
Qed.

(** A directory stays a directory, and keeps the stamp of the clock. *)
Lemma changes_only_dir W d d' path t :
  changes_only W d d' → nodes d !! path = Some (DirNode t) →
  ∃ t', nodes d' !! path = Some (DirNode t') ∧ (t = now d → t' = now d).
Proof.
  intros (_ & _ & Hk & Hs) H. destruct (Hk path _ H) as (n' & H' & Hd).
  destruct (is_dir_true n' Hd) as [t' ->]. exists t'. split; [exact H'|].
  intros ->. destruct (Hs path _ H') as [H2 | H2].
  - rewrite H in H2. injection H2 as ->. reflexivity.
  - exact H2.
Qed.

Lemma mkdir_done path d d' :
  Os.mkdir path d = (Done tt, d') →
  nodes d !! path = None ∧
  nodes d' !! path = Some (DirNode (now d)) ∧
  ∀ a, a ∈ Os.ancestors path → ∃ t, nodes d' !! a = Some (DirNode t).
Proof.
  intros H. pose proof (writes_mkdir path d) as Hw. rewrite H in Hw.
  cbn [snd] in Hw. unfold Os.mkdir in H.
  case_bool_decide as Hex; [discriminate|].
  destruct (Os.blocked path d) eqn:Hb; [discriminate|].
  injection H as <-. cbn [nodes]. split; [|split].
  - apply eq_None_not_Some. exact Hex.
  - destruct (touched_lookup (Os.parent path) d
                (<[path := DirNode (now d)]> (nodes d)) path)
      as [-> | (_ & _ & ->)]; [apply lookup_insert_eq | reflexivity].
  - intros a Ha. destruct (blocked_None path d Hb a Ha) as [t Ht].
    destruct (changes_only_dir _ _ _ _ _ Hw Ht) as (t' & Ht' & _).
    exists t'. exact Ht'.
Qed.

Lemma copyfile_done src dst d d' :
  Os.copyfile src dst d = (Done tt, d') →
  ∃ f, nodes d !! src = Some (FileNode f) ∧
       nodes d' !! dst = Some (FileNode {| mtime := now d; data := data f |}).
Proof.
  unfold Os.copyfile. destruct (bool_decide (src = dst) && _); [discriminate|].
  destruct (nodes d !! src) as [[f | t]|]; try discriminate.
  intros H. exists f. split; [reflexivity|].
  destruct (nodes d !! dst) as [[f0 | t0]|]; try discriminate.
  - injection H as <-. apply lookup_insert_eq.
  - destruct (Os.blocked dst d); [discriminate|]. injection H as <-.
    cbn [nodes].
    match goal with |- Os.touched ?p d ?ns !! dst = _ =>
      destruct (touched_lookup p d ns dst) as [-> | (_ & (t & Ht) & _)]
    end.
    + apply lookup_insert_eq.
    + rewrite lookup_insert_eq in Ht. discriminate.
Qed.

Lemma makedirs_from_done fuel name d d' :
  Os.makedirs_from fuel name d = (Done tt, d') →
  (Os.makedirs_split name).2 ≠ ("."%string : str) →
  ∃ d2, changes_only (flat_map with_parent (makedirs_chain fuel name)) d d2 ∧
        Os.mkdir name d2 = (Done tt, d').
Proof.
  intros H Hdot. pose proof (writes_makedirs_from fuel name) as Hw.
  destruct fuel as [|fuel]; cbn [Os.makedirs_from makedirs_chain] in *;
    destruct (Os.makedirs_split name) as [head tail]; cbn [snd] in Hdot.
  - exists d. split; [apply changes_only_refl | exact H].
  - unfold sys_bind at 1 in H. unfold Os.path_exists at 1 in H.
    destruct (negb (bool_decide (head = [])) && negb (bool_decide (tail = [])))
      eqn:Hc; cbn [andb] in H.
    + destruct (negb (bool_decide (is_Some (nodes d !! head)))).
      * unfold sys_bind in H.
        pose proof (writes_except_exists _ _
                      (writes_makedirs_from fuel head) d) as Hrec.
        destruct (Os.except_exists (Os.makedirs_from fuel head) d)
          as [[[] | e] d2]; [|discriminate].
        rewrite bool_decide_eq_false_2 in H by exact Hdot.
        exists d2. split; [|exact H]. cbn [snd] in Hrec.
        eapply changes_only_mono; [|exact Hrec].
        intros p Hp. cbn [flat_map]. apply elem_of_app. right. exact Hp.
      * exists d. split; [apply changes_only_refl | exact H].
    + exists d. split; [apply changes_only_refl | exact H].
Qed.

Lemma stage_dir_done op d d' :
  is_copy op = false → plain op = true →
  stage op d = (Done tt, d') →
  is_Some (nodes d' !! subject op) ∧
  (nodes d !! subject op = None → made d d' op).
Proof.
  intros Hop Hplain H.
  destruct op as [dir | dir | target copy | target copy]; try discriminate;
    cbn [subject made stage] in *.
  - unfold sys_bind, Os.path_exists in H.
    case_bool_decide as Hex; cbn [negb] in H.
    + injection H as <-. split; [exact Hex|]. intros Hn.
      rewrite Hn in Hex. destruct Hex as [? [=]].
    + destruct (mkdir_done _ _ _ H) as (_ & Hd & Ha).
      split; [rewrite Hd; eexists; reflexivity|]. intros _. split; assumption.
  - unfold Staging.ensure_directory, sys_bind, Os.path_exists in H.
    case_bool_decide as Hex; cbn [negb] in H.
    + injection H as <-. split; [exact Hex|]. intros Hn.
      rewrite Hn in Hex. destruct Hex as [? [=]].
    + apply negb_true_iff, bool_decide_eq_false in Hplain.
      destruct (makedirs_from_done _ _ _ _ H Hplain) as (d2 & (Hnow & _) & Hm).
      destruct (mkdir_done _ _ _ Hm) as (_ & Hd & Ha). rewrite Hnow in Hd.
      split; [rewrite Hd; eexists; reflexivity|]. intros _. split; assumption.
Qed.

Lemma test_or_copy_done target copy d d' :
  Staging.test_or_copy target copy d = (Done tt, d') →
  (nodes d !! target = None → made d d' (Copy target copy)) ∧
  ∃ nt nc, nodes d' !! target = Some nt ∧ nodes d !! copy = Some nc ∧
           ((stamp nc ≤ now d)%Z → (stamp nc ≤ stamp nt)%Z).
Proof.
  unfold Staging.test_or_copy, sys_bind, Os.path_exists, Os.getmtime, sys_ret.
  cbn [made]. case_bool_decide as Hex; cbn [negb].
  - destruct Hex as [nt Hnt].
    destruct (nodes d !! copy) as [nc|] eqn:Hnc; [|discriminate].
    rewrite Hnt. destruct (stamp nt <? stamp nc)%Z eqn:Hlt.
    + unfold Os.print. intros H. apply copyfile_done in H.
      cbn [nodes now] in H. destruct H as (f & Hf & Ht).
      split; [intros [=]|]. exists (FileNode {| mtime := now d; data := data f |}), nc.
      split; [exact Ht|]. split; [reflexivity|]. intros Hle. exact Hle.
    + intros [= <-]. split; [intros [=]|]. exists nt, nc.
      split; [exact Hnt|]. split; [reflexivity|]. intros _.
      apply Z.ltb_ge. exact Hlt.
  - unfold Os.print. intros H. apply copyfile_done in H.
    cbn [nodes now] in H. destruct H as (f & Hf & Ht).
    split.
    + intros _. exists f. split; assumption.
    + exists (FileNode {| mtime := now d; data := data f |}), (FileNode f).
      split; [exact Ht|]. split; [exact Hf|]. intros Hle. exact Hle.
Qed.

Lemma copy_kernel_done target copy d d' :
  stage (CopyKernel target copy) d = (Done tt, d') →
  made d d' (CopyKernel target copy).
Proof.
  cbn [stage made]. unfold sys_bind, Os.print. intros H.
  apply copyfile_done in H. exact H.
Qed.

Lemma stage_all_done op ops d d' :
  stage_all (op :: ops) d = (Done tt, d') →
  ∃ d1, stage op d = (Done tt, d1) ∧ stage_all ops d1 = (Done tt, d').
Proof.
  rewrite stage_all_cons. unfold sys_bind.
  destruct (stage op d) as [[[] | e] d1]; [|discriminate].
  intros H. exists d1. split; [reflexivity | exact H].
Qed.

End Done.

Section Runs.

Implicit Types (d : Disk) (self : PackagingTask) (ops : list StageOp).

Lemma source_of_copy_of op target copy :
  copy_of op = Some (target, copy) →
  is_copy op = true ∧ subject op = target ∧ source_of op = Some copy.
Proof.
  destruct op; cbn; intros [=]; subst; repeat split; reflexivity.
Qed.

Lemma apart_cons op ops :
  apart (op :: ops) = true →
  plain op = true ∧
  (is_copy op = true → subject op ∉ flat_map written ops) ∧
  (∀ op', op' ∈ ops → subject op' ∉ written op) ∧
  apart ops = true.
Proof.
  cbn [apart]. rewrite !andb_true_iff. intros [[[Hp Hc] Hs] Ha].
  split; [exact Hp|]. split; [|split; [|exact Ha]].
  - intros Hcopy. rewrite Hcopy in Hc. cbn [negb orb] in Hc.
    apply bool_decide_eq_true in Hc. exact Hc.
  - intros op' Hin. rewrite forallb_forall in Hs.
    apply list_elem_of_In in Hin. specialize (Hs op' Hin).
    apply bool_decide_eq_true in Hs. exact Hs.
Qed.

(** A run that starts without the directories and targets of its steps
    makes each of them. *)
Lemma fresh_run ops : ∀ d d',
  stage_all ops d = (Done tt, d') →
  apart ops = true →
  (∀ op, op ∈ ops → nodes d !! subject op = None) →
  (∀ op c, op ∈ ops → source_of op = Some c → c ∉ flat_map written ops) →
  ∀ op, op ∈ ops → made d d' op.
Proof.
  induction ops as [|op0 rest IH]; intros d d' Hrun Hap Habs Hsrc op Hin.
  - apply elem_of_nil in Hin. destruct Hin.
  - destruct (stage_all_done _ _ _ _ Hrun) as (d1 & H0 & Hrest).
    pose proof (writes_stage op0 d) as W0. rewrite H0 in W0. cbn [snd] in W0.
    pose proof (writes_stage_all rest d1) as Wr. rewrite Hrest in Wr.
    cbn [snd] in Wr.
    destruct (apart_cons _ _ Hap) as (Hplain & Hcopy & Hsub & Hap').
    pose proof W0 as (Hnow0 & Hout0 & _ & _).
    apply elem_of_cons in Hin. destruct Hin as [-> | Hin].
    + specialize (Habs op0 (list_elem_of_here _ _)).
      destruct (is_copy op0) eqn:Hc.
      * assert (Hm : made d d1 op0).
        { destruct op0 as [dir | dir | target copy | target copy];
            try discriminate.
          - apply test_or_copy_done in H0. apply H0. exact Habs.
          - apply copy_kernel_done. exact H0. }
        destruct Wr as (_ & Hout & _ & _).
        specialize (Hout _ (Hcopy eq_refl)).
        destruct op0 as [dir | dir | target copy | target copy];
          try discriminate; cbn [made subject] in *;
          destruct Hm as (f & Hf & Ht); exists f; (split; [exact Hf|]);
          rewrite Hout; exact Ht.
      * destruct (stage_dir_done _ _ _ Hc Hplain H0) as (_ & Hm).
        specialize (Hm Habs).
        destruct op0 as [dir | dir | target copy | target copy];
          try discriminate; cbn [made subject] in *;
          destruct Hm as (Hd & Ha); (split;
            [ destruct (changes_only_dir _ _ _ _ _ Wr Hd) as (t' & -> & Ht');
              rewrite Ht' by (symmetry; exact Hnow0); rewrite Hnow0; reflexivity
            | intros a Hin; destruct (Ha a Hin) as [t Ht];
              destruct (changes_only_dir _ _ _ _ _ Wr Ht) as (t' & Ht' & _);
              exists t'; exact Ht' ]).
    + assert (Hm : made d1 d' op).
      { apply IH; try assumption.
        - intros op' Hin'. rewrite Hout0 by (apply Hsub; exact Hin').
          apply Habs. apply list_elem_of_further. exact Hin'.
        - intros op' c Hin' Hs Hc.
          apply (Hsrc op' c (list_elem_of_further _ _ _ Hin') Hs).
          cbn [flat_map]. apply elem_of_app. right. exact Hc. }
      destruct op as [dir | dir | target copy | target copy];
        cbn [made] in *; rewrite <- ?Hnow0; try exact Hm.
      * destruct Hm as (f & Hf & Ht). exists f. split; [|exact Ht].
        rewrite <- Hout0; [exact Hf|]. intros Hc.
        apply (Hsrc (Copy target copy) copy
                 (list_elem_of_further _ _ _ Hin) eq_refl).
        cbn [flat_map]. apply elem_of_app. left. exact Hc.
      * destruct Hm as (f & Hf & Ht). exists f. split; [|exact Ht].
        rewrite <- Hout0; [exact Hf|]. intros Hc.
        apply (Hsrc (CopyKernel target copy) copy
                 (list_elem_of_further _ _ _ Hin) eq_refl).
        cbn [flat_map]. apply elem_of_app. left. exact Hc.
Qed.

(** After a run every directory is there and every tested copy is at
    least as new as its source, if no source is dated in the future. *)
Lemma run_keeps ops : ∀ d d',
  stage_all ops d = (Done tt, d') →
  apart ops = true →
  (∀ op c, op ∈ ops → source_of op = Some c → c ∉ flat_map written ops) →
  (∀ target c n, Copy target c ∈ ops →
     nodes d !! c = Some n → (stamp n ≤ now d)%Z) →
  ∀ op, op ∈ ops → kept d' op.
Proof.
  induction ops as [|op0 rest IH]; intros d d' Hrun Hap Hsrc Hold op Hin.
  - apply elem_of_nil in Hin. destruct Hin.
  - destruct (stage_all_done _ _ _ _ Hrun) as (d1 & H0 & Hrest).
    pose proof (writes_stage op0 d) as W0. rewrite H0 in W0. cbn [snd] in W0.
    pose proof (writes_stage_all rest d1) as Wr. rewrite Hrest in Wr.
    cbn [snd] in Wr.
    destruct (apart_cons _ _ Hap) as (Hplain & Hcopy & Hsub & Hap').
    pose proof W0 as (Hnow0 & Hout0 & _ & _).
    pose proof Wr as (_ & Houtr & Hkr & _).
    apply elem_of_cons in Hin. destruct Hin as [-> | Hin].
    + destruct op0 as [dir | dir | target copy | target copy]; cbn [kept].
      * destruct (stage_dir_done (Mkdir dir) _ _ eq_refl Hplain H0)
          as ([n Hn] & _). cbn [subject] in Hn.
        destruct (Hkr _ _ Hn) as (n' & -> & _). eexists. reflexivity.
      * destruct (stage_dir_done (Ensure dir) _ _ eq_refl Hplain H0)
          as ([n Hn] & _). cbn [subject] in Hn.
        destruct (Hkr _ _ Hn) as (n' & -> & _). eexists. reflexivity.
      * apply test_or_copy_done in H0.
        destruct H0 as (_ & nt & nc & Ht & Hc & Hle).
        pose proof (Hsrc (Copy target copy) copy (list_elem_of_here _ _)
                      eq_refl) as Hnw.
        exists nt, nc. split; [|split].
        -- rewrite Houtr by (apply (Hcopy eq_refl)). exact Ht.
        -- rewrite Houtr, Hout0; [exact Hc | |];
             intros Hx; apply Hnw; cbn [flat_map]; apply elem_of_app;
             [left | right]; exact Hx.
        -- apply Hle. apply (Hold target copy nc); [|exact Hc].
           apply list_elem_of_here.
      * apply copy_kernel_done in H0. cbn [made] in H0.
        destruct H0 as (f & Hf & Ht).
        pose proof (Hsrc (CopyKernel target copy) copy (list_elem_of_here _ _)
                      eq_refl) as Hnw.
        destruct Wr as (Hnowr & _).
        exists f. split.
        -- rewrite Houtr, Hout0; [exact Hf | |];
             intros Hx; apply Hnw; cbn [flat_map]; apply elem_of_app;
             [left | right]; exact Hx.
        -- rewrite Houtr by (apply (Hcopy eq_refl)).
           rewrite Hnowr, Hnow0. exact Ht.
    + apply (IH d1 d'); try assumption.
      * intros op' c Hin' Hs Hc.
        apply (Hsrc op' c (list_elem_of_further _ _ _ Hin') Hs).
        cbn [flat_map]. apply elem_of_app. right. exact Hc.
      * intros target c n Hin' Hn. rewrite Hnow0.
        apply (Hold target c n (list_elem_of_further _ _ _ Hin')).
        rewrite <- Hout0; [exact Hn|]. intros Hc.
        apply (Hsrc (Copy target c) c (list_elem_of_further _ _ _ Hin')
                 eq_refl).
        cbn [flat_map]. apply elem_of_app. left. exact Hc.
Qed.

Lemma settled_stage op d : settled d op → stage op d = (Done tt, d).
Proof.
  intros [Hk Hne].
  destruct op as [dir | dir | target copy | target copy]; cbn [kept stage] in *.
  - unfold sys_bind, Os.path_exists. rewrite bool_decide_eq_true_2 by exact Hk.
    reflexivity.
  - unfold Staging.ensure_directory, sys_bind, Os.path_exists.
    rewrite bool_decide_eq_true_2 by exact Hk. reflexivity.
  - destruct Hk as (nt & nc & Ht & Hc & Hle).
    unfold Staging.test_or_copy, sys_bind, Os.path_exists, Os.getmtime, sys_ret.
    rewrite bool_decide_eq_true_2 by (rewrite Ht; eexists; reflexivity).
    cbn [negb]. rewrite Hc, Ht.
    assert (E : (stamp nt <? stamp nc)%Z = false) by (apply Z.ltb_ge; exact Hle).
    rewrite E. reflexivity.
  - destruct (Hne target copy eq_refl).
Qed.

Lemma settled_run ops d :
  (∀ op, op ∈ ops → settled d op) → stage_all ops d = (Done tt, d).
Proof.
  induction ops as [|op rest IH]; intros H; [reflexivity|].
  rewrite stage_all_cons. unfold sys_bind.
  rewrite (settled_stage op d) by (apply H; apply list_elem_of_here).
  apply IH. intros op' Hin. apply H. apply list_elem_of_further. exact Hin.
Qed.

Lemma apart_limine : apart limine_steps = true.
Proof. vm_compute. reflexivity. Qed.

Lemma limine_sources_unwritten :
  forallb (λ op, match source_of op with
                 | Some c => bool_decide (c ∉ flat_map written limine_steps)
                 | None => true
                 end) limine_steps = true.
Proof. vm_compute. reflexivity. Qed.

Lemma limine_steps_tested :
  forallb (λ op, match op with CopyKernel _ _ => false | _ => true end)
    limine_steps = true.
Proof. vm_compute. reflexivity. Qed.

End Runs.

Section Settles.

Implicit Types (d : Disk).

(** X14: Once [copy_files] has returned, running it again, at any
    later or earlier time, changes nothing and prints nothing, if no
    source was dated in the future when it ran first. *)
Theorem copy_files_settles d t :
  (Staging.copy_files d).1 = Done tt →
  (∀ target copy n, (target, copy) ∈ limine_files →
     nodes d !! copy = Some n → (stamp n ≤ now d)%Z) →
  let d' := (Staging.copy_files d).2 in
  Staging.copy_files (at_time t d') = (Done tt, at_time t d').
Proof.
  intros Hdone Hsrc. cbv zeta. rewrite copy_files_steps in *.
  destruct (stage_all limine_steps d) as [r d'] eqn:Hrun.
  cbn [fst snd] in *. subst r.
  apply settled_run. intros op Hin.
  assert (Hk : kept d' op).
  { apply (run_keeps limine_steps d d' Hrun apart_limine); [| |exact Hin].
    - intros op' c Hin' Hs.
      pose proof limine_sources_unwritten as H. rewrite forallb_forall in H.
      apply list_elem_of_In in Hin'. specialize (H op' Hin').
      rewrite Hs in H. apply bool_decide_eq_true in H. exact H.
    - intros target c n Hin' Hn. apply (Hsrc target c n); [|exact Hn].
      apply list_elem_of_omap. exists (Copy target c). split; [exact Hin'|].
      reflexivity. }
  assert (Hne : ∀ target copy, op ≠ CopyKernel target copy).
  { intros target copy ->. pose proof limine_steps_tested as H.
    rewrite forallb_forall in H. apply list_elem_of_In in Hin.
    specialize (H _ Hin). discriminate. }
  split; [|exact Hne].
  destruct op as [dir | dir | target copy | target copy]; try exact Hk.
  destruct (Hne target copy eq_refl).
Qed.

End Settles.

Section Kernel.

Implicit Types (d : Disk) (self : PackagingTask).

Lemma join_rooted a b : rooted a → rooted (PosixPath.join a b).
Proof.
  intros Ha. unfold PosixPath.join.
  assert (Hj : rooted (OsPath.join a b)).
  { unfold OsPath.join. destruct a as [|c a']; [destruct Ha|].
    destruct (last (c :: a')) as [c'|] eqn:E.
    - destruct (Ascii.eqb c' "/"); exact Ha.
    - apply last_None in E. discriminate. }
  destruct b as [|c b']; [exact Hj|].
  destruct (Ascii.eqb c "/") eqn:E; [|exact Hj].
  apply Ascii.eqb_eq in E. left. exact E.
Qed.

Lemma rooted_outside p : rooted p → Os.within "disk" p = false.
Proof.
  destruct p as [|c p']; [intros []|]. intros Hc. unfold Os.within.
  apply orb_false_iff. split; apply bool_decide_eq_false.
  - intros [= -> _]. destruct Hc; discriminate.
  - intros [k [= -> _]]. destruct Hc; discriminate.
Qed.

(** The kernel binary is not in the staging tree. *)
Lemma kernel_binary_outside self :
  Os.within "disk" (Staging.kernel_binary self) = false.
Proof.
  apply rooted_outside. unfold Staging.kernel_binary.
  do 3 apply join_rooted. right. reflexivity.
Qed.

Lemma apart_assemble self : apart (assemble_steps self) = true.
Proof.
  unfold assemble_steps. generalize (Staging.kernel_binary self). intros kb.
  vm_compute. reflexivity.
Qed.

Lemma limine_sources_outside :
  forallb (λ op, match source_of op with
                 | Some c => negb (Os.within "disk" c)
                 | None => true
                 end) limine_steps = true.
Proof. vm_compute. reflexivity. Qed.

Lemma sources_outside self op c :
  op ∈ assemble_steps self → source_of op = Some c →
  Os.within "disk" c = false.
Proof.
  unfold assemble_steps. intros Hin Hs.
  apply elem_of_cons in Hin. destruct Hin as [-> | Hin]; [discriminate|].
  apply elem_of_cons in Hin. destruct Hin as [-> | Hin]; [discriminate|].
  apply elem_of_cons in Hin. destruct Hin as [-> | Hin].
  - injection Hs as <-. apply kernel_binary_outside.
  - pose proof limine_sources_outside as H. rewrite forallb_forall in H.
    apply list_elem_of_In in Hin. specialize (H op Hin). rewrite Hs in H.
    apply negb_true_iff in H. exact H.
Qed.

Lemma subjects_inside self :
  forallb (λ op, Os.within "disk" (subject op)) (assemble_steps self) = true.
Proof.
  unfold assemble_steps. generalize (Staging.kernel_binary self). intros kb.
  vm_compute. reflexivity.
Qed.

Lemma written_staged self :
  forallb (λ p, bool_decide (p ∈ staged_dirs ++ (staged_files self).*1))
    (flat_map written (assemble_steps self)) = true.
Proof.
  unfold staged_files, assemble_steps.
  generalize (Staging.kernel_binary self). intros kb.
  vm_compute. reflexivity.
Qed.

Lemma disk_is_ancestor rest :
  ("disk"%string : str) ∈ Os.ancestors (("disk"%string : str) ++ "/" ++ rest).
Proof.
  unfold Os.ancestors. cbn. apply list_elem_of_here.
Qed.

(** A forced cleaning leaves nothing in the staging tree. *)
Lemma clean_disk_forced self d d1 :
  force self = true → well_formed d →
  clean_disk self d = (Done tt, d1) →
  ∀ path, Os.within "disk" path = true → nodes d1 !! path = None.
Proof.
  intros Hforce Hwf. unfold clean_disk, sys_bind, Os.path_exists, sys_ret.
  rewrite Hforce. case_bool_decide as Hex.
  - unfold Os.print, Os.rmtree. cbn [nodes now printed].
    destruct (nodes d !! ("disk"%string : str)) as [[f | t]|]; try discriminate.
    intros [= <-] path Hin. cbn [nodes].
    change (Os.parent "disk") with (@None str). cbn [Os.touched].
    apply map_lookup_filter_None. right. intros n _ Hf.
    pose proof (eq_trans (eq_sym Hin) Hf) as Habs. discriminate Habs.
  - intros [= <-] path Hin. apply eq_None_not_Some in Hex.
    unfold Os.within in Hin. apply orb_true_iff in Hin.
    destruct Hin as [Hin | Hin]; apply bool_decide_eq_true in Hin.
    + subst path. exact Hex.
    + destruct Hin as [rest ->]. rewrite <- app_assoc.
      apply eq_None_not_Some. intros Hsome.
      destruct (Hwf _ Hsome _ (disk_is_ancestor rest)) as [t Ht].
      rewrite Hex in Ht. discriminate.
Qed.

End Kernel.

Section Forced.

Implicit Types (d : Disk) (self : PackagingTask).

(** X15: With Limine, a forced run that returns leaves in the staging
    tree exactly its five directories and its eight files, all stamped
    by this run, and each file with the contents of its source: nothing
    of an older tree survives. *)
Theorem forced_run_rebuilds_tree self d :
  bootloader self = LimineBootloader.new →
  force self = true → well_formed d →
  (Staging._assemble_disk self Staging.copy_files d).1 = Done tt →
  let d' := (Staging._assemble_disk self Staging.copy_files d).2 in
  (∀ dir, dir ∈ staged_dirs → nodes d' !! dir = Some (DirNode (now d))) ∧
  (∀ target copy, (target, copy) ∈ staged_files self →
     ∃ f, nodes d !! copy = Some (FileNode f) ∧
          nodes d' !! target =
            Some (FileNode {| mtime := now d; data := data f |})) ∧
  (∀ path, Os.within "disk" path = true → path ∉ staged_dirs →
     path ∉ (staged_files self).*1 → nodes d' !! path = None).
Proof.
  intros _ Hforce Hwf. cbv zeta. rewrite assemble_disk_steps. unfold sys_bind.
  destruct (clean_disk_spec self d) as (Hn & Ho & _).
  pose proof (clean_disk_forced self d) as Hclean.
  destruct (clean_disk self d) as [[[] | e] d1]; cbn [fst snd] in *;
    [|discriminate].
  specialize (Hclean d1 Hforce Hwf eq_refl).
  destruct (stage_all (assemble_steps self) d1) as [r d'] eqn:Hrun.
  cbn [fst snd]. intros ->.
  pose proof (writes_stage_all (assemble_steps self) d1) as Hw.
  rewrite Hrun in Hw. cbn [snd] in Hw.
  assert (Hmade : ∀ op, op ∈ assemble_steps self → made d1 d' op).
  { apply (fresh_run _ _ _ Hrun (apart_assemble self)).
    - intros op Hin. apply Hclean. pose proof (subjects_inside self) as H.
      rewrite forallb_forall in H. apply H. apply list_elem_of_In. exact Hin.
    - intros op c Hin Hs. apply outside_not_written.
      apply (sources_outside self op c Hin Hs). }
  split; [|split].
  - intros dir Hdir. rewrite <- Hn. unfold staged_dirs in Hdir.
    repeat (apply elem_of_cons in Hdir; destruct Hdir as [-> | Hdir]).
    + apply (Hmade (Mkdir "disk")). apply list_elem_of_here.
    + apply (Hmade (Mkdir "disk/system")).
      apply list_elem_of_further, list_elem_of_here.
    + apply (Hmade (Ensure "disk/limine")).
      do 3 apply list_elem_of_further. apply list_elem_of_here.
    + assert (Hin : Ensure "disk/EFI/BOOT" ∈ assemble_steps self).
      { do 8 apply list_elem_of_further. apply list_elem_of_here. }
      destruct (Hmade _ Hin) as (_ & Ha).
      destruct (Ha ("disk/EFI"%string : str)) as [t Ht].
      { unfold Os.ancestors. cbn.
        apply list_elem_of_further, list_elem_of_here. }
      destruct Hw as (_ & _ & _ & Hs). destruct (Hs _ _ Ht) as [H1 | H1].
      * rewrite Hclean in H1 by reflexivity. discriminate.
      * cbn [stamp] in H1. rewrite Ht, H1. reflexivity.
    + apply (Hmade (Ensure "disk/EFI/BOOT")).
      do 8 apply list_elem_of_further. apply list_elem_of_here.
    + apply elem_of_nil in Hdir. destruct Hdir.
  - intros target copy Hin. unfold staged_files in Hin.
    apply list_elem_of_omap in Hin. destruct Hin as (op & Hin & Hop).
    specialize (Hmade op Hin).
    pose proof (source_of_copy_of _ _ _ Hop) as (_ & _ & Hs).
    pose proof (sources_outside self op copy Hin Hs) as Hout.
    destruct op as [dir | dir | t c | t c]; try discriminate;
      injection Hop as -> ->; cbn [made] in Hmade;
      destruct Hmade as (f & Hf & Ht); exists f;
      rewrite <- Hn, <- (Ho copy Hout); split; assumption.
  - intros path Hin Hd Hf. destruct Hw as (_ & Hout & _ & _).
    rewrite Hout; [apply Hclean; exact Hin|].
    intros Hw. pose proof (written_staged self) as H.
    rewrite forallb_forall in H. apply list_elem_of_In in Hw.
    specialize (H path Hw). apply bool_decide_eq_true in H.
    apply elem_of_app in H. destruct H as [H | H]; [exact (Hd H) | exact (Hf H)].
Qed.

End Forced.

Section Inside.

Implicit Types (d : Disk) (self : PackagingTask).

(** X16: With Limine, building the staging tree changes nothing
    outside [disk] and leaves the clock alone.  Unless the task is forced, no entry is
    removed or turned from a file into a directory or back, and
    whatever lies in the tree beside the five directories and eight
    files of the run stays as it is, and so goes into the image. *)
Theorem staging_stays_inside_disk self d :
  bootloader self = LimineBootloader.new →
  let d' := (Staging._assemble_disk self Staging.copy_files d).2 in
  now d' = now d ∧
  (∀ path, Os.within "disk" path = false →
     nodes d' !! path = nodes d !! path) ∧
  (force self = false →
   (∀ path n, nodes d !! path = Some n →
      ∃ n', nodes d' !! path = Some n' ∧ is_dir n' = is_dir n) ∧
   (∀ path, path ∉ staged_dirs → path ∉ (staged_files self).*1 →
      nodes d' !! path = nodes d !! path)).
Proof.
  intros _. cbv zeta. rewrite assemble_disk_steps. unfold sys_bind.
  destruct (clean_disk_spec self d) as (Hn & Ho & Hf).
  destruct (clean_disk self d) as [[[] | e] d1] eqn:Hc; cbn [fst snd] in *.
  - destruct (writes_stage_all (assemble_steps self) d1)
      as (Hn' & Ho' & Hk' & _).
    split; [congruence|]. split.
    + intros path Hout. rewrite Ho' by (apply outside_not_written; exact Hout).
      apply Ho. exact Hout.
    + intros Hforce. specialize (Hf Hforce). injection Hf as ->.
      split; [exact Hk'|]. intros path Hd Ht. apply Ho'.
      intros Hw. pose proof (written_staged self) as H.
      rewrite forallb_forall in H. apply list_elem_of_In in Hw.
      specialize (H path Hw). apply bool_decide_eq_true in H.
      apply elem_of_app in H. destruct H as [H | H]; [exact (Hd H) | exact (Ht H)].
  - split; [exact Hn|]. split; [exact Ho|].
    intros Hforce. specialize (Hf Hforce). discriminate.
Qed.

End Inside.

Section Assembled.

Implicit Types (d : Disk) (self : PackagingTask).

Lemma assemble_disk_parts self copy_files d :
  Staging._assemble_disk self copy_files d =
  sys_bind
    (sys_bind (clean_disk self) (λ _, stage_all (kernel_steps self)))
    (λ _, copy_files) d.
Proof.
  unfold Staging._assemble_disk, clean_disk, kernel_steps.
  cbn [stage_all stage].
  rewrite !sys_bind_assoc. apply sys_bind_ext. intros clean d1.
  apply sys_bind_ext. intros [] d2.
  rewrite !sys_bind_assoc. apply sys_bind_ext. intros present d3.
  apply sys_bind_ext. intros [] d4.
  unfold Staging._copy_kernel.
  rewrite !sys_bind_assoc. apply sys_bind_ext. intros present' d5.
  rewrite !sys_bind_assoc. apply sys_bind_ext. intros [] d6.
  reflexivity.
Qed.

Lemma kernel_steps_need_binary self d :
  nodes d !! Staging.kernel_binary self = None →
  failed (sys_bind (clean_disk self)
            (λ _, stage_all (kernel_steps self)) d).1 = true.
Proof.
  intros Hkb. unfold sys_bind.
  destruct (clean_disk_spec self d) as (_ & Ho & _).
  destruct (clean_disk self d) as [[[] | e] d1]; cbn [fst snd] in *;
    [|reflexivity].
  destruct (stage_all (kernel_steps self) d1) as [[[] | e] d'] eqn:Hrun;
    [|reflexivity].
  exfalso. unfold kernel_steps in Hrun.
  destruct (stage_all_done _ _ _ _ Hrun) as (d2 & H1 & Hrun2).
  destruct (stage_all_done _ _ _ _ Hrun2) as (d3 & H2 & Hrun3).
  cbn [stage_all] in Hrun3. apply copy_kernel_done in Hrun3.
  destruct Hrun3 as (f & Hf & _).
  pose proof (writes_stage (Mkdir "disk") d1) as (_ & W1 & _).
  pose proof (writes_stage (Mkdir "disk/system") d2) as (_ & W2 & _).
  rewrite H1 in W1. rewrite H2 in W2. cbn [snd] in W1, W2.
  pose proof (outside_not_written self _ (kernel_binary_outside self)) as Hnw.
  rewrite W2, W1, Ho, Hkb in Hf; [discriminate | apply kernel_binary_outside | |];
    intros Hin; apply Hnw; unfold assemble_steps; cbn [flat_map];
    apply elem_of_app; [left | right; apply elem_of_app; left]; exact Hin.
Qed.

Lemma limine_in_assemble self op :
  op ∈ limine_steps → op ∈ assemble_steps self.
Proof. intros H. unfold assemble_steps. do 3 apply list_elem_of_further. exact H. Qed.

Lemma copy_in_limine self target copy :
  Copy target copy ∈ assemble_steps self → Copy target copy ∈ limine_steps.
Proof.
  unfold assemble_steps. intros H.
  do 3 (apply elem_of_cons in H; destruct H as [[=] | H]). exact H.
Qed.

End Assembled.

Section Returned.

Implicit Types (d : Disk) (self : PackagingTask).

(** X17: With the kernel binary missing the staging fails before the
    bootloader is asked for its files: whatever the bootloader's
    [copy_files] does, the outcome and the file system are the same. *)
Theorem missing_kernel_stops_assembly self copy_files d :
  nodes d !! Staging.kernel_binary self = None →
  failed (Staging._assemble_disk self copy_files d).1 = true ∧
  Staging._assemble_disk self copy_files d =
    Staging._assemble_disk self (sys_ret tt) d.
Proof.
  intros Hkb. rewrite !assemble_disk_parts.
  pose proof (kernel_steps_need_binary self d Hkb) as Hfail.
  unfold sys_bind at 1 3 5.
  destruct (sys_bind (clean_disk self) (λ _, stage_all (kernel_steps self)) d)
    as [[[] | e] d1]; [discriminate|].
  split; reflexivity.
Qed.

(** X18: When the staging with Limine returns, forced or not, the
    kernel in the tree is a copy of the kernel binary made in this run,
    whatever was there before; every bootloader file is there and at
    least as new as its source, if no source is dated in the future,
    but need not have the contents of its source. *)
Theorem returned_run_is_up_to_date self d :
  bootloader self = LimineBootloader.new →
  (Staging._assemble_disk self Staging.copy_files d).1 = Done tt →
  (∀ target copy n, (target, copy) ∈ limine_files →
     nodes d !! copy = Some n → (stamp n ≤ now d)%Z) →
  let d' := (Staging._assemble_disk self Staging.copy_files d).2 in
  (∃ f, nodes d !! Staging.kernel_binary self = Some (FileNode f) ∧
        nodes d' !! ("disk/system/kernel"%string : str) =
          Some (FileNode {| mtime := now d; data := data f |})) ∧
  (∀ target copy, (target, copy) ∈ limine_files →
     ∃ nt nc, nodes d' !! target = Some nt ∧ nodes d !! copy = Some nc ∧
              (stamp nc ≤ stamp nt)%Z).
Proof.
  intros _ Hdone Hold. cbv zeta. rewrite assemble_disk_steps in *.
  unfold sys_bind in *.
  destruct (clean_disk_spec self d) as (Hn & Ho & _).
  destruct (clean_disk self d) as [[[] | e] d1]; cbn [fst snd] in *;
    [|discriminate].
  destruct (stage_all (assemble_steps self) d1) as [r d'] eqn:Hrun.
  cbn [fst snd] in *. subst r.
  pose proof (writes_stage_all (assemble_steps self) d1) as Hw.
  rewrite Hrun in Hw. cbn [snd] in Hw. destruct Hw as (Hn' & Ho' & _ & _).
  assert (Hsame : ∀ op c, op ∈ assemble_steps self → source_of op = Some c →
                    nodes d' !! c = nodes d !! c ∧ nodes d1 !! c = nodes d !! c).
  { intros op c Hin Hs. pose proof (sources_outside self op c Hin Hs) as Hout.
    rewrite Ho' by (apply outside_not_written; exact Hout).
    split; apply Ho; exact Hout. }
  assert (Hkept : ∀ op, op ∈ assemble_steps self → kept d' op).
  { apply (run_keeps _ _ _ Hrun (apart_assemble self)).
    - intros op c Hin Hs. apply outside_not_written.
      apply (sources_outside self op c Hin Hs).
    - intros target c n Hin Hc. rewrite Hn. apply (Hold target c n).
      + apply list_elem_of_omap. exists (Copy target c).
        split; [|reflexivity]. apply (copy_in_limine self). exact Hin.
      + destruct (Hsame _ c Hin eq_refl) as (_ & <-). exact Hc. }
  split.
  - assert (Hin : CopyKernel "disk/system/kernel" (Staging.kernel_binary self)
                    ∈ assemble_steps self).
    { do 2 apply list_elem_of_further. apply list_elem_of_here. }
    destruct (Hkept _ Hin) as (f & Hf & Ht). exists f.
    destruct (Hsame _ _ Hin eq_refl) as (<- & _).
    rewrite <- Hn, <- Hn'. split; assumption.
  - intros target copy Hin. apply list_elem_of_omap in Hin.
    destruct Hin as (op & Hin & Hop).
    pose proof limine_steps_tested as Htest. rewrite forallb_forall in Htest.
    specialize (Htest op (proj1 (list_elem_of_In _ _) Hin)).
    destruct op as [dir | dir | t c | t c]; try discriminate.
    injection Hop as -> ->.
    pose proof (limine_in_assemble self _ Hin) as Hin'.
    destruct (Hkept _ Hin') as (nt & nc & Ht & Hc & Hle).
    exists nt, nc. destruct (Hsame _ _ Hin' eq_refl) as (<- & _).
    split; [exact Ht|]. split; [exact Hc | exact Hle].
Qed.

End Returned.

Section Agreement.

Implicit Types (d : Disk).

Lemma files_of_lookup d path :
  files (files_of d) !! path =
  match nodes d !! path with Some (FileNode f) => Some f | _ => None end.
Proof.
  unfold files_of. cbn [files]. rewrite lookup_omap.
  destruct (nodes d !! path) as [[f | t]|]; reflexivity.
Qed.

(** Writing a file and stamping its directory is, for the files, just
    writing the file. *)
Lemma files_of_written d dir path f lines :
  (∀ t, nodes d !! path ≠ Some (DirNode t)) →
  files_of {| nodes := Os.touched dir d (<[path := FileNode f]> (nodes d));
              now := now d; printed := lines |} =
  {| files := <[path := f]> (files (files_of d));
     clock := now d; stdout := lines |}.
Proof.
  intros Hnd. unfold files_of at 1. cbn [nodes now printed]. f_equal.
  apply map_eq. intros p. rewrite lookup_omap.
  destruct (touched_lookup dir d (<[path := FileNode f]> (nodes d)) p)
    as [-> | (_ & (t & Ht) & ->)].
  - destruct (decide (path = p)) as [-> | Hne].
    + rewrite !lookup_insert_eq. reflexivity.
    + rewrite !lookup_insert_ne by exact Hne. rewrite files_of_lookup.
      destruct (nodes d !! p) as [[f0 | t0]|]; reflexivity.
  - destruct (decide (path = p)) as [-> | Hne].
    + rewrite lookup_insert_eq in Ht. discriminate.
    + rewrite lookup_insert_ne in Ht by exact Hne.
      rewrite lookup_insert_ne by exact Hne. rewrite files_of_lookup, Ht.
      reflexivity.
Qed.

Lemma files_of_overwritten d path f lines :
  files_of {| nodes := <[path := FileNode f]> (nodes d);
              now := now d; printed := lines |} =
  {| files := <[path := f]> (files (files_of d));
     clock := now d; stdout := lines |}.
Proof.
  unfold files_of at 1. cbn [nodes now printed]. f_equal.
  apply map_eq. intros p. rewrite lookup_omap.
  destruct (decide (path = p)) as [-> | Hne].
  - rewrite !lookup_insert_eq. reflexivity.
  - rewrite !lookup_insert_ne by exact Hne. rewrite files_of_lookup.
    destruct (nodes d !! p) as [[f0 | t0]|]; reflexivity.
Qed.

Lemma test_or_copy_unreadable target copy s tgt :
  files s !! copy = None → files s !! target = Some tgt →
  test_or_copy target copy s = (Raise (FileNotFoundError copy), s).
Proof.
  intros Hs Ht. unfold test_or_copy, bind, path_exists.
  rewrite Ht. rewrite bool_decide_eq_true_2 by eauto.
  cbn [negb]. unfold getmtime. rewrite Hs. reflexivity.
Qed.

Lemma test_or_copy_nothing target copy s :
  files s !! copy = None → files s !! target = None →
  test_or_copy target copy s =
  (Raise (FileNotFoundError copy),
   {| files := files s; clock := clock s;
      stdout := stdout s ++ [copy_message target copy] |}).
Proof.
  intros Hs Ht. unfold test_or_copy, bind, path_exists.
  rewrite Ht. rewrite bool_decide_eq_false_2 by (by intros [? ?]).
  cbn [negb]. unfold ret, print, copyfile. cbn [files clock stdout].
  rewrite Hs. reflexivity.
Qed.

Lemma staging_test_or_copy_present target copy d nt :
  nodes d !! target = Some nt →
  Staging.test_or_copy target copy d =
  match nodes d !! copy with
  | Some nc =>
      if (stamp nt <? stamp nc)%Z
      then Os.copyfile copy target
             {| nodes := nodes d; now := now d;
                printed := printed d ++ [copy_message target copy] |}
      else (Done tt, d)
  | None => (Failed (Os.missing copy d), d)
  end.
Proof.
  intros Ht. unfold Staging.test_or_copy, sys_bind, Os.path_exists.
  rewrite Ht. rewrite bool_decide_eq_true_2 by eauto.
  cbn [negb]. unfold Os.getmtime. destruct (nodes d !! copy) as [nc|]; [|reflexivity].
  rewrite Ht. unfold sys_ret.
  destruct (stamp nt <? stamp nc)%Z; reflexivity.
Qed.

Lemma staging_test_or_copy_absent target copy d :
  nodes d !! target = None →
  Staging.test_or_copy target copy d =
  Os.copyfile copy target
    {| nodes := nodes d; now := now d;
       printed := printed d ++ [copy_message target copy] |}.
Proof.
  intros Ht. unfold Staging.test_or_copy, sys_bind, Os.path_exists.
  rewrite Ht. rewrite bool_decide_eq_false_2 by (by intros [? ?]).
  reflexivity.
Qed.

Lemma copyfile_agrees target copy d lines :
  copy ≠ target →
  (∀ t, nodes d !! copy ≠ Some (DirNode t)) →
  (∀ t, nodes d !! target ≠ Some (DirNode t)) →
  (nodes d !! copy = None → Os.blocked copy d = None) →
  (nodes d !! target = None → Os.blocked target d = None) →
  Os.copyfile copy target
    {| nodes := nodes d; now := now d; printed := lines |} =
  match nodes d !! copy with
  | Some (FileNode fc) =>
      (Done tt,
       {| nodes :=
            match nodes d !! target with
            | Some _ =>
                <[target := FileNode {| mtime := now d; data := data fc |}]>
                  (nodes d)
            | None =>
                Os.touched (Os.parent target) d
                  (<[target := FileNode {| mtime := now d; data := data fc |}]>
                     (nodes d))
            end;
          now := now d; printed := lines |})
  | _ => (Failed (ENOENT copy),
          {| nodes := nodes d; now := now d; printed := lines |})
  end.
Proof.
  intros Hne Hcd Htd Hcb Htb. unfold Os.copyfile. cbn [nodes now printed].
  rewrite bool_decide_eq_false_2 by exact Hne. cbn [andb].
  destruct (nodes d !! copy) as [[fc | tc]|] eqn:Hc.
  - destruct (nodes d !! target) as [[ft | tt']|] eqn:Ht.
    + reflexivity.
    + destruct (Htd tt' eq_refl).
    + unfold Os.blocked in *. cbn [nodes]. rewrite (Htb eq_refl). reflexivity.
  - destruct (Hcd tc eq_refl).
  - unfold Os.missing, Os.blocked in *. cbn [nodes]. rewrite (Hcb eq_refl).
    reflexivity.
Qed.

(** X19: Where no directory stands in the way, [test_or_copy] on the
    file system with directories does what the file-only model says:
    the same files with the same contents and stamps, the same lines
    printed, and the same missing file reported. *)
Theorem test_or_copy_models_agree target copy d :
  copy ≠ target →
  (∀ t, nodes d !! copy ≠ Some (DirNode t)) →
  (∀ t, nodes d !! target ≠ Some (DirNode t)) →
  (nodes d !! copy = None → Os.blocked copy d = None) →
  (nodes d !! target = None → Os.blocked target d = None) →
  agrees (Staging.test_or_copy target copy d)
         (test_or_copy target copy (files_of d)).
Proof.
  intros Hne Hcd Htd Hcb Htb.
  pose proof (λ lines, copyfile_agrees target copy d lines Hne Hcd Htd Hcb Htb)
    as Hcopy.
  pose proof (files_of_lookup d target) as Lt.
  pose proof (files_of_lookup d copy) as Lc.
  unfold agrees.
  destruct (nodes d !! target) as [[ft | tt']|] eqn:Ht.
  - rewrite (staging_test_or_copy_present _ _ _ _ Ht).
    destruct (nodes d !! copy) as [[fc | tc]|] eqn:Hc.
    + rewrite (test_or_copy_present _ _ _ _ _ Lc Lt). cbn [stamp].
      destruct (mtime ft <? mtime fc)%Z.
      * rewrite Hcopy. cbn [fst snd]. split; [|exact I]. symmetry.
        apply (files_of_overwritten d).
      * cbn [fst snd]. split; [reflexivity | exact I].
    + destruct (Hcd tc eq_refl).
    + rewrite (test_or_copy_unreadable _ _ _ _ Lc Lt). cbn [fst snd].
      split; [reflexivity|]. unfold Os.missing. rewrite (Hcb eq_refl).
      reflexivity.
  - destruct (Htd tt' eq_refl).
  - rewrite (staging_test_or_copy_absent _ _ _ Ht), Hcopy.
    destruct (nodes d !! copy) as [[fc | tc]|] eqn:Hc.
    + rewrite (test_or_copy_absent _ _ _ _ Lc Lt). cbn [fst snd].
      split; [|exact I]. symmetry. apply (files_of_written d).
      intros t. rewrite Ht. discriminate.
    + destruct (Hcd tc eq_refl).
    + rewrite (test_or_copy_nothing _ _ _ Lc Lt). cbn [fst snd].
      split; reflexivity.
Qed.

End Agreement.

Section Makedirs.

Implicit Types (d : Disk).











End Makedirs.

Section Ensure.

Implicit Types (d : Disk).


End Ensure.

Section Witnesses.

Implicit Types (d : Disk).

Lemma in_directories_well_formed d : in_directories d = true → well_formed d.
Proof.
  unfold in_directories. rewrite forallb_forall.
  intros H path [n Hn] a Ha.
  apply elem_of_map_to_list, list_elem_of_In in Hn. specialize (H _ Hn).
  cbn [fst] in H. rewrite forallb_forall in H.
  apply list_elem_of_In in Ha. specialize (H a Ha).
  destruct (nodes d !! a) as [[f | t]|]; try discriminate.
  exists t. reflexivity.
Qed.

Lemma none_ahead_stamps d :
  none_ahead d = true →
  ∀ path n, nodes d !! path = Some n → (stamp n ≤ now d)%Z.
Proof.
  unfold none_ahead. rewrite forallb_forall. intros H path n Hn.
  apply elem_of_map_to_list, list_elem_of_In in Hn. specialize (H _ Hn).
  cbn [snd] in H. apply Z.leb_le. exact H.
Qed.

Lemma built_well_formed : well_formed built ∧ well_formed restaged.
Proof.
  split; apply in_directories_well_formed; vm_compute; reflexivity.
Qed.

Lemma built_none_ahead : none_ahead built = true ∧ none_ahead restaged = true.
Proof. split; vm_compute; reflexivity. Qed.

End Witnesses.

Lemma staging_stays_inside_disk_witness :
  bootloader pack_task = LimineBootloader.new ∧ force pack_task = false ∧
  let d' := (Staging._assemble_disk pack_task Staging.copy_files restaged).2 in
  now d' = now restaged ∧
  (∀ path, Os.within "disk" path = false →
     nodes d' !! path = nodes restaged !! path) ∧
  (∀ path n, nodes restaged !! path = Some n →
     ∃ n', nodes d' !! path = Some n' ∧ is_dir n' = is_dir n) ∧
  (∀ path, path ∉ staged_dirs → path ∉ (staged_files pack_task).*1 →
     nodes d' !! path = nodes restaged !! path).
Proof.
  split; [reflexivity|]. split; [reflexivity|].
  destruct (staging_stays_inside_disk pack_task restaged eq_refl)
    as (H1 & H2 & H3).
  split; [exact H1|]. split; [exact H2|]. exact (H3 eq_refl).
Defined.

Lemma copy_files_settles_witness :
  (Staging.copy_files restaged).1 = Done tt ∧
  (∀ target copy n, (target, copy) ∈ limine_files →
     nodes restaged !! copy = Some n → (stamp n ≤ now restaged)%Z) ∧
  Staging.copy_files (at_time 20 (Staging.copy_files restaged).2) =
    (Done tt, at_time 20 (Staging.copy_files restaged).2).
Proof.
  assert (H1 : (Staging.copy_files restaged).1 = Done tt)
    by (vm_compute; reflexivity).
  assert (H2 : ∀ target copy n, (target, copy) ∈ limine_files →
     nodes restaged !! copy = Some n → (stamp n ≤ now restaged)%Z)
    by (intros target copy n _; apply none_ahead_stamps, built_none_ahead).
  split; [exact H1|]. split; [exact H2|].
  exact (copy_files_settles restaged 20 H1 H2).
Defined.

Lemma forced_run_rebuilds_tree_witness :
  bootloader forced_task = LimineBootloader.new ∧
  force forced_task = true ∧ well_formed restaged ∧
  (Staging._assemble_disk forced_task Staging.copy_files restaged).1 = Done tt ∧
  let d' := (Staging._assemble_disk forced_task Staging.copy_files restaged).2 in
  (∀ dir, dir ∈ staged_dirs →
     nodes d' !! dir = Some (DirNode (now restaged))) ∧
  (∀ target copy, (target, copy) ∈ staged_files forced_task →
     ∃ f, nodes restaged !! copy = Some (FileNode f) ∧
          nodes d' !! target =
            Some (FileNode {| mtime := now restaged; data := data f |})) ∧
  (∀ path, Os.within "disk" path = true → path ∉ staged_dirs →
     path ∉ (staged_files forced_task).*1 → nodes d' !! path = None).
Proof.
  assert (H : (Staging._assemble_disk forced_task Staging.copy_files
                 restaged).1 = Done tt) by (vm_compute; reflexivity).
  split; [reflexivity|]. split; [reflexivity|].
  split; [apply built_well_formed|]. split; [exact H|].
  exact (forced_run_rebuilds_tree forced_task restaged eq_refl eq_refl
           (proj2 built_well_formed) H).
Defined.

Lemma missing_kernel_stops_assembly_witness :
  nodes restaged !! Staging.kernel_binary
    {| target := "riscv64imac-unknown-none-elf";
       bootloader := LimineBootloader.new; release := false;
       output := "microdragon.iso"; force := false |} = None ∧
  ∀ copy_files,
    failed (Staging._assemble_disk
      {| target := "riscv64imac-unknown-none-elf";
         bootloader := LimineBootloader.new; release := false;
         output := "microdragon.iso"; force := false |}
      copy_files restaged).1 = true.
Proof.
  assert (H : nodes restaged !! Staging.kernel_binary
    {| target := "riscv64imac-unknown-none-elf";
       bootloader := LimineBootloader.new; release := false;
       output := "microdragon.iso"; force := false |} = None)
    by (vm_compute; reflexivity).
  split; [exact H|]. intros copy_files.
  exact (proj1 (missing_kernel_stops_assembly _ copy_files restaged H)).
Defined.

Lemma returned_run_is_up_to_date_witness :
  bootloader pack_task = LimineBootloader.new ∧
  (Staging._assemble_disk pack_task Staging.copy_files restaged).1 = Done tt ∧
  (∀ target copy n, (target, copy) ∈ limine_files →
     nodes restaged !! copy = Some n → (stamp n ≤ now restaged)%Z) ∧
  let d' := (Staging._assemble_disk pack_task Staging.copy_files restaged).2 in
  (∃ f, nodes restaged !! Staging.kernel_binary pack_task = Some (FileNode f) ∧
        nodes d' !! ("disk/system/kernel"%string : str) =
          Some (FileNode {| mtime := now restaged; data := data f |})) ∧
  (∀ target copy, (target, copy) ∈ limine_files →
     ∃ nt nc, nodes d' !! target = Some nt ∧
              nodes restaged !! copy = Some nc ∧ (stamp nc ≤ stamp nt)%Z).
Proof.
  assert (H1 : (Staging._assemble_disk pack_task Staging.copy_files
                  restaged).1 = Done tt) by (vm_compute; reflexivity).
  assert (H2 : ∀ target copy n, (target, copy) ∈ limine_files →
     nodes restaged !! copy = Some n → (stamp n ≤ now restaged)%Z)
    by (intros target copy n _; apply none_ahead_stamps, built_none_ahead).
  split; [reflexivity|]. split; [exact H1|]. split; [exact H2|].
  exact (returned_run_is_up_to_date pack_task restaged eq_refl H1 H2).
Defined.

Lemma test_or_copy_models_agree_witness :
  let target : str := "disk/limine/limine.cfg" in
  let copy : str := "bootloader/limine/limine.cfg" in
  copy ≠ target ∧
  (∀ t, nodes restaged !! copy ≠ Some (DirNode t)) ∧
  (∀ t, nodes restaged !! target ≠ Some (DirNode t)) ∧
  (nodes restaged !! copy = None → Os.blocked copy restaged = None) ∧
  (nodes restaged !! target = None → Os.blocked target restaged = None) ∧
  agrees (Staging.test_or_copy target copy restaged)
         (test_or_copy target copy (files_of restaged)).
Proof.
  cbv zeta.
  assert (H1 : ("bootloader/limine/limine.cfg"%string : str) ≠
               ("disk/limine/limine.cfg"%string : str)) by discriminate.
  assert (H2 : ∀ t, nodes restaged !! ("bootloader/limine/limine.cfg"%string : str)
                    ≠ Some (DirNode t)) by (intros t; vm_compute; discriminate).
  assert (H3 : ∀ t, nodes restaged !! ("disk/limine/limine.cfg"%string : str)
                    ≠ Some (DirNode t)) by (intros t; vm_compute; discriminate).
  assert (H4 : nodes restaged !! ("bootloader/limine/limine.cfg"%string : str)
               = None →
               Os.blocked "bootloader/limine/limine.cfg" restaged = None)
    by (intros _; vm_compute; reflexivity).
  assert (H5 : nodes restaged !! ("disk/limine/limine.cfg"%string : str) = None →
               Os.blocked "disk/limine/limine.cfg" restaged = None)
    by (intros _; vm_compute; reflexivity).
  split; [exact H1|]. split; [exact H2|]. split; [exact H3|].
  split; [exact H4|]. split; [exact H5|].
  exact (test_or_copy_models_agree _ _ restaged H1 H2 H3 H4 H5).
Defined.



(** * Extracting the arguments *)

Section Extract.

Implicit Types (w : Registries) (attrs : list (str * Attr)).

Lemma get_set_attr name v attrs : get_attr name (set_attr name v attrs) = Some v.
Proof.
  induction attrs as [|[key old] attrs IH]; cbn [set_attr get_attr].
  - rewrite bool_decide_eq_true_2 by reflexivity. reflexivity.
  - case_bool_decide as Hk; cbn [get_attr].
    + rewrite bool_decide_eq_true_2 by exact Hk. reflexivity.
    + rewrite bool_decide_eq_false_2 by exact Hk. exact IH.
Qed.

Lemma get_set_attr_ne name name' v attrs :
  name ≠ name' → get_attr name' (set_attr name v attrs) = get_attr name' attrs.
Proof.
  intros Hne. induction attrs as [|[key old] attrs IH]; cbn [set_attr get_attr].
  - rewrite bool_decide_eq_false_2 by exact Hne. reflexivity.
  - case_bool_decide as Hk; cbn [get_attr].
    + subst key. rewrite bool_decide_eq_false_2 by exact Hne. reflexivity.
    + rewrite IH. reflexivity.
Qed.

Lemma attr_of_setattr self name v w :
  is_Some (heap w !! self) → attr_of self name (setattr self name v w) = Some v.
Proof.
  intros [i Hi]. unfold attr_of, setattr. cbn [heap].
  rewrite lookup_alter_eq, Hi. cbn. apply get_set_attr.
Qed.

Lemma attr_of_setattr_ne self name name' v w :
  name ≠ name' →
  attr_of self name' (setattr self name v w) = attr_of self name' w.
Proof.
  intros Hne. unfold attr_of, setattr. cbn [heap].
  rewrite lookup_alter_eq. destruct (heap w !! self) as [i|]; [|reflexivity].
  cbn. apply get_set_attr_ne. exact Hne.
Qed.

Lemma setattr_other self other name v w :
  other ≠ self → heap (setattr self name v w) !! other = heap w !! other.
Proof.
  intros Hne. unfold setattr. cbn [heap]. apply lookup_alter_ne.
  intros ->. apply Hne. reflexivity.
Qed.

Lemma setattr_live self other name v w :
  is_Some (heap (setattr self name v w) !! other) ↔ is_Some (heap w !! other).
Proof.
  unfold setattr. cbn [heap]. destruct (decide (self = other)) as [-> | Hne].
  - rewrite lookup_alter_eq. rewrite fmap_is_Some. reflexivity.
  - rewrite lookup_alter_ne by exact Hne. reflexivity.
Qed.

End Extract.

Section ExtractArguments.

Implicit Types (w : Registries) (args : Namespace.t).

Lemma to_rust_arch_accepts arch :
  is_Some (to_rust_arch arch) ↔ arch ∈ target_choices.
Proof.
  rewrite to_rust_arch_cases. unfold target_choices.
  rewrite !elem_of_cons, elem_of_nil.
  repeat case_bool_decide; split; intros Hx;
    try (eexists; reflexivity); try tauto;
    try (destruct Hx as [? [=]]).
Qed.

Lemma build_extract_arguments_effect self args w :
  is_Some (heap w !! self) →
  let r := BuildTask_extract_arguments self args w in
  tasks r.2 = tasks w ∧ bootloaders r.2 = bootloaders w ∧
  (∀ other, other ≠ self → heap r.2 !! other = heap w !! other) ∧
  is_Some (heap r.2 !! self) ∧
  match r.1 with
  | None =>
      ∃ triple loader,
        to_rust_arch (Namespace.target args) = Some triple ∧
        bootloaders w !! Namespace.bootloader args = Some loader ∧
        attr_of self "target" r.2 = Some (AStr triple) ∧
        attr_of self "bootloader" r.2 = Some (ARef loader) ∧
        attr_of self "release" r.2 = Some (ABool (Namespace.release args)) ∧
        ∀ name, name ∉ ["target" : str; "bootloader" : str; "release" : str] →
                attr_of self name r.2 = attr_of self name w
  | Some (AssertionError _) =>
      to_rust_arch (Namespace.target args) = None ∧ r.2 = w
  | Some (Exception e) =>
      ∃ triple,
        to_rust_arch (Namespace.target args) = Some triple ∧
        bootloaders w !! Namespace.bootloader args = None ∧
        e = RuntimeError ("No bootloader registered with name "
                            ++ Namespace.bootloader args) ∧
        attr_of self "target" r.2 = Some (AStr triple) ∧
        ∀ name, name ≠ ("target" : str) →
                attr_of self name r.2 = attr_of self name w
  end.
Proof.
  intros Hlive. cbv zeta. unfold BuildTask_extract_arguments.
  destruct (to_rust_arch (Namespace.target args)) as [triple|] eqn:Harch.
  - unfold BootloaderRegistry.get_bootloader. cbn [bootloaders setattr].
    destruct (bootloaders w !! Namespace.bootloader args) as [loader|] eqn:Hb;
      cbn [fst snd tasks bootloaders].
    + split; [reflexivity|]. split; [reflexivity|]. split; [|split].
      * intros other Hne. rewrite !setattr_other by exact Hne. reflexivity.
      * rewrite !setattr_live. exact Hlive.
      * exists triple, loader. split; [reflexivity|]. split; [reflexivity|].
        split; [|split; [|split]].
        -- rewrite !attr_of_setattr_ne by discriminate.
           apply attr_of_setattr. exact Hlive.
        -- rewrite attr_of_setattr_ne by discriminate.
           apply attr_of_setattr. rewrite setattr_live. exact Hlive.
        -- apply attr_of_setattr. rewrite !setattr_live. exact Hlive.
        -- intros name Hname. rewrite !elem_of_cons, elem_of_nil in Hname.
           rewrite !attr_of_setattr_ne; [reflexivity | | |];
             intros <-; apply Hname; tauto.
    + split; [reflexivity|]. split; [reflexivity|]. split; [|split].
      * intros other Hne. rewrite setattr_other by exact Hne. reflexivity.
      * rewrite setattr_live. exact Hlive.
      * exists triple. split; [reflexivity|]. split; [reflexivity|].
        split; [reflexivity|]. split.
        -- apply attr_of_setattr. exact Hlive.
        -- intros name Hname. apply attr_of_setattr_ne.
           intros <-. apply Hname. reflexivity.
  - cbn [fst snd]. split; [reflexivity|]. split; [reflexivity|].
    split; [reflexivity|]. split; [exact Hlive|]. split; reflexivity.
Qed.

(** X21: [PackagingTask.extract_arguments] leaves the registries and
    every other object alone.  It returns exactly when the architecture
    is one the command line offers and the bootloader is registered,
    and then the task holds the Rust target, that bootloader and the
    three options.  For another architecture the assertion fails and
    nothing has changed; for an unregistered bootloader [RuntimeError]
    is raised with the target of the task already replaced, and
    nothing else. *)
Theorem extract_arguments_effect self args w :
  is_Some (heap w !! self) →
  let r := PackagingTask_extract_arguments self args w in
  tasks r.2 = tasks w ∧ bootloaders r.2 = bootloaders w ∧
  (∀ other, other ≠ self → heap r.2 !! other = heap w !! other) ∧
  match r.1 with
  | None =>
      Namespace.target args ∈ target_choices ∧
      ∃ loader,
        bootloaders w !! Namespace.bootloader args = Some loader ∧
        attr_of self "target" r.2 =
          AStr <$> to_rust_arch (Namespace.target args) ∧
        attr_of self "bootloader" r.2 = Some (ARef loader) ∧
        attr_of self "release" r.2 = Some (ABool (Namespace.release args)) ∧
        attr_of self "output" r.2 = Some (Namespace.output args) ∧
        attr_of self "force" r.2 = Some (ABool (Namespace.force args)) ∧
        ∀ name, name ∉ ["target" : str; "bootloader" : str; "release" : str;
                        "output" : str; "force" : str] →
                attr_of self name r.2 = attr_of self name w
  | Some (AssertionError _) =>
      (Namespace.target args ∉ target_choices) ∧ r.2 = w
  | Some (Exception e) =>
      Namespace.target args ∈ target_choices ∧
      bootloaders w !! Namespace.bootloader args = None ∧
      e = RuntimeError ("No bootloader registered with name "
                          ++ Namespace.bootloader args) ∧
      attr_of self "target" r.2 =
        AStr <$> to_rust_arch (Namespace.target args) ∧
      ∀ name, name ≠ ("target" : str) →
              attr_of self name r.2 = attr_of self name w
  end.
Proof.
  intros Hlive. cbv zeta. unfold PackagingTask_extract_arguments.
  pose proof (build_extract_arguments_effect self args w Hlive) as H.
  cbv zeta in H.
  destruct (BuildTask_extract_arguments self args w) as [[[msg | e]|] w1];
    cbn [fst snd] in *; destruct H as (Ht & Hb & Ho & Hl & H).
  - split; [exact Ht|]. split; [exact Hb|]. split; [exact Ho|].
    destruct H as (Harch & ->). split; [|reflexivity].
    intros Hin. apply to_rust_arch_accepts in Hin. rewrite Harch in Hin.
    destruct Hin as [? [=]].
  - split; [exact Ht|]. split; [exact Hb|]. split; [exact Ho|].
    destruct H as (triple & Harch & Hnone & -> & Htarget & Hrest).
    split; [apply to_rust_arch_accepts; rewrite Harch; eexists; reflexivity|].
    split; [exact Hnone|]. split; [reflexivity|]. split; [|exact Hrest].
    rewrite Harch. exact Htarget.
  - cbn [tasks bootloaders setattr]. split; [exact Ht|]. split; [exact Hb|].
    split.
    { intros other Hne. rewrite !setattr_other by exact Hne. apply Ho, Hne. }
    destruct H as (triple & loader & Harch & Hsome & Htarget & Hbl & Hrel & Hrest).
    split; [apply to_rust_arch_accepts; rewrite Harch; eexists; reflexivity|].
    exists loader. split; [exact Hsome|]. rewrite Harch.
    split; [|split; [|split; [|split; [|split]]]].
    + rewrite !attr_of_setattr_ne by discriminate. exact Htarget.
    + rewrite !attr_of_setattr_ne by discriminate. exact Hbl.
    + rewrite !attr_of_setattr_ne by discriminate. exact Hrel.
    + rewrite attr_of_setattr_ne by discriminate.
      apply attr_of_setattr. exact Hl.
    + apply attr_of_setattr. rewrite setattr_live. exact Hl.
    + intros name Hname. rewrite !elem_of_cons, elem_of_nil in Hname.
      rewrite !attr_of_setattr_ne; [apply Hrest | |].
      * rewrite !elem_of_cons, elem_of_nil. tauto.
      * intros <-. apply Hname. tauto.
      * intros <-. apply Hname. tauto.
Qed.

End ExtractArguments.

Lemma extract_arguments_effect_witness :
  is_Some (heap pack_registries !! 1) ∧
  let r := PackagingTask_extract_arguments 1 pack_rust pack_registries in
  r.1 = Some (Exception
                (RuntimeError "No bootloader registered with name Rust")) ∧
  attr_of 1 "target" r.2 = Some (AStr "riscv64imac-unknown-none-elf") ∧
  attr_of 1 "force" r.2 = Some (ABool false).
Proof.
  assert (H : is_Some (heap pack_registries !! 1))
    by (vm_compute; eexists; reflexivity).
  split; [exact H|]. cbv zeta.
  pose proof (extract_arguments_effect 1 pack_rust pack_registries H) as E.
  cbv zeta in E.
  assert (R : (PackagingTask_extract_arguments 1 pack_rust pack_registries).1 =
              Some (Exception
                      (RuntimeError "No bootloader registered with name Rust")))
    by (vm_compute; reflexivity).
  rewrite R in E. destruct E as (_ & _ & _ & _ & _ & _ & Ht & Hrest).
  split; [exact R|]. split.
  - rewrite Ht. vm_compute. reflexivity.
  - rewrite Hrest by discriminate. vm_compute. reflexivity.
Defined.

